(** * Email verification by SMTP handshake: a shallow embedding of
    [email_verifier.py] and the properties of its orchestrator
    ([verify_email]) and of its per-host conversation ([smtp_check]).

    Python [str] values are modelled as [string] (sequences of 8-bit
    characters), the two result dictionaries as records, the network (DNS
    resolver, sockets, random generator) as an explicit [world] that is
    threaded through a state-and-exception monad and that logs every
    network operation. *)

From Stdlib Require Import Bool List ZArith Lia Ascii String Sorting.Sorted Sorting.Permutation.
Import ListNotations.
Local Open Scope string_scope.

(* ================================================================== *)
(** ** Strings as the source uses them *)

Module Str.

(** [s.startswith(p)] *)
Definition startswith (s p : string) : bool := String.prefix p s.

(** [s[:n]] *)
Definition take (n : nat) (s : string) : string := substring 0 n s.

Definition code (c : ascii) : N := N_of_ascii c.

Definition between (lo hi c : ascii) : bool :=
  (code lo <=? code c)%N && (code c <=? code hi)%N.

(** Whitespace removed by [str.strip()], among the ASCII characters. *)
Definition is_space (c : ascii) : bool :=
  ((9 <=? code c)%N && (code c <=? 13)%N)
  || ((28 <=? code c)%N && (code c <=? 32)%N).

Fixpoint drop_while (p : ascii -> bool) (l : list ascii) : list ascii :=
  match l with
  | [] => []
  | c :: l' => if p c then drop_while p l' else l
  end.

Definition lstrip_by (p : ascii -> bool) (s : string) : string :=
  string_of_list_ascii (drop_while p (list_ascii_of_string s)).

Definition rstrip_by (p : ascii -> bool) (s : string) : string :=
  string_of_list_ascii (rev (drop_while p (rev (list_ascii_of_string s)))).

(** [s.strip()] *)
Definition strip (s : string) : string := lstrip_by is_space (rstrip_by is_space s).

(** [s.rstrip('.')] *)
Definition rstrip_dot (s : string) : string := rstrip_by (Ascii.eqb ".") s.

(** [s.split(sep)] for a one-character separator: the pieces between
    the occurrences of [sep], always at least one piece. *)
Fixpoint split (sep : ascii) (s : string) : list string :=
  match s with
  | EmptyString => [EmptyString]
  | String c s' =>
      if Ascii.eqb c sep then EmptyString :: split sep s'
      else match split sep s' with
           | [] => [String c EmptyString]
           | piece :: pieces => String c piece :: pieces
           end
  end.

Fixpoint mem (c : ascii) (s : string) : bool :=
  match s with
  | EmptyString => false
  | String d s' => Ascii.eqb d c || mem c s'
  end.

End Str.

(* ================================================================== *)
(** ** The syntax gate: [re.match(email_regex, email)]

    Regular expressions with Brzozowski derivatives; [email_regex] is the
    pattern of the source, and [re_match] adds what [^] and [$] mean for
    [re.match]: the pattern must match from the start up to the end of
    the string, or up to a newline that ends the string. *)

Module Re.

Inductive regex : Type :=
| Void                                   (* matches nothing *)
| Eps                                    (* the empty string *)
| Chr (c : ascii)                        (* a literal character *)
| Class (p : ascii -> bool)              (* a bracket expression *)
| Cat (r1 r2 : regex)
| Alt (r1 r2 : regex)
| Star (r : regex).

Definition Plus (r : regex) : regex := Cat r (Star r).        (* r+ *)
Definition AtLeast2 (r : regex) : regex := Cat r (Cat r (Star r)). (* r{2,} *)

Fixpoint nullable (r : regex) : bool :=
  match r with
  | Void => false
  | Eps => true
  | Chr _ => false
  | Class _ => false
  | Cat r1 r2 => nullable r1 && nullable r2
  | Alt r1 r2 => nullable r1 || nullable r2
  | Star _ => true
  end.

Fixpoint deriv (c : ascii) (r : regex) : regex :=
  match r with
  | Void => Void
  | Eps => Void
  | Chr d => if Ascii.eqb c d then Eps else Void
  | Class p => if p c then Eps else Void
  | Cat r1 r2 =>
      Alt (Cat (deriv c r1) r2) (if nullable r1 then deriv c r2 else Void)
  | Alt r1 r2 => Alt (deriv c r1) (deriv c r2)
  | Star r1 => Cat (deriv c r1) (Star r1)
  end.

(** The whole of [s] is matched by [r]. *)
Fixpoint fullmatch (r : regex) (s : string) : bool :=
  match s with
  | EmptyString => nullable r
  | String c s' => fullmatch (deriv c r) s'
  end.

Definition is_alpha (c : ascii) : bool :=
  Str.between "a" "z" c || Str.between "A" "Z" c.

Definition is_digit (c : ascii) : bool := Str.between "0" "9" c.

(** [[a-zA-Z0-9._%+-]] *)
Definition local_class (c : ascii) : bool :=
  is_alpha c || is_digit c || Str.mem c "._%+-".

(** [[a-zA-Z0-9.-]] *)
Definition domain_class (c : ascii) : bool :=
  is_alpha c || is_digit c || Str.mem c ".-".

(** [^[a-zA-Z0-9._%+-]+@[a-zA-Z0-9.-]+\.[a-zA-Z]{2,}$] without its anchors. *)
Definition email_regex : regex :=
  Cat (Plus (Class local_class))
    (Cat (Chr "@")
       (Cat (Plus (Class domain_class))
          (Cat (Chr ".") (AtLeast2 (Class is_alpha))))).

Definition newline : ascii := ascii_of_nat 10.

(** [s[:-1]] when [s] ends with a newline. *)
Fixpoint chop_newline (s : string) : option string :=
  match s with
  | EmptyString => None
  | String c EmptyString => if Ascii.eqb c newline then Some EmptyString else None
  | String c s' => option_map (String c) (chop_newline s')
  end.

(** [re.match('^' r '$', s)]: [$] holds at the end of the string and
    just before a newline that is the last character. *)
Definition re_match (r : regex) (s : string) : bool :=
  fullmatch r s
  || match chop_newline s with
     | Some s' => fullmatch r s'
     | None => false
     end.

(** Every word of [r] contains the character [a] (a syntactic
    sufficient condition). *)
Fixpoint needs (a : ascii) (r : regex) : bool :=
  match r with
  | Void => true
  | Eps => false
  | Chr d => Ascii.eqb d a
  | Class _ => false
  | Cat r1 r2 => needs a r1 || needs a r2
  | Alt r1 r2 => needs a r1 && needs a r2
  | Star _ => false
  end.

End Re.

(* ================================================================== *)
(** ** MX records and [sorted] *)

(** One answer record: [r.preference] and [str(r.exchange)]. *)
Record mx_rdata : Type := { preference : Z; exchange : string }.

(** The order of Python tuples [(int, str)]. *)
Definition mx_leb (a b : Z * string) : bool :=
  match Z.compare (fst a) (fst b) with
  | Lt => true
  | Gt => false
  | Eq => String.leb (snd a) (snd b)
  end.

Fixpoint insert_mx (x : Z * string) (l : list (Z * string)) : list (Z * string) :=
  match l with
  | [] => [x]
  | y :: l' => if mx_leb x y then x :: l else y :: insert_mx x l'
  end.

(** [sorted(l)] on a list of [(preference, hostname)] tuples. *)
Fixpoint sorted (l : list (Z * string)) : list (Z * string) :=
  match l with
  | [] => []
  | x :: l' => insert_mx x (sorted l')
  end.

(* ================================================================== *)
(** ** Exceptions, the network and the monad of the two functions *)

(** The exception classes the source names, and [Exception] for every
    other one.  In Python [socket.timeout] is a subclass of
    [socket.error], and all of them are subclasses of [Exception]. *)
Inductive exn_class : Type :=
| socket_timeout
| socket_error
| NoAnswer
| NXDOMAIN
| NoNameservers
| IndexError
| Exception.

(** An exception object: its class and [str(e)]. *)
Record exn : Type := { cls : exn_class; str : string }.

(** One network operation, as it happened. *)
Inductive event : Type :=
| Resolve (domain : string)               (* dns.resolver.resolve(domain, 'MX') *)
| Connect (host : string) (ok : bool)     (* socket.socket(), settimeout(), sock.connect((host, 25)) *)
| Send (data : string) (ok : bool)        (* sock.send(data) *)
| Recv (reply : option string)            (* sock.recv(1024), None when it raised *)
| Close.                                  (* sock.close() *)

(** What is outside the program: the resolver's answer for each domain,
    the strings the random generator yields, the outcomes of the socket
    calls to come (in the order of the calls), and the log of the network
    operations made so far, newest first. *)
Record world : Type := {
  resolve_mx : string -> exn + list mx_rdata;
  random_lower : nat -> string;
  draws : nat;
  script : list (exn + string);
  log : list event
}.

(** The operations in the order they were made. *)
Definition history (w : world) : list event := rev (log w).

Definition timed_out : exn := {| cls := socket_timeout; str := "timed out" |}.

(** The outcome of the next socket call; a socket whose peer has nothing
    more to say times out. *)
Definition next_outcome (w : world) : exn + string :=
  match script w with
  | [] => inl timed_out
  | o :: _ => o
  end.

Definition advance (ev : event) (w : world) : world :=
  {| resolve_mx := resolve_mx w;
     random_lower := random_lower w;
     draws := draws w;
     script := tl (script w);
     log := ev :: log w |}.

Definition record (ev : event) (w : world) : world :=
  {| resolve_mx := resolve_mx w;
     random_lower := random_lower w;
     draws := draws w;
     script := script w;
     log := ev :: log w |}.

Definition drawn (w : world) : world :=
  {| resolve_mx := resolve_mx w;
     random_lower := random_lower w;
     draws := S (draws w);
     script := script w;
     log := log w |}.

(** A computation over the world and the local dictionary [L] of the
    running function, that returns or raises.  The state survives an
    exception, as the mutations of a Python dictionary do. *)
Definition M (L A : Type) : Type := world * L -> (exn + A) * (world * L).

Section Monad.
Context {L : Type}.

Definition ret {A} (a : A) : M L A := fun s => (inr a, s).

Definition raise {A} (e : exn) : M L A := fun s => (inl e, s).

Definition bind {A B} (m : M L A) (k : A -> M L B) : M L B :=
  fun s =>
    match m s with
    | (inr a, s') => k a s'
    | (inl e, s') => (inl e, s')
    end.

(** [try: m  except Exception as e: h e] *)
Definition try_except {A} (m : M L A) (h : exn -> M L A) : M L A :=
  fun s =>
    match m s with
    | (inr a, s') => (inr a, s')
    | (inl e, s') => h e s'
    end.

(** The local dictionary. *)
Definition get : M L L := fun s => (inr (snd s), s).

Definition modify (f : L -> L) : M L unit :=
  fun s => (inr tt, (fst s, f (snd s))).

(** [socket.socket(...)], [sock.settimeout(timeout)] and
    [sock.connect((host, 25))], taken as one step: it fails when one of
    the three raises, and the resolution of the host name that [connect]
    does is part of it. *)
Definition sock_connect (host : string) : M L unit :=
  fun s =>
    match next_outcome (fst s) with
    | inr _ => (inr tt, (advance (Connect host true) (fst s), snd s))
    | inl e => (inl e, (advance (Connect host false) (fst s), snd s))
    end.

(** [sock.send(data)] *)
Definition sock_send (data : string) : M L unit :=
  fun s =>
    match next_outcome (fst s) with
    | inr _ => (inr tt, (advance (Send data true) (fst s), snd s))
    | inl e => (inl e, (advance (Send data false) (fst s), snd s))
    end.

(** [sock.recv(1024).decode('utf-8', errors='ignore')] *)
Definition sock_recv : M L string :=
  fun s =>
    match next_outcome (fst s) with
    | inr reply => (inr reply, (advance (Recv (Some reply)) (fst s), snd s))
    | inl e => (inl e, (advance (Recv None) (fst s), snd s))
    end.

(** [sock.close()] *)
Definition sock_close : M L unit :=
  fun s => (inr tt, (record Close (fst s), snd s)).

(** [dns.resolver.resolve(domain, 'MX')] *)
Definition dns_resolve (domain : string) : M L (list mx_rdata) :=
  fun s =>
    match resolve_mx (fst s) domain with
    | inr answer => (inr answer, (record (Resolve domain) (fst s), snd s))
    | inl e => (inl e, (record (Resolve domain) (fst s), snd s))
    end.

(** [''.join(random.choices(string.ascii_lowercase, k=20))] *)
Definition random_choices : M L string :=
  fun s => (inr (random_lower (fst s) (draws (fst s))), (drawn (fst s), snd s)).

End Monad.

(** A call: the callee runs on its own local dictionary. *)
Definition call {L L' A} (init : L') (m : M L' A) : M L A :=
  fun s =>
    match m (fst s, init) with
    | (r, s') => (r, (fst s', snd s))
    end.

Notation "x <- m ; k" := (bind m (fun x => k))
  (at level 61, m at next level, right associativity).
Notation "m ;; k" := (bind m (fun _ => k))
  (at level 61, right associativity).

Definition CRLF : string := String (ascii_of_nat 13) (String (ascii_of_nat 10) "").

(* ================================================================== *)
(** ** [smtp_check]: one conversation with one mail server *)

Module SmtpResult.

Record t : Type := {
  success : bool;
  catch_all : bool;
  mx_host : string;
  message : string;
  smtp_code : option string;
  definitive_failure : bool
}.

Definition set_success (b : bool) (r : t) : t :=
  {| success := b; catch_all := catch_all r; mx_host := mx_host r;
     message := message r; smtp_code := smtp_code r;
     definitive_failure := definitive_failure r |}.

Definition set_catch_all (b : bool) (r : t) : t :=
  {| success := success r; catch_all := b; mx_host := mx_host r;
     message := message r; smtp_code := smtp_code r;
     definitive_failure := definitive_failure r |}.

Definition set_message (m : string) (r : t) : t :=
  {| success := success r; catch_all := catch_all r; mx_host := mx_host r;
     message := m; smtp_code := smtp_code r;
     definitive_failure := definitive_failure r |}.

Definition set_smtp_code (c : option string) (r : t) : t :=
  {| success := success r; catch_all := catch_all r; mx_host := mx_host r;
     message := message r; smtp_code := c;
     definitive_failure := definitive_failure r |}.

Definition set_definitive_failure (b : bool) (r : t) : t :=
  {| success := success r; catch_all := catch_all r; mx_host := mx_host r;
     message := message r; smtp_code := smtp_code r;
     definitive_failure := b |}.

(** The dictionary [smtp_check] starts from. *)
Definition initial (host : string) : t :=
  {| success := false; catch_all := false; mx_host := host;
     message := ""; smtp_code := None; definitive_failure := false |}.

End SmtpResult.

Import Str.

(** The analysis of the two RCPT replies (the [if]/[elif] chain that
    follows the QUIT). *)
Definition analyze (response catch_all_response : string)
    (result : SmtpResult.t) : SmtpResult.t :=
  if startswith response "250" || startswith response "251" then
    let result := SmtpResult.set_success true result in
    let result := SmtpResult.set_message "Email accepted by server" result in
    if startswith catch_all_response "250" || startswith catch_all_response "251" then
      let result := SmtpResult.set_catch_all true result in
      SmtpResult.set_message "Server is catch-all (accepts all addresses)" result
    else result
  else if startswith response "252" then
    let result := SmtpResult.set_success true result in
    let result := SmtpResult.set_catch_all true result in
    SmtpResult.set_message "Server cannot verify but will accept" result
  else if startswith response "550" || startswith response "551"
          || startswith response "553" then
    let result := SmtpResult.set_success false result in
    let result := SmtpResult.set_definitive_failure true result in
    SmtpResult.set_message ("Email rejected: " ++ strip response) result
  else if startswith response "450" || startswith response "451"
          || startswith response "452" then
    let result := SmtpResult.set_success false result in
    SmtpResult.set_message ("Temporary failure: " ++ strip response) result
  else
    SmtpResult.set_message ("Unexpected response: " ++ strip response) result.

Definition EHLO : string := "EHLO verify.local" ++ CRLF.
Definition HELO : string := "HELO verify.local" ++ CRLF.
Definition MAIL_FROM : string := "MAIL FROM:<verify@verify.local>" ++ CRLF.
Definition RCPT_TO (address : string) : string := "RCPT TO:<" ++ address ++ ">" ++ CRLF.
Definition QUIT : string := "QUIT" ++ CRLF.

(** The body of the [try] block of [smtp_check]; it ends where the
    source returns or falls out of the block. *)
Definition smtp_dialogue (mx_host email domain : string) : M SmtpResult.t unit :=
  sock_connect mx_host ;;
  response <- sock_recv ;
  if negb (startswith response "220") then
    modify (SmtpResult.set_message ("Bad greeting: " ++ response)) ;;
    sock_close
  else
    sock_send EHLO ;;
    response <- sock_recv ;
    (if negb (startswith response "250" || startswith response "220") then
       sock_send HELO ;;
       sock_recv
     else ret response) ;;
    sock_send MAIL_FROM ;;
    response <- sock_recv ;
    if negb (startswith response "250") then
      modify (SmtpResult.set_message ("MAIL FROM rejected: " ++ response)) ;;
      sock_send QUIT ;;
      sock_close
    else
      sock_send (RCPT_TO email) ;;
      response <- sock_recv ;
      modify (SmtpResult.set_smtp_code
                (if Nat.leb 3 (String.length response) then Some (take 3 response)
                 else None)) ;;
      random_local <- random_choices ;
      let fake_email := random_local ++ "@" ++ domain in
      sock_send (RCPT_TO fake_email) ;;
      catch_all_response <- sock_recv ;
      sock_send QUIT ;;
      sock_close ;;
      modify (analyze response catch_all_response).

(** The three [except] clauses of [smtp_check], tried in order. *)
Definition smtp_handlers (mx_host : string) (e : exn) : M SmtpResult.t unit :=
  match cls e with
  | socket_timeout =>
      modify (SmtpResult.set_message ("Connection timeout to " ++ mx_host))
  | socket_error =>
      modify (SmtpResult.set_message ("Socket error: " ++ str e))
  | _ =>
      modify (SmtpResult.set_message ("Error: " ++ str e))
  end.

Definition smtp_check {L} (mx_host email domain : string) : M L SmtpResult.t :=
  call (SmtpResult.initial mx_host)
    (try_except (smtp_dialogue mx_host email domain) (smtp_handlers mx_host) ;;
     get).

(* ================================================================== *)
(** ** [verify_email]: the orchestrator *)

Inductive status_t : Type := valid | invalid | risky | unknown.

(** The values [smtp_response] takes: [None], the dictionary of a probe,
    or [{"error": str(e)}]. *)
Inductive smtp_response_t : Type :=
| RespNone
| RespResult (r : SmtpResult.t)
| RespError (error : string).

Module VerifyResult.

Record t : Type := {
  email : string;
  syntax_valid : bool;
  mx_found : bool;
  mx_records : list string;
  smtp_check : bool;
  smtp_response : smtp_response_t;
  status : status_t;
  score : Z;
  message : string
}.

Definition set_syntax_valid (b : bool) (r : t) : t :=
  {| email := email r; syntax_valid := b; mx_found := mx_found r;
     mx_records := mx_records r; smtp_check := smtp_check r;
     smtp_response := smtp_response r; status := status r;
     score := score r; message := message r |}.

Definition set_mx_found (b : bool) (r : t) : t :=
  {| email := email r; syntax_valid := syntax_valid r; mx_found := b;
     mx_records := mx_records r; smtp_check := smtp_check r;
     smtp_response := smtp_response r; status := status r;
     score := score r; message := message r |}.

Definition set_mx_records (l : list string) (r : t) : t :=
  {| email := email r; syntax_valid := syntax_valid r; mx_found := mx_found r;
     mx_records := l; smtp_check := smtp_check r;
     smtp_response := smtp_response r; status := status r;
     score := score r; message := message r |}.

Definition set_smtp_check (b : bool) (r : t) : t :=
  {| email := email r; syntax_valid := syntax_valid r; mx_found := mx_found r;
     mx_records := mx_records r; smtp_check := b;
     smtp_response := smtp_response r; status := status r;
     score := score r; message := message r |}.

Definition set_smtp_response (x : smtp_response_t) (r : t) : t :=
  {| email := email r; syntax_valid := syntax_valid r; mx_found := mx_found r;
     mx_records := mx_records r; smtp_check := smtp_check r;
     smtp_response := x; status := status r;
     score := score r; message := message r |}.

Definition set_status (x : status_t) (r : t) : t :=
  {| email := email r; syntax_valid := syntax_valid r; mx_found := mx_found r;
     mx_records := mx_records r; smtp_check := smtp_check r;
     smtp_response := smtp_response r; status := x;
     score := score r; message := message r |}.

Definition add_score (d : Z) (r : t) : t :=
  {| email := email r; syntax_valid := syntax_valid r; mx_found := mx_found r;
     mx_records := mx_records r; smtp_check := smtp_check r;
     smtp_response := smtp_response r; status := status r;
     score := (score r + d)%Z; message := message r |}.

Definition set_message (m : string) (r : t) : t :=
  {| email := email r; syntax_valid := syntax_valid r; mx_found := mx_found r;
     mx_records := mx_records r; smtp_check := smtp_check r;
     smtp_response := smtp_response r; status := status r;
     score := score r; message := m |}.

(** The dictionary [verify_email] starts from. *)
Definition initial (address : string) : t :=
  {| email := address; syntax_valid := false; mx_found := false;
     mx_records := []; smtp_check := false; smtp_response := RespNone;
     status := unknown; score := 0; message := "" |}.

End VerifyResult.

(** How one turn of the [for] loop ends. *)
Inductive turn : Type :=
| Break (smtp_result : SmtpResult.t)          (* success: [break] *)
| Return                                      (* definitive failure: [return result] *)
| Continue (smtp_response : smtp_response_t). (* next host *)

(** How the [for] loop ends: by [return result], or at its end (by
    [break] or by exhaustion) with the three variables it sets. *)
Inductive loop_exit : Type :=
| Returned
| Finished (smtp_verified : bool) (smtp_response : smtp_response_t)
           (is_catch_all : bool).

(** The body of the loop for one host: the [try] block and its handler. *)
Definition try_host (email domain mx_host : string) : M VerifyResult.t turn :=
  try_except
    (smtp_result <- smtp_check mx_host email domain ;
     if SmtpResult.success smtp_result then ret (Break smtp_result)
     else if SmtpResult.definitive_failure smtp_result then
       modify (VerifyResult.set_smtp_check false) ;;
       modify (VerifyResult.set_smtp_response (RespResult smtp_result)) ;;
       modify (VerifyResult.set_status invalid) ;;
       modify (VerifyResult.set_message (SmtpResult.message smtp_result)) ;;
       ret Return
     else ret (Continue (RespResult smtp_result)))
    (fun e => ret (Continue (RespError (str e)))).

(** [for preference, mx_host in mx_hosts: ...] *)
Fixpoint for_mx_hosts (email domain : string) (mx_hosts : list (Z * string))
    (smtp_response : smtp_response_t) : M VerifyResult.t loop_exit :=
  match mx_hosts with
  | [] => ret (Finished false smtp_response false)
  | (_, mx_host) :: rest =>
      t <- try_host email domain mx_host ;
      match t with
      | Break smtp_result =>
          ret (Finished true (RespResult smtp_result)
                 (SmtpResult.catch_all smtp_result))
      | Return => ret Returned
      | Continue smtp_response' =>
          for_mx_hosts email domain rest smtp_response'
      end
  end.

(** [list[i]], which raises [IndexError] out of range. *)
Definition index {L A} (l : list A) (i : nat) : M L A :=
  match nth_error l i with
  | Some a => ret a
  | None => raise {| cls := IndexError; str := "list index out of range" |}
  end.

(** [(r.preference, str(r.exchange).rstrip('.'))] *)
Definition mx_tuple (r : mx_rdata) : Z * string :=
  (preference r, rstrip_dot (exchange r)).

(** The MX lookup: the [try] block of step 2 and its two [except]
    clauses; [None] where the source returns [result]. *)
Definition lookup_mx (domain : string) : M VerifyResult.t (option (list (Z * string))) :=
  try_except
    (mx_records <- dns_resolve domain ;
     let mx_hosts := sorted (map mx_tuple mx_records) in
     modify (VerifyResult.set_mx_found true) ;;
     modify (VerifyResult.set_mx_records (map snd mx_hosts)) ;;
     modify (VerifyResult.add_score 30) ;;
     ret (Some mx_hosts))
    (fun e =>
       match cls e with
       | NoAnswer | NXDOMAIN | NoNameservers =>
           modify (VerifyResult.set_message
                     ("No MX records found for domain: " ++ domain)) ;;
           modify (VerifyResult.set_status invalid) ;;
           ret None
       | _ =>
           modify (VerifyResult.set_message ("DNS lookup failed: " ++ str e)) ;;
           modify (VerifyResult.set_status unknown) ;;
           ret None
       end).

(** The end of [verify_email], after the loop: steps from
    [result["smtp_response"] = smtp_response] to the last [return]. *)
Definition conclude (smtp_verified : bool) (smtp_response : smtp_response_t)
    (is_catch_all : bool) : M VerifyResult.t VerifyResult.t :=
  modify (VerifyResult.set_smtp_response smtp_response) ;;
  (if smtp_verified then
     modify (VerifyResult.set_smtp_check true) ;;
     modify (VerifyResult.add_score 50) ;;
     if is_catch_all then
       modify (VerifyResult.set_status risky) ;;
       modify (VerifyResult.set_message
         "Server accepts all emails (catch-all) - cannot definitively verify") ;;
       modify (VerifyResult.add_score (-20))
     else
       modify (VerifyResult.set_status valid) ;;
       modify (VerifyResult.set_message "Email address verified successfully")
   else
     modify (VerifyResult.set_status unknown) ;;
     modify (VerifyResult.set_message
       "Could not verify via SMTP - server may be blocking verification")) ;;
  get.

(** Step 3 of [verify_email]: the walk over the hosts and its outcome. *)
Definition verify_hosts (email domain : string) (mx_hosts : list (Z * string))
  : M VerifyResult.t VerifyResult.t :=
  match mx_hosts with
  | [] =>
      modify (VerifyResult.set_message "No MX records to verify against") ;;
      modify (VerifyResult.set_status unknown) ;;
      get
  | _ :: _ =>
      exit <- for_mx_hosts email domain mx_hosts RespNone ;
      match exit with
      | Returned => get
      | Finished smtp_verified smtp_response is_catch_all =>
          conclude smtp_verified smtp_response is_catch_all
      end
  end.

(** The body of [verify_email], on the dictionary [result]. *)
Definition verify_email_body (email : string) : M VerifyResult.t VerifyResult.t :=
  if negb (Re.re_match Re.email_regex email) then
    modify (VerifyResult.set_message "Invalid email syntax") ;;
    modify (VerifyResult.set_status invalid) ;;
    get
  else
    modify (VerifyResult.set_syntax_valid true) ;;
    modify (VerifyResult.add_score 20) ;;
    domain <- index (split "@" email) 1 ;
    found <- lookup_mx domain ;
    match found with
    | None => get
    | Some mx_hosts => verify_hosts email domain mx_hosts
    end.

(** [verify_email(email)] in a given world: what it returns or raises,
    and the world it leaves. *)
Definition verify_email (email : string) (w : world) : (exn + VerifyResult.t) * world :=
  match verify_email_body email (w, VerifyResult.initial email) with
  | (r, s) => (r, fst s)
  end.

(** [smtp_check(mx_host, email, domain)] in a given world. *)
Definition probe (mx_host email domain : string) (w : world)
  : (exn + SmtpResult.t) * world :=
  match @smtp_check unit mx_host email domain (w, tt) with
  | (r, s) => (r, fst s)
  end.

(* ================================================================== *)
(** ** Reading the log *)

(** The hosts a connection was set up for, in order. *)
Fixpoint contacted (t : list event) : list string :=
  match t with
  | [] => []
  | Connect host _ :: t' => host :: contacted t'
  | _ :: t' => contacted t'
  end.

(** Whether a connection is open after the operations [t], starting from
    [open]: a successful connect opens it, a close closes it.  (The
    socket object itself exists from [socket.socket()] on.) *)
Fixpoint socket_open (open : bool) (t : list event) : bool :=
  match t with
  | [] => open
  | Connect _ true :: t' => socket_open true t'
  | Close :: t' => socket_open false t'
  | _ :: t' => socket_open open t'
  end.

(** A world with nothing logged, for tests with a scripted server. *)
Definition mock (dns : string -> exn + list mx_rdata) (replies : list (exn + string)) : world :=
  {| resolve_mx := dns;
     random_lower := fun _ => "qwertyuiopasdfghjklz";
     draws := 0;
     script := replies;
     log := [] |}.

(** The events of a probe in which a socket call raised. *)
Definition raised (ev : event) : bool :=
  match ev with
  | Connect _ false | Send _ false | Recv None => true
  | _ => false
  end.

(** An outcome that is neither an acceptance nor a definitive failure. *)
Definition inconclusive (r : SmtpResult.t) : Prop :=
  SmtpResult.success r = false /\ SmtpResult.definitive_failure r = false.

(** [inconclusive_walk email domain hosts w resp w' resp']: probed one
    after the other from the world [w], every host of [hosts] gives an
    inconclusive outcome; [w'] is the world after the last probe, and
    [resp'] the last outcome ([resp] when there is no host). *)
Inductive inconclusive_walk (email domain : string)
  : list (Z * string) -> world -> smtp_response_t -> world -> smtp_response_t -> Prop :=
| walk_nil w resp : inconclusive_walk email domain [] w resp w resp
| walk_cons p h rest w resp r w1 w2 resp2 :
    probe h email domain w = (inr r, w1) ->
    inconclusive r ->
    inconclusive_walk email domain rest w1 (RespResult r) w2 resp2 ->
    inconclusive_walk email domain ((p, h) :: rest) w resp w2 resp2.

(** The order [sorted] sorts by. *)
Definition mx_le (a b : Z * string) : Prop := mx_leb a b = true.

(** The world at the start of the walk: the MX lookup is logged. *)
Definition looked_up (domain : string) (w : world) : world :=
  record (Resolve domain) w.

(** The message an [except] clause of [smtp_check] leaves. *)
Definition except_message (mx_host : string) (e : exn) : string :=
  match cls e with
  | socket_timeout => "Connection timeout to " ++ mx_host
  | socket_error => "Socket error: " ++ str e
  | _ => "Error: " ++ str e
  end.

(** [run_of mx_host email domain w P]: the probe of [mx_host] from the
    world [w] returns an outcome [r], and [P t r] holds of it and of the
    network operations [t] it made, oldest first. *)
Definition run_of (mx_host email domain : string) (w : world)
    (P : list event -> SmtpResult.t -> Prop) : Prop :=
  match probe mx_host email domain w with
  | (inr r, w') => exists t, log w' = (t ++ log w)%list /\ P (rev t) r
  | (inl _, _) => False
  end.

(** The dictionary [result] when the walk over the hosts starts. *)
Definition after_lookup (email : string) (mx_hosts : list (Z * string)) : VerifyResult.t :=
  VerifyResult.add_score 30
    (VerifyResult.set_mx_records (map snd mx_hosts)
       (VerifyResult.set_mx_found true
          (VerifyResult.add_score 20
             (VerifyResult.set_syntax_valid true (VerifyResult.initial email))))).

(** The dictionary [result] after a definitive failure. *)
Definition rejected (smtp_result : SmtpResult.t) (result : VerifyResult.t) : VerifyResult.t :=
  VerifyResult.set_message (SmtpResult.message smtp_result)
    (VerifyResult.set_status invalid
       (VerifyResult.set_smtp_response (RespResult smtp_result)
          (VerifyResult.set_smtp_check false result))).

(* ================================================================== *)
(** ** Scripted servers *)

(** The outcome a probe returned. *)
Definition outcome (x : (exn + SmtpResult.t) * world) : SmtpResult.t :=
  match fst x with
  | inr r => r
  | inl _ => SmtpResult.initial ""
  end.

(** A socket call that succeeds; for [recv], with the reply it reads. *)
Definition ok (reply : string) : exn + string := inr reply.

(** Two MX records as the resolver prints them, with the final dot of
    the root: [(10, "a.")] and [(5, "b.")]. *)
Definition two_hosts (domain : string) : exn + list mx_rdata :=
  inr [ {| preference := 10; exchange := "a." |};
        {| preference := 5; exchange := "b." |} ].

(** The same records as the property writes them; every host times out. *)
Definition host_order : world :=
  mock (fun _ => inr [ {| preference := 10; exchange := "a" |};
                       {| preference := 5; exchange := "b" |} ]) [].

(** One complete conversation: greeting 220, EHLO 250, MAIL FROM 250,
    then the replies [real] and [synthetic] to the two RCPT commands. *)
Definition conversation (real synthetic : string) : list (exn + string) :=
  [ ok ""; ok "220 mx ready"; ok ""; ok "250 hello"; ok ""; ok "250 sender ok";
    ok ""; ok real; ok ""; ok synthetic; ok "" ].

Definition scenario_B : world :=
  mock two_hosts (conversation "250 ok" "550 no such user").

Definition scenario_C : world :=
  mock two_hosts (conversation "250 ok" "250 ok").

Definition scenario_D : world :=
  mock two_hosts (conversation "550 no such user" "550 no such user"
                  ++ conversation "250 ok" "550 no such user").

(** The first host refuses the connection, the second one answers. *)
Definition first_host_down (real synthetic : string) : world :=
  mock two_hosts (inl {| cls := socket_error; str := "Connection refused" |}
                  :: conversation real synthetic).

(** Every host times out at connection. *)
Definition all_hosts_down : world := mock two_hosts [].

(** The resolver fails with [NoNameservers]. *)
Definition nameservers_failed : world :=
  mock (fun _ => inl {| cls := NoNameservers;
                        str := "All nameservers failed to answer the query" |}) [].

(** The resolver times out. *)
Definition resolver_timeout : world :=
  mock (fun _ => inl {| cls := Exception;
                        str := "The DNS operation timed out" |}) [].

(** The connection opens, the greeting is 220, and the read of the reply
    to EHLO times out. *)
Definition ehlo_reply_timeout : world :=
  mock two_hosts [ ok ""; ok "220 mx ready"; ok ""; inl timed_out ].

(** The server greets with something else than 220. *)
Definition bad_greeting : world :=
  mock two_hosts [ ok ""; ok "554 no service" ].

(* ================================================================== *)
(** ** More ways to read the log *)

(** The data of the [send] calls, in order. *)
Fixpoint sent (t : list event) : list string :=
  match t with
  | [] => []
  | Send data _ :: t' => data :: sent t'
  | _ :: t' => sent t'
  end.

(** The domains [dns.resolver.resolve] was called for, in order.  (The
    resolution of a host name inside [connect] is part of [Connect].) *)
Fixpoint resolved (t : list event) : list string :=
  match t with
  | [] => []
  | Resolve domain :: t' => domain :: resolved t'
  | _ :: t' => resolved t'
  end.

(** [response[:3] if len(response) >= 3 else None] *)
Definition code_of (response : string) : option string :=
  if Nat.leb 3 (String.length response) then Some (take 3 response) else None.

(** The commands of a conversation that runs to its end, without and
    with the HELO fallback, and of one that stops at MAIL FROM. *)
Definition commands (helo : bool) (email fake_email : string) : list string :=
  (EHLO :: (if helo then [HELO] else []) ++
   [MAIL_FROM; RCPT_TO email; RCPT_TO fake_email; QUIT])%list.

Definition commands_rejected (helo : bool) : list string :=
  (EHLO :: (if helo then [HELO] else []) ++ [MAIL_FROM; QUIT])%list.

(* ================================================================== *)
(** ** The runs of [verify_email] *)

(** [r] is what a probe for [email] returned. *)
Definition probed (email : string) (r : SmtpResult.t) : Prop :=
  exists h domain w0 w1, probe h email domain w0 = (inr r, w1).

(** The ways a call [verify_email(email)] in the world [w] can go: the
    result [res] it returns and the network operations [t] it makes. *)
Inductive run (email : string) (w : world) (res : VerifyResult.t) (t : list event) : Prop :=
| bad_syntax :
    Re.re_match Re.email_regex email = false ->
    res = VerifyResult.set_status invalid
            (VerifyResult.set_message "Invalid email syntax" (VerifyResult.initial email)) ->
    t = [] ->
    run email w res t
| lookup_failed domain e :
    nth_error (split "@" email) 1 = Some domain ->
    resolve_mx w domain = inl e ->
    t = [Resolve domain] ->
    VerifyResult.syntax_valid res = true -> VerifyResult.mx_found res = false ->
    VerifyResult.mx_records res = [] ->
    VerifyResult.smtp_check res = false -> VerifyResult.smtp_response res = RespNone ->
    VerifyResult.status res = invalid \/ VerifyResult.status res = unknown ->
    VerifyResult.score res = 20%Z ->
    run email w res t
| no_hosts domain :
    nth_error (split "@" email) 1 = Some domain ->
    resolve_mx w domain = inr [] ->
    t = [Resolve domain] ->
    VerifyResult.syntax_valid res = true -> VerifyResult.mx_found res = true ->
    VerifyResult.mx_records res = [] ->
    VerifyResult.smtp_check res = false -> VerifyResult.smtp_response res = RespNone ->
    VerifyResult.status res = unknown ->
    VerifyResult.score res = 50%Z ->
    run email w res t
| hosts_tried domain answer t' r :
    nth_error (split "@" email) 1 = Some domain ->
    resolve_mx w domain = inr answer ->
    t = Resolve domain :: t' -> resolved t' = [] ->
    VerifyResult.syntax_valid res = true -> VerifyResult.mx_found res = true ->
    VerifyResult.mx_records res = map snd (sorted (map mx_tuple answer)) ->
    VerifyResult.smtp_response res = RespResult r -> probed email r ->
    (inconclusive r /\ VerifyResult.smtp_check res = false
     /\ VerifyResult.status res = unknown /\ VerifyResult.score res = 50%Z)
    \/ (SmtpResult.definitive_failure r = true /\ SmtpResult.success r = false
        /\ VerifyResult.smtp_check res = false
        /\ VerifyResult.status res = invalid /\ VerifyResult.score res = 50%Z)
    \/ (SmtpResult.success r = true /\ VerifyResult.smtp_check res = true
        /\ VerifyResult.status res = (if SmtpResult.catch_all r then risky else valid)
        /\ VerifyResult.score res = (if SmtpResult.catch_all r then 80 else 100)%Z) ->
    run email w res t.

(* ================================================================== *)
(** ** What a regular expression matches *)

(** [lang r s]: the string [s] is a word of [r]. *)
Inductive lang : Re.regex -> string -> Prop :=
| lang_eps : lang Re.Eps ""
| lang_chr c : lang (Re.Chr c) (String c "")
| lang_class (p : ascii -> bool) c : p c = true -> lang (Re.Class p) (String c "")
| lang_cat r1 r2 s1 s2 : lang r1 s1 -> lang r2 s2 -> lang (Re.Cat r1 r2) (s1 ++ s2)
| lang_alt_l r1 r2 s : lang r1 s -> lang (Re.Alt r1 r2) s
| lang_alt_r r1 r2 s : lang r2 s -> lang (Re.Alt r1 r2) s
| lang_star_nil r : lang (Re.Star r) ""
| lang_star_cons r s1 s2 : lang r s1 -> lang (Re.Star r) s2 -> lang (Re.Star r) (s1 ++ s2).

(** Every character of [s] satisfies [p]. *)
Fixpoint all_in (p : ascii -> bool) (s : string) : bool :=
  match s with
  | EmptyString => true
  | String c s' => p c && all_in p s'
  end.

(** The string of a newline. *)
Definition NL : string := String Re.newline "".

(** The shape [local@domain.tld] of the pattern of [verify_email]. *)
Definition email_shape (s : string) : Prop :=
  exists l d t,
    s = l ++ "@" ++ d ++ "." ++ t
    /\ l <> "" /\ all_in Re.local_class l = true
    /\ d <> "" /\ all_in Re.domain_class d = true
    /\ (2 <= String.length t)%nat /\ all_in Re.is_alpha t = true.

(** The result a call of [verify_email] returned. *)
Definition returned (x : (exn + VerifyResult.t) * world) : VerifyResult.t :=
  match fst x with
  | inr res => res
  | inl _ => VerifyResult.initial ""
  end.

(** The resolver answers with no record at all. *)
Definition empty_answer : world := mock (fun _ => inr []) [].

(** [s.endswith('.')] *)
Definition ends_with_dot (s : string) : bool :=
  match rev (list_ascii_of_string s) with
  | c :: _ => Ascii.eqb "." c
  | [] => false
  end.

(* ================================================================== *)
(** ** The deployment handlers: [lambda_handler] and [verify_email_gcf] *)

(** The Python values the handlers receive and return: what JSON
    carries.  A float is given by its [repr], which is all the code can
    see of it. *)
#[warnings="-register-all"] Inductive pyval : Type :=
| PNone
| PBool (b : bool)
| PInt (n : Z)
| PFloat (repr : string)
| PStr (s : string)
| PList (l : list pyval)
| PDict (d : list (string * pyval)).

(** [bool(v)] *)
Definition truthy (v : pyval) : bool :=
  match v with
  | PNone => false
  | PBool b => b
  | PInt n => negb (Z.eqb n 0)
  | PFloat r => negb (String.eqb r "0.0" || String.eqb r "-0.0")
  | PStr s => negb (String.eqb s "")
  | PList l => match l with [] => false | _ :: _ => true end
  | PDict d => match d with [] => false | _ :: _ => true end
  end.

(** A dictionary with string keys: [d.get(key)] as an option. *)
Fixpoint lookup {A} (key : string) (d : list (string * A)) : option A :=
  match d with
  | [] => None
  | (k, v) :: d' => if String.eqb k key then Some v else lookup key d'
  end.

(** [d.get(key, default)] *)
Definition dict_get (d : list (string * pyval)) (key : string) (default : pyval) : pyval :=
  match lookup key d with
  | Some v => v
  | None => default
  end.

(** [type(v).__name__] *)
Definition type_name (v : pyval) : string :=
  match v with
  | PNone => "NoneType"
  | PBool _ => "bool"
  | PInt _ => "int"
  | PFloat _ => "float"
  | PStr _ => "str"
  | PList _ => "list"
  | PDict _ => "dict"
  end.

(** The exceptions of the handlers.  Both are caught by [except Exception]
    and by no handler more specific than it, which is all the class of an
    exception is used for. *)
Definition AttributeError (v : pyval) : exn :=
  {| cls := Exception;
     str := "'" ++ type_name v ++ "' object has no attribute 'get'" |}.

(** What [re.match] raises on a value that is not a string, with the text
    of CPython 3.10 (later versions add the type of the value). *)
Definition TypeError : exn :=
  {| cls := Exception; str := "expected string or bytes-like object" |}.

(** [v.get(key, default)] on any value: only a dictionary has [get]. *)
Definition py_get (v : pyval) (key : string) (default : pyval) : exn + pyval :=
  match v with
  | PDict d => inr (dict_get d key default)
  | _ => inl (AttributeError v)
  end.

(** The dictionary [smtp_check] returns, as a value. *)
Definition smtp_dict (r : SmtpResult.t) : pyval :=
  PDict [ ("success", PBool (SmtpResult.success r));
          ("catch_all", PBool (SmtpResult.catch_all r));
          ("mx_host", PStr (SmtpResult.mx_host r));
          ("message", PStr (SmtpResult.message r));
          ("smtp_code", match SmtpResult.smtp_code r with
                        | Some c => PStr c
                        | None => PNone
                        end);
          ("definitive_failure", PBool (SmtpResult.definitive_failure r)) ].

Definition status_name (s : status_t) : string :=
  match s with
  | valid => "valid"
  | invalid => "invalid"
  | risky => "risky"
  | unknown => "unknown"
  end.

(** The dictionary [verify_email] returns, as a value. *)
Definition result_dict (res : VerifyResult.t) : pyval :=
  PDict [ ("email", PStr (VerifyResult.email res));
          ("syntax_valid", PBool (VerifyResult.syntax_valid res));
          ("mx_found", PBool (VerifyResult.mx_found res));
          ("mx_records", PList (map PStr (VerifyResult.mx_records res)));
          ("smtp_check", PBool (VerifyResult.smtp_check res));
          ("smtp_response", match VerifyResult.smtp_response res with
                            | RespNone => PNone
                            | RespResult r => smtp_dict r
                            | RespError error => PDict [("error", PStr error)]
                            end);
          ("status", PStr (status_name (VerifyResult.status res)));
          ("score", PInt (VerifyResult.score res));
          ("message", PStr (VerifyResult.message res)) ].

(** [verify_email] on any value: [re.match] raises [TypeError] on what
    is not a string. *)
Definition verify_email_any (email : pyval) (w : world)
  : (exn + VerifyResult.t) * world :=
  match email with
  | PStr s => verify_email s w
  | _ => (inl TypeError, w)
  end.

(** [{'error': 'Email parameter required'}] *)
Definition error_body : pyval := PDict [("error", PStr "Email parameter required")].

Definition json_headers : list (string * pyval) :=
  [("Content-Type", PStr "application/json")].

(** A Flask request, as [verify_email_gcf] uses it: the query arguments
    and what [get_json()] returns or raises. *)
Record request : Type := {
  args : list (string * string);
  get_json : exn + pyval
}.

Section Handlers.

(** The [json] module. *)
Variable json_loads : string -> exn + pyval.
Variable json_dumps : pyval -> string.

(** The email [lambda_handler] takes from its event: the [if]/[elif]/[else]
    at its start. *)
Definition event_email (event : list (string * pyval)) : exn + pyval :=
  if match lookup "queryStringParameters" event with
     | Some v => truthy v
     | None => false
     end
  then py_get (dict_get event "queryStringParameters" PNone) "email" (PStr "")
  else if match lookup "body" event with
          | Some v => truthy v
          | None => false
          end
  then
    match (match dict_get event "body" PNone with
           | PStr s => json_loads s
           | v => inr v
           end) with
    | inl e => inl e
    | inr body => py_get body "email" (PStr "")
    end
  else inr (dict_get event "email" (PStr "")).

(** The two answers of [lambda_handler]. *)
Definition bad_request : pyval :=
  PDict [ ("statusCode", PInt 400); ("body", PStr (json_dumps error_body)) ].

Definition ok_response (res : VerifyResult.t) : pyval :=
  PDict [ ("statusCode", PInt 200);
          ("headers", PDict json_headers);
          ("body", PStr (json_dumps (result_dict res))) ].

(** [lambda_handler(event, context)] *)
Definition lambda_handler (event : list (string * pyval)) (w : world)
  : (exn + pyval) * world :=
  match event_email event with
  | inl e => (inl e, w)
  | inr email =>
      if negb (truthy email) then (inr bad_request, w)
      else
        match verify_email_any email w with
        | (inl e, w') => (inl e, w')
        | (inr result, w') => (inr (ok_response result), w')
        end
  end.

(** What [verify_email_gcf] returns: a body, a status and, with 200,
    the headers. *)
Definition gcf_response : Type := string * Z * option (list (string * pyval)).

(** [request.args.get('email') or request.get_json().get('email', '')] *)
Definition request_email (req : request) : exn + pyval :=
  match lookup "email" (args req) with
  | Some s =>
      if negb (String.eqb s "") then inr (PStr s)
      else match get_json req with
           | inl e => inl e
           | inr body => py_get body "email" (PStr "")
           end
  | None =>
      match get_json req with
      | inl e => inl e
      | inr body => py_get body "email" (PStr "")
      end
  end.

(** [verify_email_gcf(request)] *)
Definition verify_email_gcf (req : request) (w : world)
  : (exn + gcf_response) * world :=
  match request_email req with
  | inl e => (inl e, w)
  | inr email =>
      if negb (truthy email) then (inr (json_dumps error_body, 400%Z, None), w)
      else
        match verify_email_any email w with
        | (inl e, w') => (inl e, w')
        | (inr result, w') =>
            (inr (json_dumps (result_dict result), 200%Z, Some json_headers), w')
        end
  end.

End Handlers.

(* ================================================================== *)
(** ** [email_validator_multi_signal.py]: the pattern and name heuristics *)

(** [c.lower()] on ASCII characters. *)
Definition lower_char (c : ascii) : ascii :=
  if Str.between "A" "Z" c then ascii_of_N (Str.code c + 32) else c.

(** [s.lower()] on ASCII strings. *)
Fixpoint lower (s : string) : string :=
  match s with
  | EmptyString => EmptyString
  | String c s' => String (lower_char c) (lower s')
  end.

(** [[a-z]] *)
Definition az : Re.regex := Re.Class (Str.between "a" "z").

(** [r{n}] *)
Fixpoint times (n : nat) (r : Re.regex) : Re.regex :=
  match n with
  | O => Re.Eps
  | S n' => Re.Cat r (times n' r)
  end.

(** [r{0,n}] *)
Fixpoint upto (n : nat) (r : Re.regex) : Re.regex :=
  match n with
  | O => Re.Eps
  | S n' => Re.Alt Re.Eps (Re.Cat r (upto n' r))
  end.

(** The dictionary [patterns], in its order. *)
Definition patterns : list (string * Re.regex) :=
  [ ("firstname.lastname", Re.Cat (Re.Plus az) (Re.Cat (Re.Chr ".") (Re.Plus az)));
    ("firstnamelastname", Re.Cat (times 4 az) (Re.Star az));
    ("f.lastname", Re.Cat az (Re.Cat (Re.Chr ".") (Re.Plus az)));
    ("firstname_lastname", Re.Cat (Re.Plus az) (Re.Cat (Re.Chr "_") (Re.Plus az)));
    ("firstname", Re.Cat (times 2 az) (upto 13 az));
    ("flastname", Re.Cat az (Re.Plus az)) ].

(** The loop [for name, regex in patterns.items(): if re.match(...): ... break]:
    the name of the first pattern that matches. *)
Fixpoint first_match (ps : list (string * Re.regex)) (s : string) : option string :=
  match ps with
  | [] => None
  | (name, regex) :: ps' =>
      if Re.re_match regex s then Some name else first_match ps' s
  end.

Definition ValueError : exn :=
  {| cls := Exception; str := "too many values to unpack (expected 2)" |}.

(** [a, b = l] *)
Definition unpack2 (l : list string) : exn + string * string :=
  match l with
  | [a; b] => inr (a, b)
  | _ => inl ValueError
  end.

(** [x in l] for strings *)
Definition in_list (x : string) (l : list string) : bool :=
  existsb (String.eqb x) l.

Module PatternResult.

Record t : Type := {
  pattern_detected : option string;
  matches_known_pattern : bool;
  confidence_boost : Z
}.

Definition initial : t :=
  {| pattern_detected := None; matches_known_pattern := false; confidence_boost := 0 |}.

End PatternResult.

(** The loop over [known_emails] that fills [known_patterns]. *)
Fixpoint known_patterns_of (known_emails : list string) : exn + list string :=
  match known_emails with
  | [] => inr []
  | ke :: rest =>
      if Str.mem "@" ke then
        match unpack2 (split "@" (lower ke)) with
        | inl e => inl e
        | inr (kl, _) =>
            match known_patterns_of rest with
            | inl e => inl e
            | inr l =>
                inr (match first_match patterns kl with
                     | Some pn => pn :: l
                     | None => l
                     end)
            end
        end
      else known_patterns_of rest
  end.

(** [check_email_pattern(email, known_emails)]; [known_emails] is a list
    or [None]. *)
Definition check_email_pattern (email : string) (known_emails : option (list string))
  : exn + PatternResult.t :=
  if String.eqb email "" || negb (Str.mem "@" email) then inr PatternResult.initial
  else
    match unpack2 (split "@" (lower email)) with
    | inl e => inl e
    | inr (local_part, _) =>
        let detected := first_match patterns local_part in
        match (match known_emails with
               | Some (ke :: rest) =>
                   match known_patterns_of (ke :: rest) with
                   | inl e => inl e
                   | inr known_patterns =>
                       inr (match detected with
                            | Some name => in_list name known_patterns
                            | None => false
                            end)
                   end
               | _ => inr false
               end) with
        | inl e => inl e
        | inr matches =>
            let boost := if matches then 20%Z else 0%Z in
            let common :=
              match detected with
              | Some name =>
                  in_list name ["firstname.lastname"; "f.lastname"; "firstname_lastname"]
              | None => false
              end in
            inr {| PatternResult.pattern_detected := detected;
                   PatternResult.matches_known_pattern := matches;
                   PatternResult.confidence_boost :=
                     if common then (boost + 5)%Z else boost |}
        end
    end.

(** [c.upper()] on the letters [a-z]. *)
Definition upper_char (c : ascii) : ascii :=
  if Str.between "a" "z" c then ascii_of_N (Str.code c - 32) else c.

(** [s.title()] on ASCII strings: a letter is capitalised when the
    character before it is not a letter, and lowered otherwise. *)
Fixpoint title_from (previous_is_cased : bool) (s : string) : string :=
  match s with
  | EmptyString => EmptyString
  | String c s' =>
      String (if Re.is_alpha c
              then if previous_is_cased then lower_char c else upper_char c
              else c)
             (title_from (Re.is_alpha c) s')
  end.

Definition title (s : string) : string := title_from false s.

(** The characters of code below 128, and the strings made of them. *)
Definition is_ascii (c : ascii) : bool := (Str.code c <? 128)%N.

Definition ascii_string (s : string) : Prop := all_in is_ascii s = true.

(** The optional list [known_emails] holds such strings only. *)
Definition ascii_strings (l : option (list string)) : Prop :=
  match l with
  | Some l => Forall ascii_string l
  | None => True
  end.

Module NameGuess.

Record t : Type := {
  probable_first_name : option string;
  probable_last_name : option string;
  full_name_guess : option string
}.

Definition initial : t :=
  {| probable_first_name := None; probable_last_name := None; full_name_guess := None |}.

(** The three assignments made for the pieces [parts[0]] and [parts[1]]. *)
Definition of_parts (first last : string) : t :=
  {| probable_first_name := Some (title first);
     probable_last_name := Some (title last);
     full_name_guess := Some (title first ++ " " ++ title last) |}.

End NameGuess.

Definition IndexError_ : exn :=
  {| cls := IndexError; str := "list index out of range" |}.

(** [extract_name_from_email(email)] *)
Definition extract_name_from_email (email : string) : exn + NameGuess.t :=
  if String.eqb email "" || negb (Str.mem "@" email) then inr NameGuess.initial
  else
    match nth_error (split "@" (lower email)) 0 with
    | None => inl IndexError_
    | Some local_part =>
        if Str.mem "." local_part then
          match split "." local_part with
          | [first; last] => inr (NameGuess.of_parts first last)
          | _ => inr NameGuess.initial
          end
        else if Str.mem "_" local_part then
          match split "_" local_part with
          | [first; last] => inr (NameGuess.of_parts first last)
          | _ => inr NameGuess.initial
          end
        else inr NameGuess.initial
    end.


(** The result a call of [check_email_pattern] returned. *)
Definition checked (x : exn + PatternResult.t) : PatternResult.t :=
  match x with
  | inr res => res
  | inl _ => PatternResult.initial
  end.

(* ================================================================== *)
(** ** [email_validator_multi_signal.py]: the signals from the web *)

(** What [urllib.request.urlopen] does with a request: a response with
    its status and its decoded body, an [HTTPError] with its code and its
    text, or another exception. *)
Inductive http_outcome : Type :=
| Response (status : Z) (body : string)
| HTTPError (code : Z) (text : string)
| Failure (e : exn).

Module GravatarResult.

Record t : Type := {
  has_gravatar : bool;
  profile_url : option string;
  confidence_boost : Z;
  error : option string
}.

Definition initial : t :=
  {| has_gravatar := false; profile_url := None; confidence_boost := 0; error := None |}.

End GravatarResult.

Module SearchResult.

Record t : Type := {
  searched : bool;
  confidence_boost : Z;
  evidence : list string;
  linkedin_found : bool;
  company_page_found : bool;
  email_found_publicly : bool;
  notes : option pyval;
  error : option string
}.

Definition initial : t :=
  {| searched := false; confidence_boost := 0; evidence := [];
     linkedin_found := false; company_page_found := false;
     email_found_publicly := false; notes := None; error := None |}.

Definition set_error (text : string) (r : t) : t :=
  {| searched := searched r; confidence_boost := confidence_boost r;
     evidence := evidence r; linkedin_found := linkedin_found r;
     company_page_found := company_page_found r;
     email_found_publicly := email_found_publicly r;
     notes := notes r; error := Some text |}.

Definition set_searched (r : t) : t :=
  {| searched := true; confidence_boost := confidence_boost r;
     evidence := evidence r; linkedin_found := linkedin_found r;
     company_page_found := company_page_found r;
     email_found_publicly := email_found_publicly r;
     notes := notes r; error := error r |}.

(** [result["confidence_boost"] += n; result["evidence"].append(line)] *)
Definition add (n : Z) (line : string) (r : t) : t :=
  {| searched := searched r; confidence_boost := confidence_boost r + n;
     evidence := (evidence r ++ [line])%list; linkedin_found := linkedin_found r;
     company_page_found := company_page_found r;
     email_found_publicly := email_found_publicly r;
     notes := notes r; error := error r |}.

Definition set_linkedin_found (r : t) : t :=
  {| searched := searched r; confidence_boost := confidence_boost r;
     evidence := evidence r; linkedin_found := true;
     company_page_found := company_page_found r;
     email_found_publicly := email_found_publicly r;
     notes := notes r; error := error r |}.

Definition set_company_page_found (r : t) : t :=
  {| searched := searched r; confidence_boost := confidence_boost r;
     evidence := evidence r; linkedin_found := linkedin_found r;
     company_page_found := true;
     email_found_publicly := email_found_publicly r;
     notes := notes r; error := error r |}.

Definition set_email_found_publicly (r : t) : t :=
  {| searched := searched r; confidence_boost := confidence_boost r;
     evidence := evidence r; linkedin_found := linkedin_found r;
     company_page_found := company_page_found r;
     email_found_publicly := true;
     notes := notes r; error := error r |}.

Definition set_notes (v : pyval) (r : t) : t :=
  {| searched := searched r; confidence_boost := confidence_boost r;
     evidence := evidence r; linkedin_found := linkedin_found r;
     company_page_found := company_page_found r;
     email_found_publicly := email_found_publicly r;
     notes := Some v; error := error r |}.

End SearchResult.

(** The exceptions the interpreter raises on the values of a reply. *)
Inductive py_error : Type :=
| NotIterable (v : pyval)
| NotSubscriptable (v : pyval)
| BadIndex (v : pyval)
| NoLen (v : pyval)
| KeyMissing (key : string)
| KeyZeroMissing
| IndexOutOfRange
| NoAttribute (v : pyval) (name : string).

(** [needle in s] for strings *)
Fixpoint contains (needle s : string) : bool :=
  String.prefix needle s
  || match s with
     | EmptyString => false
     | String _ s' => contains needle s'
     end.

(** [s.find(c)] for a character, [None] for -1 *)
Fixpoint find_char (c : ascii) (s : string) : option nat :=
  match s with
  | EmptyString => None
  | String a s' => if Ascii.eqb a c then Some O else option_map S (find_char c s')
  end.

(** [s.rfind(c)] for a character, [None] for -1 *)
Fixpoint rfind_char (c : ascii) (s : string) : option nat :=
  match s with
  | EmptyString => None
  | String a s' =>
      match rfind_char c s' with
      | Some i => Some (S i)
      | None => if Ascii.eqb a c then Some O else None
      end
  end.

(** ['key' in v] *)
Definition py_in (key : string) (v : pyval) : py_error + bool :=
  match v with
  | PDict d => inr (match lookup key d with Some _ => true | None => false end)
  | PList l =>
      inr (existsb (fun x => match x with PStr s => String.eqb s key | _ => false end) l)
  | PStr s => inr (contains key s)
  | _ => inl (NotIterable v)
  end.

(** [v['key']] *)
Definition py_item (v : pyval) (key : string) : py_error + pyval :=
  match v with
  | PDict d =>
      match lookup key d with
      | Some x => inr x
      | None => inl (KeyMissing key)
      end
  | PList _ | PStr _ => inl (BadIndex v)
  | _ => inl (NotSubscriptable v)
  end.

(** [len(v)] *)
Definition py_len (v : pyval) : py_error + nat :=
  match v with
  | PStr s => inr (String.length s)
  | PList l => inr (List.length l)
  | PDict d => inr (List.length d)
  | _ => inl (NoLen v)
  end.

(** [v[0]]; the keys of a dictionary read from JSON are strings. *)
Definition py_first (v : pyval) : py_error + pyval :=
  match v with
  | PList (x :: _) => inr x
  | PList [] => inl IndexOutOfRange
  | PStr (String c _) => inr (PStr (String c ""))
  | PStr EmptyString => inl IndexOutOfRange
  | PDict _ => inl KeyZeroMissing
  | _ => inl (NotSubscriptable v)
  end.

(** [x or default] and [bool(x)] for an optional string argument *)
Definition given (x : option string) : bool :=
  match x with
  | Some s => negb (String.eqb s "")
  | None => false
  end.

(** [str(x)] for an optional string argument *)
Definition str_of (x : option string) : string :=
  match x with
  | Some s => s
  | None => "None"
  end.

Section Web.

(** [hashlib.md5(s.encode()).hexdigest()], or what it raises. *)
Variable md5_hexdigest : string -> exn + string.

(** [urlopen] on the HEAD request for a URL. *)
Variable urlopen_head : string -> http_outcome.

(** [urlopen] on the POST request [search_web_for_validation] builds from
    its arguments (the key, the address, the name, the company, the job
    title), then [response.read().decode('utf-8')]: the text of the reply
    or the exception raised on the way. *)
Variable perplexity :
  string -> string -> option string -> option string -> option string -> exn + string.

(** [json.loads] *)
Variable json_loads : string -> exn + pyval.

(** [str(e)] for an exception of the interpreter, and [str(v)] for a value. *)
Variable error_text : py_error -> string.
Variable py_str : pyval -> string.

(** [check_gravatar(email)] *)
Definition check_gravatar (email : string) : GravatarResult.t :=
  match md5_hexdigest (strip (lower email)) with
  | inl e =>
      {| GravatarResult.has_gravatar := false; GravatarResult.profile_url := None;
         GravatarResult.confidence_boost := 0; GravatarResult.error := Some (str e) |}
  | inr email_hash =>
      let gravatar_url := "https://www.gravatar.com/avatar/" ++ email_hash ++ "?d=404" in
      match urlopen_head gravatar_url with
      | Response status _ =>
          if Z.eqb status 200
          then {| GravatarResult.has_gravatar := true;
                  GravatarResult.profile_url :=
                    Some ("https://www.gravatar.com/" ++ email_hash);
                  GravatarResult.confidence_boost := 15;
                  GravatarResult.error := None |}
          else GravatarResult.initial
      | HTTPError _ _ => GravatarResult.initial
      | Failure e =>
          {| GravatarResult.has_gravatar := false; GravatarResult.profile_url := None;
             GravatarResult.confidence_boost := 0; GravatarResult.error := Some (str e) |}
      end
  end.

(** The findings of a reply that is a dictionary: the five [if]s on
    [web_data]. *)
Definition findings (person_name company_name : option string)
    (web_data : list (string * pyval)) (result : SearchResult.t) : SearchResult.t :=
  let found key := truthy (dict_get web_data key PNone) in
  let r1 :=
    if found "person_exists_at_company"
    then SearchResult.add 20
           ("Web search confirms " ++ str_of person_name ++ " works at "
            ++ str_of company_name) result
    else result in
  let r2 :=
    if found "linkedin_profile_found"
    then SearchResult.add 15
           ("LinkedIn profile found: "
            ++ py_str (dict_get web_data "linkedin_url" (PStr "LinkedIn")))
           (SearchResult.set_linkedin_found r1)
    else r1 in
  let r3 :=
    if found "email_found_publicly"
    then SearchResult.add 25
           ("Email found publicly at: "
            ++ py_str (dict_get web_data "email_source_url" (PStr "web")))
           (SearchResult.set_email_found_publicly r2)
    else r2 in
  let r4 :=
    if found "company_page_mention"
    then SearchResult.add 15
           ("Person found on company website: "
            ++ py_str (dict_get web_data "company_page_url" (PStr "company website")))
           (SearchResult.set_company_page_found r3)
    else r3 in
  if found "notes"
  then SearchResult.set_notes (dict_get web_data "notes" PNone) r4
  else r4.

(** What the [try] block does with the text of the reply; an exception
    leaves the result as it is at that point, with its text under
    "error". *)
Definition read_reply (person_name company_name : option string) (text : string)
  : SearchResult.t :=
  let result := SearchResult.initial in
  let fails (err : py_error) := SearchResult.set_error (error_text err) result in
  match json_loads text with
  | inl e => SearchResult.set_error (str e) result
  | inr resp_data =>
      match py_in "choices" resp_data with
      | inl err => fails err
      | inr false => result
      | inr true =>
          match py_item resp_data "choices" with
          | inl err => fails err
          | inr choices =>
              match py_len choices with
              | inl err => fails err
              | inr n =>
                  if Nat.ltb 0 n then
                    match py_first choices with
                    | inl err => fails err
                    | inr choice =>
                        match py_item choice "message" with
                        | inl err => fails err
                        | inr message =>
                            match py_item message "content" with
                            | inl err => fails err
                            | inr (PStr content) =>
                                match find_char "{" content, rfind_char "}" content with
                                | Some start, Some stop =>
                                    if Nat.ltb start stop then
                                      match json_loads
                                              (substring start (stop + 1 - start) content) with
                                      | inl e => SearchResult.set_error (str e) result
                                      | inr (PDict web_data) =>
                                          findings person_name company_name web_data
                                            (SearchResult.set_searched result)
                                      | inr web_data =>
                                          SearchResult.set_error
                                            (error_text (NoAttribute web_data "get"))
                                            (SearchResult.set_searched result)
                                      end
                                    else result
                                | _, _ => result
                                end
                            | inr content => fails (NoAttribute content "find")
                            end
                        end
                    end
                  else result
              end
          end
      end
  end.

(** [search_web_for_validation(email, person_name, company_name, job_title, api_key)] *)
Definition search_web_for_validation (email : string)
    (person_name company_name job_title api_key : option string) : SearchResult.t :=
  match api_key with
  | Some key =>
      if String.eqb key "" then SearchResult.initial
      else if negb (given person_name || given company_name || given job_title)
      then SearchResult.initial
      else
        match perplexity key email person_name company_name job_title with
        | inl e => SearchResult.set_error (str e) SearchResult.initial
        | inr text => read_reply person_name company_name text
        end
  | None => SearchResult.initial
  end.

End Web.

(** What every result of the web search satisfies. *)
Definition sound_search (r : SearchResult.t) : Prop :=
  (exists confirmed : bool,
      SearchResult.confidence_boost r
      = ((if confirmed then 20 else 0)
         + (if SearchResult.linkedin_found r then 15 else 0)
         + (if SearchResult.email_found_publicly r then 25 else 0)
         + (if SearchResult.company_page_found r then 15 else 0))%Z
      /\ List.length (SearchResult.evidence r)
         = ((if confirmed then 1 else 0)
            + (if SearchResult.linkedin_found r then 1 else 0)
            + (if SearchResult.email_found_publicly r then 1 else 0)
            + (if SearchResult.company_page_found r then 1 else 0))%nat)
  /\ (SearchResult.searched r = false ->
      SearchResult.confidence_boost r = 0%Z /\ SearchResult.evidence r = []
      /\ SearchResult.notes r = None)
  /\ (SearchResult.error r <> None ->
      SearchResult.confidence_boost r = 0%Z /\ SearchResult.evidence r = []
      /\ SearchResult.notes r = None).

(* ================================================================== *)
(** ** [validate_email_multi_signal]: the signals put together *)

Inductive level_t : Type := low | medium | high.

Module ValidationResult.

(** The dictionary under "signals" has the keys "gravatar", "pattern",
    "name_extraction" and "web_search"; a key that is absent is [None]. *)
Record t : Type := {
  email : string;
  is_valid_syntax : bool;
  confidence_score : Z;
  confidence_level : level_t;
  gravatar : option GravatarResult.t;
  pattern : option PatternResult.t;
  name_extraction : option NameGuess.t;
  web_search : option SearchResult.t;
  evidence : list string;
  recommendation : string
}.

Definition rejected (email recommendation : string) : t :=
  {| email := email; is_valid_syntax := false; confidence_score := 0;
     confidence_level := low;
     gravatar := None; pattern := None; name_extraction := None; web_search := None;
     evidence := []; recommendation := recommendation |}.

End ValidationResult.

(** The last [if]/[elif]/[else]: the level and the recommendation of a score. *)
Definition level_of (score : Z) : level_t * string :=
  if (70 <=? score)%Z then (high, "Email likely valid - multiple signals confirm")
  else if (40 <=? score)%Z then (medium, "Email possibly valid - some confirming signals")
  else (low, "Email uncertain - limited validation signals").

(** Signal 3: what the provided name adds to the score and to the evidence. *)
Definition name_signal (person_name : option string) (name_extraction : NameGuess.t)
  : Z * list string :=
  match person_name with
  | Some provided =>
      if given person_name && given (NameGuess.full_name_guess name_extraction) then
        let provided_lower := lower provided in
        let extracted_lower := lower (str_of (NameGuess.full_name_guess name_extraction)) in
        if String.eqb provided_lower extracted_lower
        then (25%Z, ["Email name matches provided name: " ++ provided])
        else if given (NameGuess.probable_first_name name_extraction)
                && contains (lower (str_of (NameGuess.probable_first_name name_extraction)))
                     provided_lower
        then (15%Z, ["Email first name matches: "
                     ++ str_of (NameGuess.probable_first_name name_extraction)])
        else (0%Z, [])
      else (0%Z, [])
  | None => (0%Z, [])
  end.

Section Validation.

Variable md5_hexdigest : string -> exn + string.
Variable urlopen_head : string -> http_outcome.
Variable perplexity :
  string -> string -> option string -> option string -> option string -> exn + string.
Variable json_loads : string -> exn + pyval.
Variable error_text : py_error -> string.
Variable py_str : pyval -> string.

(** [validate_email_multi_signal(email, person_name, company_name, job_title,
    known_company_emails, perplexity_api_key)] *)
Definition validate_email_multi_signal (email : string)
    (person_name company_name job_title : option string)
    (known_company_emails : option (list string))
    (perplexity_api_key : option string) : exn + ValidationResult.t :=
  if String.eqb email "" || negb (Str.mem "@" email)
  then inr (ValidationResult.rejected email "Invalid email format")
  else
    let address := strip (lower email) in
    match unpack2 (split "@" address) with
    | inl e => inl e
    | inr (local_part, domain) =>
        if negb (Re.re_match Re.email_regex address)
        then inr (ValidationResult.rejected email "Invalid email syntax")
        else
          let score0 := 10%Z in
          let evidence0 := ["Valid email syntax"] in
          (* Signal 1 *)
          let gravatar_result := check_gravatar md5_hexdigest urlopen_head address in
          let score1 :=
            if GravatarResult.has_gravatar gravatar_result
            then (score0 + GravatarResult.confidence_boost gravatar_result)%Z
            else score0 in
          let gravatar_line :=
            "Has Gravatar profile: "
            ++ str_of (GravatarResult.profile_url gravatar_result) in
          let evidence1 :=
            if GravatarResult.has_gravatar gravatar_result
            then (evidence0 ++ [gravatar_line])%list
            else evidence0 in
          (* Signal 2 *)
          match check_email_pattern address known_company_emails with
          | inl e => inl e
          | inr pattern_result =>
              let detected := given (PatternResult.pattern_detected pattern_result) in
              let score2 :=
                if detected
                then (score1 + PatternResult.confidence_boost pattern_result)%Z
                else score1 in
              let pattern_line :=
                "Email follows '"
                ++ str_of (PatternResult.pattern_detected pattern_result)
                ++ "' pattern" in
              let evidence2 :=
                if detected
                then (evidence1 ++ [pattern_line]
                      ++ (if PatternResult.matches_known_pattern pattern_result
                          then ["Pattern matches other known emails from this company"]
                          else []))%list
                else evidence1 in
              (* Signal 3 *)
              match extract_name_from_email address with
              | inl e => inl e
              | inr name_result =>
                  let (name_boost, name_evidence) := name_signal person_name name_result in
                  let score3 := (score2 + name_boost)%Z in
                  let evidence3 := (evidence2 ++ name_evidence)%list in
                  (* Signal 4 *)
                  let asked :=
                    given perplexity_api_key && (given person_name || given company_name) in
                  let web_evidence :=
                    search_web_for_validation perplexity json_loads error_text py_str
                      address person_name company_name job_title perplexity_api_key in
                  let score4 :=
                    if asked
                    then (score3 + SearchResult.confidence_boost web_evidence)%Z
                    else score3 in
                  let evidence4 :=
                    if asked
                    then (evidence3 ++ SearchResult.evidence web_evidence)%list
                    else evidence3 in
                  inr {| ValidationResult.email := email;
                         ValidationResult.is_valid_syntax := true;
                         ValidationResult.confidence_score := score4;
                         ValidationResult.confidence_level := fst (level_of score4);
                         ValidationResult.gravatar := Some gravatar_result;
                         ValidationResult.pattern := Some pattern_result;
                         ValidationResult.name_extraction := Some name_result;
                         ValidationResult.web_search :=
                           if asked then Some web_evidence else None;
                         ValidationResult.evidence := evidence4;
                         ValidationResult.recommendation := snd (level_of score4) |}
              end
          end
    end.

End Validation.

(** An optional name is an ASCII string. *)
Definition ascii_name (x : option string) : Prop :=
  match x with
  | Some s => ascii_string s
  | None => True
  end.

(** The result a call of [validate_email_multi_signal] returned. *)
Definition validated (x : exn + ValidationResult.t) : ValidationResult.t :=
  match x with
  | inr res => res
  | inl _ => ValidationResult.rejected "" ""
  end.

(** A web for tests: every address has an avatar, the search times out. *)
Definition md5_fixed (s : string) : exn + string := inr "0bc83cb571cd1c50ba6f3e8a78ef1346".

Definition head_found (url : string) : http_outcome := Response 200 "".

Definition search_times_out (key email : string) (person company title : option string)
  : exn + string :=
  inl {| cls := socket_timeout; str := "The read operation timed out" |}.

Definition loads_nothing (text : string) : exn + pyval :=
  inl {| cls := Exception; str := "Expecting value: line 1 column 1 (char 0)" |}.

(** A web search that confirms everything: the reply of the service and
    the JSON object inside its text. *)
Definition search_answers (key email : string) (person company title : option string)
  : exn + string :=
  inr "reply".

Definition loads_confirmed (text : string) : exn + pyval :=
  if String.eqb text "reply"
  then inr (PDict [("choices",
                    PList [PDict [("message",
                                   PDict [("content", PStr "Here it is: {findings}")])]])])
  else inr (PDict [("person_exists_at_company", PBool true);
                   ("linkedin_profile_found", PBool true);
                   ("email_found_publicly", PBool true);
                   ("company_page_mention", PBool true)]).

(* ================================================================== *)
(** * Properties *)

(** ** The syntax gate *)

Section RegexFacts.
Variable a : ascii.

Lemma needs_not_nullable r : Re.needs a r = true -> Re.nullable r = false.
Proof.
  induction r; simpl; intros H; try reflexivity; try discriminate.
  - apply orb_true_iff in H. apply andb_false_iff.
    destruct H; [left | right]; auto.
  - apply andb_true_iff in H. destruct H as [H1 H2].
    rewrite IHr1, IHr2 by assumption. reflexivity.
Qed.

Lemma needs_deriv c r :
  Re.needs a r = true -> Ascii.eqb c a = false -> Re.needs a (Re.deriv c r) = true.
Proof.
  intros H Hc. induction r; simpl in *; try reflexivity; try discriminate.
  - apply Ascii.eqb_eq in H. subst c0. rewrite Hc. reflexivity.
  - apply orb_true_iff in H. destruct H as [H | H].
    + rewrite (needs_not_nullable _ H), IHr1 by assumption. reflexivity.
    + rewrite H. destruct (Re.nullable r1).
      * rewrite IHr2 by assumption. now rewrite orb_true_r.
      * now rewrite orb_true_r.
  - apply andb_true_iff in H. destruct H as [H1 H2].
    rewrite IHr1, IHr2 by assumption. reflexivity.
Qed.

Lemma fullmatch_needs s : forall r,
  Re.needs a r = true -> Re.fullmatch r s = true -> Str.mem a s = true.
Proof.
  induction s as [|c s IH]; simpl; intros r Hn Hm.
  - rewrite (needs_not_nullable _ Hn) in Hm. discriminate.
  - destruct (Ascii.eqb c a) eqn:E; [reflexivity|].
    simpl. apply (IH (Re.deriv c r)); [apply needs_deriv|]; assumption.
Qed.

Lemma chop_newline_mem s : forall s',
  Re.chop_newline s = Some s' -> Str.mem a s' = true -> Str.mem a s = true.
Proof.
  induction s as [|c s IH]; simpl; intros s' H Hm; [discriminate|].
  destruct s as [|d s].
  - destruct (Ascii.eqb c Re.newline); inversion H; subst. discriminate.
  - destruct (Re.chop_newline (String d s)) as [t|] eqn:E; simpl in H; inversion H; subst.
    simpl in Hm. apply orb_true_iff in Hm. apply orb_true_iff.
    destruct Hm as [Hm | Hm]; [left; assumption | right].
    apply (IH t); [reflexivity | assumption].
Qed.

End RegexFacts.

Lemma re_match_at email :
  Re.re_match Re.email_regex email = true -> Str.mem "@" email = true.
Proof.
  unfold Re.re_match. intros H. apply orb_true_iff in H.
  destruct H as [H | H].
  - apply (fullmatch_needs "@" email Re.email_regex); [reflexivity | assumption].
  - destruct (Re.chop_newline email) as [s'|] eqn:E; [|discriminate].
    apply (chop_newline_mem "@" email s' E).
    apply (fullmatch_needs "@" s' Re.email_regex); [reflexivity | assumption].
Qed.

Lemma split_nonempty sep s : Str.split sep s <> [].
Proof.
  destruct s as [|c s]; simpl; [discriminate|].
  destruct (Ascii.eqb c sep); [discriminate|].
  destruct (Str.split sep s); discriminate.
Qed.

Lemma split_second sep s :
  Str.mem sep s = true -> exists d, nth_error (Str.split sep s) 1 = Some d.
Proof.
  induction s as [|c s IH]; simpl; [discriminate|].
  intros H. destruct (Ascii.eqb c sep) eqn:E.
  - destruct (Str.split sep s) as [|x l] eqn:Es.
    + exfalso. exact (split_nonempty sep s Es).
    + exists x. reflexivity.
  - simpl in H. destruct (IH H) as [d Hd].
    destruct (Str.split sep s) as [|x l]; [discriminate|].
    exists d. exact Hd.
Qed.

(** After the syntax gate [email.split('@')[1]] exists. *)
Lemma domain_exists email :
  Re.re_match Re.email_regex email = true ->
  exists domain, nth_error (Str.split "@" email) 1 = Some domain.
Proof. intros H. apply split_second, re_match_at, H. Qed.

(** ** [sorted] *)

Lemma mx_leb_total x y : mx_leb x y = false -> mx_leb y x = true.
Proof.
  unfold mx_leb. rewrite (Z.compare_antisym (fst x) (fst y)).
  destruct (fst x ?= fst y)%Z; simpl; intros H; try reflexivity; try discriminate.
  destruct (String.leb_total (snd x) (snd y)) as [T | T]; congruence.
Qed.

Lemma insert_mx_perm x l : Permutation (x :: l) (insert_mx x l).
Proof.
  induction l as [|y l IH]; simpl; [apply Permutation_refl|].
  destruct (mx_leb x y); [apply Permutation_refl|].
  eapply perm_trans; [apply perm_swap|]. apply perm_skip, IH.
Qed.

Lemma sorted_perm l : Permutation l (sorted l).
Proof.
  induction l as [|x l IH]; simpl; [constructor|].
  eapply perm_trans; [apply perm_skip, IH | apply insert_mx_perm].
Qed.

Lemma insert_mx_hd x y l : mx_le y x -> HdRel mx_le y l -> HdRel mx_le y (insert_mx x l).
Proof.
  intros Hyx H. destruct l as [|z l]; simpl.
  - constructor. assumption.
  - destruct (mx_leb x z); constructor; [assumption|].
    inversion H; assumption.
Qed.

Lemma insert_mx_sorted x l : Sorted mx_le l -> Sorted mx_le (insert_mx x l).
Proof.
  induction l as [|y l IH]; simpl; intros H.
  - repeat constructor.
  - destruct (mx_leb x y) eqn:E.
    + constructor; [assumption | constructor; exact E].
    + inversion H; subst. constructor; [apply IH; assumption|].
      apply insert_mx_hd; [apply mx_leb_total, E | assumption].
Qed.

Lemma sorted_sorted l : Sorted mx_le (sorted l).
Proof.
  induction l as [|x l IH]; simpl; [constructor | apply insert_mx_sorted, IH].
Qed.

(** ** The conversation with one host *)


Lemma smtp_handlers_run mx_host e s :
  smtp_handlers mx_host e s
  = (inr tt, (fst s, SmtpResult.set_message (except_message mx_host e) (snd s))).
Proof. unfold smtp_handlers, except_message. destruct (cls e); reflexivity. Qed.

Lemma except_message_nonempty mx_host e : except_message mx_host e <> "".
Proof. unfold except_message. destruct (cls e); simpl; discriminate. Qed.

Lemma smtp_check_probe {L} mx_host email domain w (l : L) :
  smtp_check mx_host email domain (w, l)
  = (fst (probe mx_host email domain w), (snd (probe mx_host email domain w), l)).
Proof.
  unfold probe, smtp_check, call. simpl.
  destruct (bind _ _ _) as [r [w' l']]. reflexivity.
Qed.

Lemma probe_returns mx_host email domain w :
  exists r w', probe mx_host email domain w = (inr r, w').
Proof.
  unfold probe, smtp_check, call, bind, try_except, get. simpl.
  destruct (smtp_dialogue _ _ _ _) as [[e | []] [w' l']].
  - rewrite smtp_handlers_run. simpl. eauto.
  - simpl. eauto.
Qed.

Ltac run1 :=
  match goal with
  | |- context [match ?sc with [] => _ | _ :: _ => _ end] =>
      is_var sc; destruct sc as [|[?e|?x] sc]
  | |- context [negb (startswith ?x ?p)] =>
      is_var x; let E := fresh "E" in destruct (startswith x p) eqn:E
  | |- context [negb (startswith ?x ?p || _)] =>
      is_var x; let E := fresh "E" in destruct (startswith x p) eqn:E
  | |- context [smtp_handlers ?h ?e ?s] => rewrite (smtp_handlers_run h e s)
  end.

Ltac run_probe := 
  unfold probe, smtp_check, call, try_except, smtp_dialogue, bind, ret, get, modify,
    sock_connect, sock_send, sock_recv, sock_close, random_choices, next_outcome, advance, record, drawn; 
  cbn [fst snd script log tl negb orb resolve_mx random_lower draws];
  repeat (run1; cbn [fst snd script log tl negb orb resolve_mx random_lower draws]).


Ltac split_log :=
  match goal with
  | |- exists t, ?l = (t ++ ?lg)%list /\ _ =>
      let rec pre l :=
        lazymatch l with
        | lg => constr:(@nil event)
        | ?a :: ?l' => let p := pre l' in constr:(a :: p)
        end in
      let p := pre l in exists p; split; [reflexivity|]
  end.

Ltac probe_cases w :=
  let lg := fresh "lg" in
  destruct w as [?dns ?rnd ?d ?sc lg]; run_probe; split_log;
  cbn [rev app fst snd script log resolve_mx random_lower draws].

Lemma analyze_message response c r : SmtpResult.message (analyze response c r) <> "".
Proof.
  unfold analyze.
  repeat match goal with |- context [startswith ?x ?p] => destruct (startswith x p) end;
    simpl; discriminate.
Qed.

Lemma analyze_flags response c r :
  SmtpResult.definitive_failure r = false ->
  SmtpResult.definitive_failure (analyze response c r) = true ->
  SmtpResult.success (analyze response c r) = false.
Proof.
  intros H0. unfold analyze.
  repeat match goal with |- context [startswith ?x ?p] => destruct (startswith x p) end;
    simpl; congruence.
Qed.


Lemma run_of_inv mx_host email domain w P r w' :
  run_of mx_host email domain w P ->
  probe mx_host email domain w = (inr r, w') ->
  exists t, history w' = (history w ++ t)%list /\ P t r.
Proof.
  unfold run_of. intros H E. rewrite E in H. destruct H as [t [Hl HP]].
  exists (rev t). split; [|assumption]. unfold history. rewrite Hl. apply rev_app_distr.
Qed.

Lemma probe_first_event host email domain w :
  run_of host email domain w
    (fun t r => exists ok t', t = Connect host ok :: t' /\ contacted t' = []).
Proof.
  unfold run_of. probe_cases w; eexists; eexists; split; reflexivity.
Qed.

Lemma probe_message host email domain w :
  run_of host email domain w (fun t r => SmtpResult.message r <> "").
Proof.
  unfold run_of. probe_cases w;
    first [ apply analyze_message | apply except_message_nonempty | simpl; discriminate ].
Qed.

Lemma probe_flags host email domain w :
  run_of host email domain w
    (fun t r => SmtpResult.definitive_failure r = true -> SmtpResult.success r = false).
Proof.
  unfold run_of. probe_cases w;
    first [ apply analyze_flags; reflexivity | simpl; discriminate ].
Qed.

Lemma probe_raised host email domain w :
  run_of host email domain w
    (fun t r => existsb raised t = true -> inconclusive r).
Proof.
  unfold run_of. probe_cases w;
    first [ intros _; split; reflexivity | simpl; discriminate ].
Qed.

Lemma probe_closes host email domain w :
  run_of host email domain w
    (fun t r => existsb raised t = false -> socket_open false t = false).
Proof.
  unfold run_of. probe_cases w;
    first [ intros _; reflexivity | simpl; discriminate ].
Qed.



(** ** The walk over the hosts *)

Lemma contacted_app a b : contacted (a ++ b)%list = (contacted a ++ contacted b)%list.
Proof.
  induction a as [|ev a IH]; [reflexivity|].
  destruct ev; simpl; rewrite IH; reflexivity.
Qed.

Lemma probe_contacted h email domain w r w' :
  probe h email domain w = (inr r, w') ->
  contacted (history w') = (contacted (history w) ++ [h])%list.
Proof.
  intros E.
  destruct (run_of_inv _ _ _ _ _ _ _ (probe_first_event h email domain w) E)
    as [t [Ht [ok [t' [-> Hc]]]]].
  rewrite Ht, contacted_app. simpl. now rewrite Hc.
Qed.

Lemma probe_definitive h email domain w r w' :
  probe h email domain w = (inr r, w') ->
  SmtpResult.definitive_failure r = true -> SmtpResult.success r = false.
Proof.
  intros E.
  destruct (run_of_inv _ _ _ _ _ _ _ (probe_flags h email domain w) E) as [t [_ H]].
  exact H.
Qed.

Lemma probe_message_nonempty h email domain w r w' :
  probe h email domain w = (inr r, w') -> SmtpResult.message r <> "".
Proof.
  intros E.
  destruct (run_of_inv _ _ _ _ _ _ _ (probe_message h email domain w) E) as [t [_ H]].
  exact H.
Qed.

(** One turn of the loop, from the outcome of the probe. *)
Lemma try_host_run email domain h w l r w1 :
  probe h email domain w = (inr r, w1) ->
  try_host email domain h (w, l)
  = if SmtpResult.success r then (inr (Break r), (w1, l))
    else if SmtpResult.definitive_failure r then (inr Return, (w1, rejected r l))
    else (inr (Continue (RespResult r)), (w1, l)).
Proof.
  intros E. unfold try_host, try_except, bind.
  rewrite smtp_check_probe, E. simpl.
  destruct (SmtpResult.success r); [reflexivity|].
  destruct (SmtpResult.definitive_failure r); reflexivity.
Qed.

(** An inconclusive outcome advances the loop to the next host. *)
Lemma for_mx_hosts_next email domain p h rest resp w l r w1 :
  probe h email domain w = (inr r, w1) ->
  inconclusive r ->
  for_mx_hosts email domain ((p, h) :: rest) resp (w, l)
  = for_mx_hosts email domain rest (RespResult r) (w1, l).
Proof.
  intros E [Hs Hd]. simpl. unfold bind at 1.
  rewrite (try_host_run _ _ _ _ _ _ _ E), Hs, Hd. reflexivity.
Qed.

Lemma for_mx_hosts_walk email domain pre w resp w1 resp1 :
  inconclusive_walk email domain pre w resp w1 resp1 ->
  forall rest l,
    for_mx_hosts email domain (pre ++ rest) resp (w, l)
    = for_mx_hosts email domain rest resp1 (w1, l).
Proof.
  induction 1 as [|p h tl0 w resp r w1 w2 resp2 E Hi _ IH]; intros rest l.
  - reflexivity.
  - rewrite <- app_comm_cons, (for_mx_hosts_next _ _ _ _ _ _ _ _ _ _ E Hi). apply IH.
Qed.

Lemma walk_contacted email domain pre w resp w1 resp1 :
  inconclusive_walk email domain pre w resp w1 resp1 ->
  contacted (history w1) = (contacted (history w) ++ map snd pre)%list.
Proof.
  induction 1 as [|p h tl0 w resp r w1 w2 resp2 E Hi _ IH].
  - simpl. now rewrite app_nil_r.
  - rewrite IH, (probe_contacted _ _ _ _ _ _ E), <- app_assoc. reflexivity.
Qed.

(** The loop never raises, and whatever way it ends the hosts it
    contacted are an initial segment of its list. *)
Lemma for_mx_hosts_total email domain hosts : forall resp w l,
  exists x w' l' tried rest,
    for_mx_hosts email domain hosts resp (w, l) = (inr x, (w', l'))
    /\ hosts = (tried ++ rest)%list
    /\ contacted (history w') = (contacted (history w) ++ map snd tried)%list
    /\ (x = Returned -> VerifyResult.message l' <> "").
Proof.
  induction hosts as [|[p h] hosts IH]; intros resp w l.
  - exists (Finished false resp false), w, l, [], []. simpl.
    rewrite app_nil_r. repeat split; try discriminate.
  - destruct (probe_returns h email domain w) as [r [w1 E]].
    simpl. unfold bind at 1. rewrite (try_host_run _ _ _ _ _ _ _ E).
    pose proof (probe_contacted _ _ _ _ _ _ E) as Hc.
    destruct (SmtpResult.success r) eqn:Hs;
      [| destruct (SmtpResult.definitive_failure r) eqn:Hd ].
    + exists (Finished true (RespResult r) (SmtpResult.catch_all r)), w1, l, [(p, h)], hosts.
      repeat split; try assumption; try discriminate.
    + exists Returned, w1, (rejected r l), [(p, h)], hosts.
      repeat split; try assumption.
      intros _. simpl. apply (probe_message_nonempty _ _ _ _ _ _ E).
    + destruct (IH (RespResult r) w1 l) as [x [w' [l' [tried [rest [E' [-> [Hc' Hm]]]]]]]].
      exists x, w', l', ((p, h) :: tried), rest.
      repeat split; try assumption.
      rewrite Hc', Hc, <- app_assoc. reflexivity.
Qed.

(** ** The orchestrator, up to the walk *)

Lemma history_looked_up domain w :
  contacted (history (looked_up domain w)) = contacted (history w).
Proof.
  unfold history, looked_up, record. simpl. rewrite contacted_app. simpl.
  now rewrite app_nil_r.
Qed.

Lemma verify_email_hosts email domain answer w :
  Re.re_match Re.email_regex email = true ->
  nth_error (split "@" email) 1 = Some domain ->
  resolve_mx w domain = inr answer ->
  verify_email email w
  = match verify_hosts email domain (sorted (map mx_tuple answer))
            (looked_up domain w, after_lookup email (sorted (map mx_tuple answer))) with
    | (x, s) => (x, fst s)
    end.
Proof.
  intros Hm Hd Hr. unfold verify_email, verify_email_body. rewrite Hm.
  cbn [negb]. unfold bind, modify, index. rewrite Hd.
  unfold lookup_mx, try_except, bind, dns_resolve, ret, modify. cbn [fst snd].
  rewrite Hr. reflexivity.
Qed.

Lemma verify_email_no_answer email domain e w :
  Re.re_match Re.email_regex email = true ->
  nth_error (split "@" email) 1 = Some domain ->
  resolve_mx w domain = inl e ->
  exists res,
    verify_email email w = (inr res, looked_up domain w)
    /\ VerifyResult.mx_found res = false
    /\ VerifyResult.message res <> ""
    /\ VerifyResult.status res
       = match cls e with
         | NoAnswer | NXDOMAIN | NoNameservers => invalid
         | _ => unknown
         end.
Proof.
  intros Hm Hd Hr. unfold verify_email, verify_email_body. rewrite Hm.
  cbn [negb]. unfold bind, modify, index. rewrite Hd.
  unfold lookup_mx, try_except, bind, dns_resolve, ret, modify, get. cbn [fst snd].
  rewrite Hr.
  destruct (cls e); cbn [fst snd]; eexists; (split; [reflexivity|]);
    repeat split; simpl; discriminate.
Qed.

(** ** The orchestrator *)

(** Claim C7.  For every input string that fails the email-shape pattern,
    [verify_email] returns a result with status [invalid], score 0 and
    [syntax_valid = false], and leaves the world as it found it: no DNS
    query and no socket operation is made (nothing is logged, nothing of
    the script is consumed). *)
Theorem syntax_gate email w :
  Re.re_match Re.email_regex email = false ->
  exists res,
    verify_email email w = (inr res, w)
    /\ VerifyResult.status res = invalid
    /\ VerifyResult.score res = 0%Z
    /\ VerifyResult.syntax_valid res = false.
Proof.
  intros H. unfold verify_email, verify_email_body. rewrite H.
  eexists. split; [reflexivity|]. repeat split.
Qed.

Lemma syntax_gate_witness :
  exists res,
    verify_email "not-an-email" scenario_B = (inr res, scenario_B)
    /\ VerifyResult.status res = invalid
    /\ VerifyResult.score res = 0%Z
    /\ VerifyResult.syntax_valid res = false.
Proof. apply (syntax_gate "not-an-email" scenario_B). vm_compute. reflexivity. Defined.

Lemma conclude_run v resp c w l :
  exists res,
    conclude v resp c (w, l) = (inr res, (w, res))
    /\ VerifyResult.message res <> ""
    /\ VerifyResult.smtp_response res = resp
    /\ VerifyResult.status res
       = (if v then if c then risky else valid else unknown)
    /\ VerifyResult.score res
       = (VerifyResult.score l + if v then if c then 30 else 50 else 0)%Z
    /\ VerifyResult.smtp_check res = (if v then true else VerifyResult.smtp_check l).
Proof.
  destruct v; [destruct c|]; eexists; (split; [reflexivity|]); simpl;
    repeat split; try discriminate; lia.
Qed.

(** Claim C9.  For every input string and every behaviour of the network
    (whatever the resolver answers or raises, whatever each socket call
    returns or raises), [verify_email] returns a result and does not
    raise; the result carries a non-empty message. *)
Theorem verify_email_returns email w :
  exists res w',
    verify_email email w = (inr res, w') /\ VerifyResult.message res <> "".
Proof.
  destruct (Re.re_match Re.email_regex email) eqn:Hm.
  - destruct (domain_exists email Hm) as [domain Hd].
    destruct (resolve_mx w domain) as [e | answer] eqn:Hr.
    + destruct (verify_email_no_answer email domain e w Hm Hd Hr) as [res [E [_ [M _]]]].
      eauto.
    + rewrite (verify_email_hosts email domain answer w Hm Hd Hr).
      unfold verify_hosts.
      destruct (sorted (map mx_tuple answer)) as [|h hosts].
      * eexists; eexists. split; [reflexivity|]. simpl. discriminate.
      * destruct (for_mx_hosts_total email domain (h :: hosts) RespNone
                    (looked_up domain w) (after_lookup email (h :: hosts)))
          as [x [w' [l' [tried [rest [E [_ [_ M]]]]]]]].
        unfold bind at 1. rewrite E. destruct x as [|v resp c].
        -- exists l', w'. split; [reflexivity | apply M; reflexivity].
        -- destruct (conclude_run v resp c w' l') as [res [Ec [Mc _]]].
           rewrite Ec. eauto.
  - destruct (syntax_gate email w Hm) as [res [E [S _]]].
    exists res, w. split; [assumption|].
    unfold verify_email, verify_email_body in E. rewrite Hm in E.
    inversion E. simpl. discriminate.
Qed.

Lemma walk_then_host email domain answer pre p h post w w1 resp1 :
  Re.re_match Re.email_regex email = true ->
  nth_error (split "@" email) 1 = Some domain ->
  resolve_mx w domain = inr answer ->
  sorted (map mx_tuple answer) = (pre ++ (p, h) :: post)%list ->
  inconclusive_walk email domain pre (looked_up domain w) RespNone w1 resp1 ->
  verify_email email w
  = match
      (exit <- for_mx_hosts email domain ((p, h) :: post) resp1 ;
       match exit with
       | Returned => get
       | Finished smtp_verified smtp_response is_catch_all =>
           conclude smtp_verified smtp_response is_catch_all
       end) (w1, after_lookup email (pre ++ (p, h) :: post))
    with
    | (x, s) => (x, fst s)
    end.
Proof.
  intros Hm Hd Hr Hs Hw.
  rewrite (verify_email_hosts email domain answer w Hm Hd Hr), Hs.
  unfold verify_hosts.
  destruct (pre ++ (p, h) :: post)%list as [|h0 hosts] eqn:E.
  - destruct pre; discriminate E.
  - rewrite <- E. unfold bind.
    rewrite (for_mx_hosts_walk _ _ _ _ _ _ _ Hw). reflexivity.
Qed.

Lemma walk_then_host_contacted email domain pre h w w1 resp1 r w2 :
  inconclusive_walk email domain pre (looked_up domain w) RespNone w1 resp1 ->
  probe h email domain w1 = (inr r, w2) ->
  contacted (history w2) = (contacted (history w) ++ map snd pre ++ [h])%list.
Proof.
  intros Hw E.
  rewrite (probe_contacted _ _ _ _ _ _ E), (walk_contacted _ _ _ _ _ _ _ Hw),
    history_looked_up, <- app_assoc.
  reflexivity.
Qed.

(** Claim C4.  When the hosts before [h] in the sorted list all gave an
    inconclusive outcome and the probe of [h] gives an outcome with
    [definitive_failure = true], [verify_email] returns status [invalid]
    with that outcome, in the world the probe of [h] left: the hosts
    contacted are those up to [h] and none of the later hosts [post]. *)
Theorem definitive_failure_stops_walk
    email domain answer pre p h post w w1 resp1 r w2 :
  Re.re_match Re.email_regex email = true ->
  nth_error (split "@" email) 1 = Some domain ->
  resolve_mx w domain = inr answer ->
  sorted (map mx_tuple answer) = (pre ++ (p, h) :: post)%list ->
  inconclusive_walk email domain pre (looked_up domain w) RespNone w1 resp1 ->
  probe h email domain w1 = (inr r, w2) ->
  SmtpResult.definitive_failure r = true ->
  exists res,
    verify_email email w = (inr res, w2)
    /\ VerifyResult.status res = invalid
    /\ VerifyResult.smtp_response res = RespResult r
    /\ contacted (history w2) = (contacted (history w) ++ map snd pre ++ [h])%list.
Proof.
  intros Hm Hd Hr Hs Hw E Hdef.
  rewrite (walk_then_host email domain answer pre p h post w w1 resp1 Hm Hd Hr Hs Hw).
  cbn [for_mx_hosts]. unfold bind.
  rewrite (try_host_run _ _ _ _ _ _ _ E), (probe_definitive _ _ _ _ _ _ E Hdef), Hdef.
  eexists. split; [reflexivity|]. repeat split.
  apply (walk_then_host_contacted email domain pre h w w1 resp1 r w2 Hw E).
Qed.

(** Claim C5.  When the hosts before [h] all gave an inconclusive outcome
    and the probe of [h] is accepted, the walk stops there (no later host
    is contacted); the status is [risky] with score 80 (20 + 30 + 50 - 20)
    when the outcome has the catch-all flag, and [valid] with score 100
    (20 + 30 + 50) otherwise. *)
Theorem accepted_stops_walk
    email domain answer pre p h post w w1 resp1 r w2 :
  Re.re_match Re.email_regex email = true ->
  nth_error (split "@" email) 1 = Some domain ->
  resolve_mx w domain = inr answer ->
  sorted (map mx_tuple answer) = (pre ++ (p, h) :: post)%list ->
  inconclusive_walk email domain pre (looked_up domain w) RespNone w1 resp1 ->
  probe h email domain w1 = (inr r, w2) ->
  SmtpResult.success r = true ->
  exists res,
    verify_email email w = (inr res, w2)
    /\ VerifyResult.status res = (if SmtpResult.catch_all r then risky else valid)
    /\ VerifyResult.score res = (if SmtpResult.catch_all r then 80 else 100)%Z
    /\ VerifyResult.smtp_check res = true
    /\ VerifyResult.smtp_response res = RespResult r
    /\ contacted (history w2) = (contacted (history w) ++ map snd pre ++ [h])%list.
Proof.
  intros Hm Hd Hr Hs Hw E Hacc.
  rewrite (walk_then_host email domain answer pre p h post w w1 resp1 Hm Hd Hr Hs Hw).
  cbn [for_mx_hosts]. unfold bind at 1 2.
  rewrite (try_host_run _ _ _ _ _ _ _ E), Hacc. unfold ret at 1.
  destruct (conclude_run true (RespResult r) (SmtpResult.catch_all r) w2
              (after_lookup email (pre ++ (p, h) :: post)))
    as [res [Ec [_ [Hresp [Hst [Hsc Hck]]]]]].
  rewrite Ec. exists res. split; [reflexivity|].
  repeat split; try assumption.
  - rewrite Hsc. destruct (SmtpResult.catch_all r); reflexivity.
  - apply (walk_then_host_contacted email domain pre h w w1 resp1 r w2 Hw E).
Qed.

Lemma hosts_exhausted
    email domain answer pre p h w w1 resp1 r w2 :
  Re.re_match Re.email_regex email = true ->
  nth_error (split "@" email) 1 = Some domain ->
  resolve_mx w domain = inr answer ->
  sorted (map mx_tuple answer) = (pre ++ [(p, h)])%list ->
  inconclusive_walk email domain pre (looked_up domain w) RespNone w1 resp1 ->
  probe h email domain w1 = (inr r, w2) ->
  inconclusive r ->
  exists res,
    verify_email email w = (inr res, w2)
    /\ VerifyResult.status res = unknown
    /\ VerifyResult.smtp_response res = RespResult r
    /\ VerifyResult.smtp_check res = false
    /\ contacted (history w2) = (contacted (history w) ++ map snd pre ++ [h])%list.
Proof.
  intros Hm Hd Hr Hs Hw E Hinc.
  rewrite (walk_then_host email domain answer pre p h [] w w1 resp1 Hm Hd Hr Hs Hw).
  unfold bind at 1.
  rewrite (for_mx_hosts_next _ _ _ _ _ _ _ _ _ _ E Hinc).
  cbn [for_mx_hosts]. unfold ret at 1.
  destruct (conclude_run false (RespResult r) false w2
              (after_lookup email (pre ++ [(p, h)])))
    as [res [Ec [_ [Hresp [Hst [Hsc Hck]]]]]].
  rewrite Ec. exists res. split; [reflexivity|].
  repeat split; try assumption.
  apply (walk_then_host_contacted email domain pre h w w1 resp1 r w2 Hw E).
Qed.

(** ** The classifier *)

Lemma startswith_cons s a p :
  startswith s (String a p) = true ->
  exists s', s = String a s' /\ startswith s' p = true.
Proof.
  unfold startswith. destruct s as [|b s]; simpl; [discriminate|].
  destruct (ascii_dec a b); [subst; eauto | discriminate].
Qed.

Ltac literal1 H :=
  let s := fresh "s" in let E := fresh "E" in
  apply startswith_cons in H; destruct H as [s [E H]]; subst.

(** [H : startswith response "ddd" = true] makes [response] start with
    the three digits. *)
Ltac literal H := literal1 H; literal1 H; literal1 H; unfold startswith in H.

Lemma analyze_accepted response c r :
  startswith response "250" = true \/ startswith response "251" = true ->
  analyze response c r
  = if startswith c "250" || startswith c "251" then
      SmtpResult.set_message "Server is catch-all (accepts all addresses)"
        (SmtpResult.set_catch_all true
           (SmtpResult.set_message "Email accepted by server"
              (SmtpResult.set_success true r)))
    else SmtpResult.set_message "Email accepted by server" (SmtpResult.set_success true r).
Proof.
  intros H. unfold analyze.
  replace (startswith response "250" || startswith response "251") with true
    by (destruct H as [-> | ->]; [reflexivity | now rewrite orb_true_r]).
  reflexivity.
Qed.

Lemma analyze_cannot_verify response c r :
  startswith response "252" = true ->
  analyze response c r
  = SmtpResult.set_message "Server cannot verify but will accept"
      (SmtpResult.set_catch_all true (SmtpResult.set_success true r)).
Proof. intros H. literal H. unfold analyze, startswith. simpl. rewrite H. reflexivity. Qed.

Lemma analyze_rejected response c r :
  startswith response "550" = true \/ startswith response "551" = true
  \/ startswith response "553" = true ->
  analyze response c r
  = SmtpResult.set_message ("Email rejected: " ++ strip response)
      (SmtpResult.set_definitive_failure true (SmtpResult.set_success false r)).
Proof.
  intros [H | [H | H]]; literal H; unfold analyze, startswith; simpl; rewrite H; reflexivity.
Qed.

Lemma analyze_temporary response c r :
  startswith response "450" = true \/ startswith response "451" = true
  \/ startswith response "452" = true ->
  analyze response c r
  = SmtpResult.set_message ("Temporary failure: " ++ strip response)
      (SmtpResult.set_success false r).
Proof.
  intros [H | [H | H]]; literal H; unfold analyze, startswith; simpl; rewrite H; reflexivity.
Qed.

(** What [smtp_check] returns after a complete conversation is the
    analysis of the two RCPT replies. *)
Lemma probe_conversation host email domain w c0 g s1 e s2 m s3 real s4 synthetic s5 rest :
  script w = ([inr c0; inr g; inr s1; inr e; inr s2; inr m; inr s3; inr real;
               inr s4; inr synthetic; inr s5] ++ rest)%list ->
  startswith g "220" = true ->
  startswith e "250" = true ->
  startswith m "250" = true ->
  fst (probe host email domain w)
  = inr (analyze real synthetic
           (SmtpResult.set_smtp_code
              (if Nat.leb 3 (String.length real) then Some (take 3 real) else None)
              (SmtpResult.initial host))).
Proof.
  intros Hs Hg He Hm. destruct w as [dns rnd d sc lg]. simpl in Hs. subst sc.
  unfold probe, smtp_check, call, try_except, smtp_dialogue, bind, ret, get, modify,
    sock_connect, sock_send, sock_recv, sock_close, random_choices, next_outcome,
    advance, record, drawn.
  cbn [fst snd script log tl negb orb resolve_mx random_lower draws].
  rewrite Hg. cbn [fst snd script log tl negb orb].
  rewrite He. cbn [fst snd script log tl negb orb].
  rewrite Hm. cbn [fst snd script log tl negb orb].
  reflexivity.
Qed.

(** Claim C3, as the code has it.  On the reply to the real RCPT: 250 and
    251 set [success]; 252 sets [success] and the catch-all flag whatever
    the synthetic reply is; 550, 551 and 553 set [definitive_failure] (and
    leave [success] unset).  When the real reply is 250 or 251, the
    catch-all flag is set exactly when the synthetic reply starts with
    250 or 251, and [success] stays set. *)
Theorem classifier response c code host :
  let r := analyze response c (SmtpResult.set_smtp_code code (SmtpResult.initial host)) in
  (startswith response "250" = true \/ startswith response "251" = true ->
   SmtpResult.success r = true
   /\ SmtpResult.definitive_failure r = false
   /\ SmtpResult.catch_all r = (startswith c "250" || startswith c "251"))
  /\ (startswith response "252" = true ->
      SmtpResult.success r = true /\ SmtpResult.catch_all r = true)
  /\ (startswith response "550" = true \/ startswith response "551" = true
      \/ startswith response "553" = true ->
      SmtpResult.definitive_failure r = true /\ SmtpResult.success r = false).
Proof.
  intros r. subst r. split; [|split]; intros H.
  - rewrite (analyze_accepted _ _ _ H).
    destruct (startswith c "250" || startswith c "251"); repeat split.
  - rewrite (analyze_cannot_verify _ _ _ H). split; reflexivity.
  - rewrite (analyze_rejected _ _ _ H). split; reflexivity.
Qed.

(** ** Host order *)

Lemma mx_le_spec a b :
  mx_le a b <->
  (fst a < fst b)%Z \/ (fst a = fst b /\ String.leb (snd a) (snd b) = true).
Proof.
  unfold mx_le, mx_leb. destruct (fst a ?= fst b)%Z eqn:E.
  - apply Z.compare_eq in E. split; [intros H; right; auto | intros [H | [_ H]]; [lia | exact H]].
  - rewrite Z.compare_lt_iff in E. split; [intros _; left; exact E | reflexivity].
  - rewrite Z.compare_gt_iff in E. split; [discriminate | intros [H | [H _]]; lia].
Qed.

Lemma verify_email_contacted email domain answer w x w' :
  nth_error (split "@" email) 1 = Some domain ->
  resolve_mx w domain = inr answer ->
  verify_email email w = (x, w') ->
  exists tried rest,
    contacted (history w') = (contacted (history w) ++ map snd tried)%list
    /\ (tried ++ rest)%list = sorted (map mx_tuple answer).
Proof.
  intros Hd Hr E.
  destruct (Re.re_match Re.email_regex email) eqn:Hm.
  - rewrite (verify_email_hosts email domain answer w Hm Hd Hr) in E.
    unfold verify_hosts in E.
    destruct (sorted (map mx_tuple answer)) as [|h hosts] eqn:Hs.
    + inversion E; subst. exists [], []. simpl.
      rewrite history_looked_up, app_nil_r. split; reflexivity.
    + destruct (for_mx_hosts_total email domain (h :: hosts) RespNone
                  (looked_up domain w) (after_lookup email (h :: hosts)))
        as [y [w1 [l1 [tried [rest [E1 [Hh [Hc _]]]]]]]].
      unfold bind in E. rewrite E1 in E.
      assert (w' = w1) as ->.
      { destruct y as [|v resp c].
        - inversion E. reflexivity.
        - destruct (conclude_run v resp c w1 l1) as [res [Ec _]].
          rewrite Ec in E. inversion E. reflexivity. }
      exists tried, rest. rewrite Hc, history_looked_up. split; [reflexivity | symmetry; exact Hh].
  - destruct (syntax_gate email w Hm) as [res [E' _]]. rewrite E' in E.
    inversion E; subst. exists [], (sorted (map mx_tuple answer)).
    simpl. rewrite app_nil_r. split; reflexivity.
Qed.

(** How the loop ends: the hosts it found inconclusive, [pre], and either
    the end of the list or the first host whose outcome is an acceptance
    or a definitive failure. *)
Lemma for_mx_hosts_stops email domain hosts : forall resp w l,
  exists x w' l' pre wpre resp',
    for_mx_hosts email domain hosts resp (w, l) = (inr x, (w', l'))
    /\ inconclusive_walk email domain pre w resp wpre resp'
    /\ ((hosts = pre /\ w' = wpre)
        \/ exists p h r rest,
             hosts = (pre ++ (p, h) :: rest)%list
             /\ probe h email domain wpre = (inr r, w')
             /\ (SmtpResult.success r = true
                 \/ SmtpResult.definitive_failure r = true)).
Proof.
  induction hosts as [|[p h] hosts IH]; intros resp w l.
  - exists (Finished false resp false), w, l, [], w, resp.
    split; [reflexivity|]. split; [constructor|]. left. split; reflexivity.
  - destruct (probe_returns h email domain w) as [r [w1 E]].
    simpl. unfold bind at 1. rewrite (try_host_run _ _ _ _ _ _ _ E).
    destruct (SmtpResult.success r) eqn:Hs;
      [| destruct (SmtpResult.definitive_failure r) eqn:Hd ].
    + exists (Finished true (RespResult r) (SmtpResult.catch_all r)), w1, l, [], w, resp.
      split; [reflexivity|]. split; [constructor|]. right.
      exists p, h, r, hosts. split; [reflexivity|]. split; [exact E | left; exact Hs].
    + exists Returned, w1, (rejected r l), [], w, resp.
      split; [reflexivity|]. split; [constructor|]. right.
      exists p, h, r, hosts. split; [reflexivity|]. split; [exact E | right; exact Hd].
    + destruct (IH (RespResult r) w1 l)
        as [x [w' [l' [pre [wpre [resp' [E' [Hw Hc]]]]]]]].
      exists x, w', l', ((p, h) :: pre), wpre, resp'.
      split; [exact E'|].
      split; [exact (walk_cons email domain p h pre w resp r w1 wpre resp' E
                       (conj Hs Hd) Hw)|].
      destruct Hc as [[-> ->] | [p' [h' [r' [rest [-> [Ep Hr]]]]]]].
      * left. split; reflexivity.
      * right. exists p', h', r', rest. split; [reflexivity|]. split; assumption.
Qed.

(** The walk of [verify_email] on an address that passes the syntax check. *)
Lemma verify_email_walk email domain answer w x w' :
  Re.re_match Re.email_regex email = true ->
  nth_error (split "@" email) 1 = Some domain ->
  resolve_mx w domain = inr answer ->
  verify_email email w = (x, w') ->
  exists pre wpre resp,
    inconclusive_walk email domain pre (looked_up domain w) RespNone wpre resp
    /\ ((sorted (map mx_tuple answer) = pre /\ w' = wpre)
        \/ exists p h r rest,
             sorted (map mx_tuple answer) = (pre ++ (p, h) :: rest)%list
             /\ probe h email domain wpre = (inr r, w')
             /\ (SmtpResult.success r = true
                 \/ SmtpResult.definitive_failure r = true)).
Proof.
  intros Hm Hd Hr E.
  rewrite (verify_email_hosts email domain answer w Hm Hd Hr) in E.
  unfold verify_hosts in E.
  destruct (sorted (map mx_tuple answer)) as [|h hosts] eqn:Hs.
  - inversion E; subst. exists [], (looked_up domain w), RespNone.
    split; [constructor|]. left. split; reflexivity.
  - destruct (for_mx_hosts_stops email domain (h :: hosts) RespNone
                (looked_up domain w) (after_lookup email (h :: hosts)))
      as [y [w1 [l1 [pre [wpre [resp [E1 [Hw Hc]]]]]]]].
    unfold bind in E. rewrite E1 in E.
    assert (w' = w1) as ->.
    { destruct y as [|v resp0 c].
      - inversion E. reflexivity.
      - destruct (conclude_run v resp0 c w1 l1) as [res [Ec _]].
        rewrite Ec in E. inversion E. reflexivity. }
    exists pre, wpre, resp. split; [exact Hw | exact Hc].
Qed.

(** A host that accepts or rejects for good ends the loop in the world its
    probe left. *)
Lemma for_mx_hosts_here email domain p h rest resp w l r w1 :
  probe h email domain w = (inr r, w1) ->
  SmtpResult.success r || SmtpResult.definitive_failure r = true ->
  exists y l',
    for_mx_hosts email domain ((p, h) :: rest) resp (w, l) = (inr y, (w1, l')).
Proof.
  intros E H. simpl. unfold bind at 1. rewrite (try_host_run _ _ _ _ _ _ _ E).
  destruct (SmtpResult.success r); [eexists; eexists; reflexivity|].
  simpl in H. rewrite H. eexists; eexists; reflexivity.
Qed.

(** The world [verify_email] returns is the one its loop ended in. *)
Lemma verify_email_ends email domain answer w x w' y w1 l1 :
  Re.re_match Re.email_regex email = true ->
  nth_error (split "@" email) 1 = Some domain ->
  resolve_mx w domain = inr answer ->
  sorted (map mx_tuple answer) <> [] ->
  for_mx_hosts email domain (sorted (map mx_tuple answer)) RespNone
    (looked_up domain w, after_lookup email (sorted (map mx_tuple answer)))
  = (inr y, (w1, l1)) ->
  verify_email email w = (x, w') ->
  w' = w1.
Proof.
  intros Hm Hd Hr Hne E1 E.
  rewrite (verify_email_hosts email domain answer w Hm Hd Hr) in E.
  unfold verify_hosts in E.
  destruct (sorted (map mx_tuple answer)) as [|h hosts]; [contradiction|].
  unfold bind in E. rewrite E1 in E.
  destruct y as [|v resp0 c].
  - inversion E. reflexivity.
  - destruct (conclude_run v resp0 c w1 l1) as [res [Ec _]].
    rewrite Ec in E. inversion E. reflexivity.
Qed.

(** Claim C8.  The hosts [verify_email] contacts are, in the order of the
    contacts, an initial segment [tried] of a list [tried ++ rest] that is
    a permutation of the MX records (trailing dots stripped) sorted by
    [mx_le]: ascending preference, and ascending hostname for equal
    preferences.  For an address that passes the syntax check the segment
    is not empty when there is a record: it is made of the hosts whose
    outcome is inconclusive, in order, followed by the first host that
    accepts or rejects for good, which ends the walk; with no such host
    it is the whole list.  In particular with the records (10,"a") and
    (5,"b") the host "b" is contacted first, and "a" after it exactly
    when the outcome of "b" is inconclusive. *)
Theorem hosts_in_preference_order :
  (forall email domain answer w x w',
      nth_error (split "@" email) 1 = Some domain ->
      resolve_mx w domain = inr answer ->
      verify_email email w = (x, w') ->
      exists tried rest,
        contacted (history w') = (contacted (history w) ++ map snd tried)%list
        /\ Sorted mx_le (tried ++ rest)
        /\ Permutation (map mx_tuple answer) (tried ++ rest)
        /\ (Re.re_match Re.email_regex email = true ->
            (answer <> [] -> tried <> [])
            /\ exists pre wpre resp,
                 inconclusive_walk email domain pre (looked_up domain w) RespNone wpre resp
                 /\ ((tried = pre /\ rest = [] /\ w' = wpre)
                     \/ exists p h r,
                          tried = (pre ++ [(p, h)])%list
                          /\ probe h email domain wpre = (inr r, w')
                          /\ (SmtpResult.success r = true
                              \/ SmtpResult.definitive_failure r = true))))
  /\ (forall a b, mx_le a b <->
        (fst a < fst b)%Z \/ (fst a = fst b /\ String.leb (snd a) (snd b) = true))
  /\ (forall email domain w x w',
        Re.re_match Re.email_regex email = true ->
        nth_error (split "@" email) 1 = Some domain ->
        resolve_mx w domain
        = inr [ {| preference := 10; exchange := "a" |};
                {| preference := 5; exchange := "b" |} ] ->
        verify_email email w = (x, w') ->
        exists r wb,
          probe "b" email domain (looked_up domain w) = (inr r, wb)
          /\ contacted (history w')
             = (contacted (history w)
                ++ (if SmtpResult.success r || SmtpResult.definitive_failure r
                    then ["b"] else ["b"; "a"]))%list).
Proof.
  split; [|split].
  - intros email domain answer w x w' Hd Hr E.
    destruct (Re.re_match Re.email_regex email) eqn:Hm.
    + destruct (verify_email_walk email domain answer w x w' Hm Hd Hr E)
        as [pre [wpre [resp [Hw Hc]]]].
      pose proof (walk_contacted _ _ _ _ _ _ _ Hw) as Hpre.
      rewrite history_looked_up in Hpre.
      assert (Hne : answer <> [] -> sorted (map mx_tuple answer) <> []).
      { intros Ha Hs. apply Ha.
        pose proof (sorted_perm (map mx_tuple answer)) as P. rewrite Hs in P.
        apply Permutation_sym, Permutation_nil in P.
        destruct answer; [reflexivity | discriminate P]. }
      destruct Hc as [[Hs ->] | [p [h [r [rest [Hs [Ep Hr']]]]]]].
      * subst pre. exists (sorted (map mx_tuple answer)), []. rewrite app_nil_r.
        split; [exact Hpre|].
        split; [apply sorted_sorted|]. split; [apply sorted_perm|].
        intros _. split; [exact Hne|].
        exists (sorted (map mx_tuple answer)), wpre, resp.
        split; [exact Hw|]. left. auto.
      * exists (pre ++ [(p, h)])%list, rest.
        assert (Hs' : ((pre ++ [(p, h)]) ++ rest)%list = sorted (map mx_tuple answer)).
        { rewrite <- app_assoc. symmetry. exact Hs. }
        rewrite Hs'.
        split.
        { rewrite (probe_contacted _ _ _ _ _ _ Ep), Hpre, map_app, <- app_assoc.
          reflexivity. }
        split; [apply sorted_sorted|]. split; [apply sorted_perm|].
        intros _. split; [intros _; destruct pre; discriminate|].
        exists pre, wpre, resp. split; [exact Hw|]. right.
        exists p, h, r. split; [reflexivity|]. split; assumption.
    + destruct (verify_email_contacted email domain answer w x w' Hd Hr E)
        as [tried [rest [Hc Hs]]].
      exists tried, rest. rewrite Hs.
      split; [exact Hc|]. split; [apply sorted_sorted|]. split; [apply sorted_perm|].
      discriminate.
  - exact mx_le_spec.
  - intros email domain w x w' Hm Hd Hr E.
    destruct (probe_returns "b" email domain (looked_up domain w)) as [rb [wb Eb]].
    destruct (probe_returns "a" email domain wb) as [ra [wa Ea]].
    exists rb, wb. split; [exact Eb|].
    pose proof (probe_contacted _ _ _ _ _ _ Eb) as Cb. rewrite history_looked_up in Cb.
    pose proof (probe_contacted _ _ _ _ _ _ Ea) as Ca.
    assert (Hne : sorted (map mx_tuple
                            [ {| preference := 10; exchange := "a" |};
                              {| preference := 5; exchange := "b" |} ]) <> [])
      by discriminate.
    destruct (SmtpResult.success rb || SmtpResult.definitive_failure rb) eqn:Hb.
    + destruct (for_mx_hosts_here email domain 5%Z "b" [(10%Z, "a")] RespNone
                  (looked_up domain w)
                  (after_lookup email [(5%Z, "b"); (10%Z, "a")]) rb wb Eb Hb)
        as [y [l' E1]].
      rewrite (verify_email_ends email domain _ w x w' y wb l' Hm Hd Hr Hne E1 E).
      exact Cb.
    + apply orb_false_iff in Hb. destruct Hb as [Hs Hd'].
      pose proof (for_mx_hosts_next email domain 5%Z "b" [(10%Z, "a")] RespNone
                    (looked_up domain w)
                    (after_lookup email [(5%Z, "b"); (10%Z, "a")]) rb wb Eb
                    (conj Hs Hd')) as N.
      assert (Hend : exists y l',
                 for_mx_hosts email domain [(5%Z, "b"); (10%Z, "a")] RespNone
                   (looked_up domain w, after_lookup email [(5%Z, "b"); (10%Z, "a")])
                 = (inr y, (wa, l'))).
      { rewrite N.
        destruct (SmtpResult.success ra || SmtpResult.definitive_failure ra) eqn:Ha.
        - exact (for_mx_hosts_here email domain 10%Z "a" [] (RespResult rb) wb _ ra wa
                   Ea Ha).
        - apply orb_false_iff in Ha. destruct Ha as [Hsa Hda].
          rewrite (for_mx_hosts_next email domain 10%Z "a" [] (RespResult rb) wb _ ra wa
                     Ea (conj Hsa Hda)).
          eexists; eexists; reflexivity. }
      destruct Hend as [y [l' E1]].
      rewrite (verify_email_ends email domain _ w x w' y wa l' Hm Hd Hr Hne E1 E).
      rewrite Ca, Cb, <- app_assoc. reflexivity.
Qed.

Lemma hosts_in_preference_order_witness :
  contacted (history (snd (verify_email "user@example.com" host_order))) = ["b"; "a"].
Proof.
  destruct hosts_in_preference_order as [_ [_ H]].
  destruct (H "user@example.com" "example.com" host_order
              (fst (verify_email "user@example.com" host_order))
              (snd (verify_email "user@example.com" host_order))
              ltac:(vm_compute; reflexivity) ltac:(vm_compute; reflexivity)
              ltac:(vm_compute; reflexivity) ltac:(vm_compute; reflexivity))
    as [r [wb [Ep Hc]]].
  rewrite Hc. vm_compute in Ep. injection Ep as <- <-. reflexivity.
Defined.

(** ** MX resolution *)

(** Claim C1, as the code has it.  When the MX resolution raises, the
    result has [mx_found = false] and no host is contacted; its status is
    [invalid] when the exception is [NoAnswer], [NXDOMAIN] or
    [NoNameservers], and [unknown] for every other exception (such as a
    resolver timeout). *)
Theorem mx_resolution_failure email domain e w :
  Re.re_match Re.email_regex email = true ->
  nth_error (split "@" email) 1 = Some domain ->
  resolve_mx w domain = inl e ->
  exists res,
    verify_email email w = (inr res, looked_up domain w)
    /\ VerifyResult.mx_found res = false
    /\ VerifyResult.status res
       = match cls e with
         | NoAnswer | NXDOMAIN | NoNameservers => invalid
         | _ => unknown
         end.
Proof.
  intros Hm Hd Hr.
  destruct (verify_email_no_answer email domain e w Hm Hd Hr) as [res [E [F [_ S]]]].
  exists res. auto.
Qed.

Lemma mx_resolution_failure_witness :
  exists res,
    verify_email "user@example.com" resolver_timeout
    = (inr res, looked_up "example.com" resolver_timeout)
    /\ VerifyResult.mx_found res = false
    /\ VerifyResult.status res = unknown.
Proof.
  apply (mx_resolution_failure "user@example.com" "example.com"
           {| cls := Exception; str := "The DNS operation timed out" |} resolver_timeout);
    vm_compute; reflexivity.
Defined.

Lemma nameservers_unreachable_is_invalid :
  exists res w',
    verify_email "user@example.com" nameservers_failed = (inr res, w')
    /\ VerifyResult.status res = invalid
    /\ VerifyResult.status res <> unknown.
Proof.
  eexists; eexists. split; [vm_compute; reflexivity|]. split; [reflexivity | discriminate].
Qed.

(** ** The two recipient probes *)





(** After a definitive rejection of the real address the synthetic
    address is still tried before QUIT. *)
Example scenario_D_history :
  history (snd (verify_email "user@example.com" scenario_D))
  = [ Resolve "example.com"; Connect "b" true; Recv (Some "220 mx ready");
      Send EHLO true; Recv (Some "250 hello");
      Send MAIL_FROM true; Recv (Some "250 sender ok");
      Send (RCPT_TO "user@example.com") true; Recv (Some "550 no such user");
      Send (RCPT_TO "qwertyuiopasdfghjklz@example.com") true;
      Recv (Some "550 no such user");
      Send QUIT true; Close ].
Proof. vm_compute. reflexivity. Qed.

(** ** Closing the socket *)

(** Claim C2, where the code departs from it.  The connection opens, the
    greeting is 220, and the read of the reply to EHLO times out: the
    probe returns with the socket open, no [close] was made.  And after a
    greeting that is not 220 the socket is closed without a QUIT. *)
Theorem socket_left_open_on_exception :
  (exists r w',
      probe "b" "user@example.com" "example.com" ehlo_reply_timeout = (inr r, w')
      /\ history w'
         = [ Connect "b" true; Recv (Some "220 mx ready"); Send EHLO true; Recv None ]
      /\ socket_open false (history w') = true
      /\ ~ In Close (history w')
      /\ SmtpResult.message r = "Connection timeout to b")
  /\ (exists r w',
         probe "b" "user@example.com" "example.com" bad_greeting = (inr r, w')
         /\ history w' = [ Connect "b" true; Recv (Some "554 no service"); Close ]
         /\ forall ok', ~ In (Send QUIT ok') (history w')).
Proof.
  split; eexists; eexists; (split; [vm_compute; reflexivity|]).
  - split; [reflexivity|]. split; [reflexivity|]. split; [|reflexivity].
    simpl. intros [H | [H | [H | [H | H]]]]; try discriminate H; exact H.
  - split; [reflexivity|].
    simpl. intros ok' [H | [H | [H | H]]]; try discriminate H; exact H.
Qed.

(** When no socket call raises, the socket is closed when the probe returns. *)
Lemma socket_closed_without_exception host email domain w r w' t :
  probe host email domain w = (inr r, w') ->
  history w' = (history w ++ t)%list ->
  existsb raised t = false ->
  socket_open false t = false.
Proof.
  intros E Ht.
  destruct (run_of_inv _ _ _ _ _ _ _ (probe_closes host email domain w) E) as [t' [Ht' H]].
  rewrite Ht' in Ht. apply app_inv_head in Ht. subst t'. exact H.
Qed.

(** ** Inconclusive outcomes *)

Lemma raised_is_inconclusive host email domain w r w' t :
  probe host email domain w = (inr r, w') ->
  history w' = (history w ++ t)%list ->
  existsb raised t = true ->
  inconclusive r.
Proof.
  intros E Ht.
  destruct (run_of_inv _ _ _ _ _ _ _ (probe_raised host email domain w) E) as [t' [Ht' H]].
  rewrite Ht' in Ht. apply app_inv_head in Ht. subst t'. exact H.
Qed.

Lemma temporary_is_inconclusive response c r :
  inconclusive r ->
  startswith response "450" = true \/ startswith response "451" = true
  \/ startswith response "452" = true ->
  inconclusive (analyze response c r).
Proof.
  intros [Hs Hd] H. rewrite (analyze_temporary _ _ _ H). split; [reflexivity | exact Hd].
Qed.

Lemma unexpected_is_inconclusive response c r :
  inconclusive r ->
  forallb (fun code => negb (startswith response code))
    ["250"; "251"; "252"; "550"; "551"; "553"; "450"; "451"; "452"] = true ->
  inconclusive (analyze response c r).
Proof.
  intros Hi H. simpl in H. unfold analyze.
  repeat match goal with
         | |- context [startswith response ?p] =>
             destruct (startswith response p); try discriminate H
         end.
  exact Hi.
Qed.

(** Claim C6.  An outcome is inconclusive when a socket call of the probe
    raised (connection failure, timeout), when the reply to the real RCPT
    is a temporary rejection (450, 451, 452) and when it is none of the
    known codes; an inconclusive outcome makes the loop go on with the
    next host; and when every host of the list gave an inconclusive
    outcome the status is [unknown], all the hosts were contacted, and
    [smtp_response] is the outcome of the last host. *)
Theorem inconclusive_hosts_are_skipped :
  (forall host email domain w r w' t,
      probe host email domain w = (inr r, w') ->
      history w' = (history w ++ t)%list ->
      existsb raised t = true ->
      inconclusive r)
  /\ (forall response c r,
         inconclusive r ->
         startswith response "450" = true \/ startswith response "451" = true
         \/ startswith response "452" = true ->
         inconclusive (analyze response c r))
  /\ (forall response c r,
         inconclusive r ->
         forallb (fun code => negb (startswith response code))
           ["250"; "251"; "252"; "550"; "551"; "553"; "450"; "451"; "452"] = true ->
         inconclusive (analyze response c r))
  /\ (forall email domain p h rest resp w l r w1,
         probe h email domain w = (inr r, w1) ->
         inconclusive r ->
         for_mx_hosts email domain ((p, h) :: rest) resp (w, l)
         = for_mx_hosts email domain rest (RespResult r) (w1, l))
  /\ (forall email domain answer pre p h w w1 resp1 r w2,
         Re.re_match Re.email_regex email = true ->
         nth_error (split "@" email) 1 = Some domain ->
         resolve_mx w domain = inr answer ->
         sorted (map mx_tuple answer) = (pre ++ [(p, h)])%list ->
         inconclusive_walk email domain pre (looked_up domain w) RespNone w1 resp1 ->
         probe h email domain w1 = (inr r, w2) ->
         inconclusive r ->
         exists res,
           verify_email email w = (inr res, w2)
           /\ VerifyResult.status res = unknown
           /\ VerifyResult.smtp_response res = RespResult r
           /\ VerifyResult.smtp_check res = false
           /\ contacted (history w2)
              = (contacted (history w) ++ map snd pre ++ [h])%list).
Proof.
  split; [exact raised_is_inconclusive|].
  split; [exact temporary_is_inconclusive|].
  split; [exact unexpected_is_inconclusive|].
  split; [exact for_mx_hosts_next | exact hosts_exhausted].
Qed.

(** ** The scenarios *)

Lemma definitive_failure_stops_walk_witness :
  exists res w',
    verify_email "user@example.com" scenario_D = (inr res, w')
    /\ VerifyResult.status res = invalid
    /\ contacted (history w') = ["b"].
Proof.
  pose (w1 := looked_up "example.com" scenario_D).
  pose (x := probe "b" "user@example.com" "example.com" w1).
  destruct (definitive_failure_stops_walk "user@example.com" "example.com"
              [ {| preference := 10; exchange := "a." |};
                {| preference := 5; exchange := "b." |} ]
              [] 5%Z "b" [(10%Z, "a")] scenario_D w1 RespNone (outcome x) (snd x))
    as [res [E [S [_ C]]]].
  - vm_compute. reflexivity.
  - reflexivity.
  - reflexivity.
  - vm_compute. reflexivity.
  - apply walk_nil.
  - vm_compute. reflexivity.
  - vm_compute. reflexivity.
  - exists res, (snd x). split; [exact E | split; [exact S | exact C]].
Defined.

Lemma accepted_stops_walk_witness :
  exists res w',
    verify_email "user@example.com" scenario_B = (inr res, w')
    /\ VerifyResult.status res = valid
    /\ VerifyResult.score res = 100%Z
    /\ contacted (history w') = ["b"].
Proof.
  pose (w1 := looked_up "example.com" scenario_B).
  pose (x := probe "b" "user@example.com" "example.com" w1).
  destruct (accepted_stops_walk "user@example.com" "example.com"
              [ {| preference := 10; exchange := "a." |};
                {| preference := 5; exchange := "b." |} ]
              [] 5%Z "b" [(10%Z, "a")] scenario_B w1 RespNone (outcome x) (snd x))
    as [res [E [S [Sc [_ [_ C]]]]]].
  - vm_compute. reflexivity.
  - reflexivity.
  - reflexivity.
  - vm_compute. reflexivity.
  - apply walk_nil.
  - vm_compute. reflexivity.
  - vm_compute. reflexivity.
  - exists res, (snd x). split; [exact E | split; [exact S | split; [exact Sc | exact C]]].
Defined.

Lemma inconclusive_hosts_are_skipped_witness :
  exists res w',
    verify_email "user@example.com" all_hosts_down = (inr res, w')
    /\ VerifyResult.status res = unknown
    /\ contacted (history w') = ["b"; "a"].
Proof.
  destruct inconclusive_hosts_are_skipped as [_ [_ [_ [_ H]]]].
  pose (w0 := looked_up "example.com" all_hosts_down).
  pose (x1 := probe "b" "user@example.com" "example.com" w0).
  pose (x2 := probe "a" "user@example.com" "example.com" (snd x1)).
  destruct (H "user@example.com" "example.com"
              [ {| preference := 10; exchange := "a." |};
                {| preference := 5; exchange := "b." |} ]
              [(5%Z, "b")] 10%Z "a" all_hosts_down (snd x1)
              (RespResult (outcome x1)) (outcome x2) (snd x2))
    as [res [E [S [_ [_ C]]]]].
  - vm_compute. reflexivity.
  - reflexivity.
  - reflexivity.
  - vm_compute. reflexivity.
  - apply (walk_cons _ _ 5%Z "b" [] w0 RespNone (outcome x1) (snd x1) (snd x1)
             (RespResult (outcome x1))).
    + vm_compute. reflexivity.
    + split; reflexivity.
    + apply walk_nil.
  - vm_compute. reflexivity.
  - split; reflexivity.
  - exists res, (snd x2). split; [exact E | split; [exact S | exact C]].
Defined.

(** Scenario B: the address is accepted and the synthetic one refused. *)
Example scenario_B_result :
  exists res w',
    verify_email "user@example.com" scenario_B = (inr res, w')
    /\ VerifyResult.status res = valid /\ VerifyResult.score res = 100%Z.
Proof. eexists; eexists. split; [vm_compute; reflexivity|]. split; reflexivity. Qed.

(** Scenario C: both addresses are accepted. *)
Example scenario_C_result :
  exists res w',
    verify_email "user@example.com" scenario_C = (inr res, w')
    /\ VerifyResult.status res = risky /\ VerifyResult.score res = 80%Z.
Proof. eexists; eexists. split; [vm_compute; reflexivity|]. split; reflexivity. Qed.

(** The first host is down, the second one accepts the address. *)
Example second_host_answers :
  exists res w',
    verify_email "user@example.com" (first_host_down "250 ok" "550 no such user")
    = (inr res, w')
    /\ VerifyResult.status res = valid /\ contacted (history w') = ["b"; "a"].
Proof. eexists; eexists. split; [vm_compute; reflexivity|]. split; reflexivity. Qed.

Lemma classifier_witness :
  let r := analyze "550 no such user" "250 ok"
             (SmtpResult.set_smtp_code (Some "550") (SmtpResult.initial "b")) in
  SmtpResult.definitive_failure r = true /\ SmtpResult.success r = false.
Proof.
  destruct (classifier "550 no such user" "250 ok" (Some "550") "b") as [_ [_ H]].
  apply H. left. reflexivity.
Defined.

(** A synthetic reply 252 is of the 2xx class, and the address it
    answers to is accepted; the catch-all flag stays unset. *)
Lemma synthetic_252_is_not_catch_all :
  exists r w',
    probe "b" "user@example.com" "example.com"
      (mock two_hosts (conversation "250 ok" "252 cannot verify"))
    = (inr r, w')
    /\ In (Recv (Some "252 cannot verify")) (history w')
    /\ startswith "252 cannot verify" "2" = true
    /\ SmtpResult.success r = true
    /\ SmtpResult.catch_all r = false.
Proof.
  eexists; eexists. split; [vm_compute; reflexivity|].
  split; [simpl; tauto|]. repeat split.
Qed.

(** ** Strings, the pattern and [sorted] on examples *)

Example email_regex_accepts :
  Re.re_match Re.email_regex "chris.lindsay@blossombi.com" = true
  /\ Re.re_match Re.email_regex "a@b.co" = true
  /\ Re.re_match Re.email_regex ("a@b.co" ++ String Re.newline "") = true.
Proof. repeat split; vm_compute; reflexivity. Qed.

Example email_regex_rejects :
  Re.re_match Re.email_regex "not-an-email" = false
  /\ Re.re_match Re.email_regex "a@b.c" = false
  /\ Re.re_match Re.email_regex "a@@b.co" = false
  /\ Re.re_match Re.email_regex "a@b.c0m" = false
  /\ Re.re_match Re.email_regex "" = false.
Proof. repeat split; vm_compute; reflexivity. Qed.

Example split_at :
  Str.split "@" "a@b.co" = ["a"; "b.co"] /\ Str.split "@" "abc" = ["abc"]
  /\ Str.strip "  550 no such user  " = "550 no such user"
  /\ Str.rstrip_dot "mx.example.com.." = "mx.example.com".
Proof. repeat split; vm_compute; reflexivity. Qed.

Example sorted_example :
  sorted [(10%Z, "a"); (5%Z, "b"); (5%Z, "a")] = [(5%Z, "a"); (5%Z, "b"); (10%Z, "a")].
Proof. vm_compute; reflexivity. Qed.

(* ================================================================== *)
(** * Further properties of [smtp_check] *)

Lemma code_of_literal a b c s :
  code_of (String a (String b (String c s))) = Some (String a (String b (String c ""))).
Proof. destruct s; reflexivity. Qed.

Lemma analyze_keeps response c r :
  SmtpResult.smtp_code (analyze response c r) = SmtpResult.smtp_code r
  /\ SmtpResult.mx_host (analyze response c r) = SmtpResult.mx_host r.
Proof.
  unfold analyze.
  repeat match goal with |- context [if ?b then _ else _] => destruct b end;
    split; reflexivity.
Qed.

Lemma code_of_startswith response a b c :
  startswith response (String a (String b (String c ""))) = true ->
  code_of response = Some (String a (String b (String c ""))).
Proof. intros H. literal H. apply code_of_literal. Qed.

Lemma analyze_other response c r :
  startswith response "250" = false -> startswith response "251" = false ->
  startswith response "252" = false -> startswith response "550" = false ->
  startswith response "551" = false -> startswith response "553" = false ->
  SmtpResult.success r = false ->
  SmtpResult.success (analyze response c r) = false
  /\ SmtpResult.definitive_failure (analyze response c r) = SmtpResult.definitive_failure r
  /\ SmtpResult.catch_all (analyze response c r) = SmtpResult.catch_all r.
Proof.
  intros E1 E2 E3 E4 E5 E6 Hs. unfold analyze. rewrite E1, E2, E3, E4, E5, E6.
  cbn [orb].
  destruct (startswith response "450" || startswith response "451"
            || startswith response "452");
    cbn; repeat split; try reflexivity; exact Hs.
Qed.

Lemma analyze_codes response c host :
  let r := analyze response c
             (SmtpResult.set_smtp_code (code_of response) (SmtpResult.initial host)) in
  (SmtpResult.success r = true ->
   In (SmtpResult.smtp_code r) [Some "250"; Some "251"; Some "252"])
  /\ (SmtpResult.definitive_failure r = true ->
      In (SmtpResult.smtp_code r) [Some "550"; Some "551"; Some "553"])
  /\ (SmtpResult.catch_all r = true -> SmtpResult.success r = true)
  /\ (SmtpResult.success r = true -> SmtpResult.catch_all r = false ->
      In (SmtpResult.smtp_code r) [Some "250"; Some "251"])
  /\ SmtpResult.mx_host r = host.
Proof.
  intros r. subst r.
  destruct (analyze_keeps response c
              (SmtpResult.set_smtp_code (code_of response) (SmtpResult.initial host)))
    as [-> ->].
  cbn [SmtpResult.smtp_code SmtpResult.mx_host SmtpResult.set_smtp_code SmtpResult.initial].
  destruct (startswith response "250") eqn:E1.
  { rewrite (analyze_accepted _ _ _ (or_introl E1)), (code_of_startswith _ _ _ _ E1).
    destruct (startswith c "250" || startswith c "251"); cbn; intuition congruence. }
  destruct (startswith response "251") eqn:E2.
  { rewrite (analyze_accepted _ _ _ (or_intror E2)), (code_of_startswith _ _ _ _ E2).
    destruct (startswith c "250" || startswith c "251"); cbn; intuition congruence. }
  destruct (startswith response "252") eqn:E3.
  { rewrite (analyze_cannot_verify _ _ _ E3), (code_of_startswith _ _ _ _ E3).
    cbn; intuition congruence. }
  destruct (startswith response "550") eqn:E4.
  { rewrite (analyze_rejected _ _ _ (or_introl E4)), (code_of_startswith _ _ _ _ E4).
    cbn; intuition congruence. }
  destruct (startswith response "551") eqn:E5.
  { rewrite (analyze_rejected _ _ _ (or_intror (or_introl E5))),
      (code_of_startswith _ _ _ _ E5).
    cbn; intuition congruence. }
  destruct (startswith response "553") eqn:E6.
  { rewrite (analyze_rejected _ _ _ (or_intror (or_intror E6))),
      (code_of_startswith _ _ _ _ E6).
    cbn; intuition congruence. }
  destruct (analyze_other response c
              (SmtpResult.set_smtp_code (code_of response) (SmtpResult.initial host))
              E1 E2 E3 E4 E5 E6 eq_refl) as [-> [-> ->]].
  cbn; intuition congruence.
Qed.

Lemma probe_codes host email domain w :
  run_of host email domain w
    (fun t r =>
       (SmtpResult.success r = true ->
        In (SmtpResult.smtp_code r) [Some "250"; Some "251"; Some "252"])
       /\ (SmtpResult.definitive_failure r = true ->
           In (SmtpResult.smtp_code r) [Some "550"; Some "551"; Some "553"])
       /\ (SmtpResult.catch_all r = true -> SmtpResult.success r = true)
       /\ (SmtpResult.success r = true -> SmtpResult.catch_all r = false ->
           In (SmtpResult.smtp_code r) [Some "250"; Some "251"])
       /\ SmtpResult.mx_host r = host).
Proof.
  unfold run_of. probe_cases w;
    first [ apply analyze_codes | simpl; intuition congruence ].
Qed.

Lemma run_of_events host email domain w (P : list event -> SmtpResult.t -> Prop) r w' t :
  run_of host email domain w P ->
  probe host email domain w = (inr r, w') ->
  history w' = (history w ++ t)%list ->
  P t r.
Proof.
  intros H E Ht. destruct (run_of_inv _ _ _ _ _ _ _ H E) as [t' [Ht' HP]].
  rewrite Ht' in Ht. apply app_inv_head in Ht. subst t'. exact HP.
Qed.

Lemma probe_commands host email domain w :
  run_of host email domain w
    (fun t r =>
       exists helo rest,
         (sent t ++ rest)%list
         = commands helo email (random_lower w (draws w) ++ "@" ++ domain)
         \/ (sent t ++ rest)%list = commands_rejected helo).
Proof.
  unfold run_of. probe_cases w; cbn [sent];
    first [ exists false; eexists; left; reflexivity
          | exists true; eexists; left; reflexivity
          | exists false; eexists; right; reflexivity
          | exists true; eexists; right; reflexivity ].
Qed.

Lemma probe_bounded host email domain w :
  run_of host email domain w
    (fun t r => (List.length t <= 14)%nat /\ resolved t = []).
Proof.
  unfold run_of. probe_cases w; cbn [List.length resolved]; (split; [lia | reflexivity]).
Qed.

Lemma probe_bad_greeting host email domain w :
  run_of host email domain w
    (fun t r =>
       forall g t',
         t = Connect host true :: Recv (Some g) :: t' ->
         startswith g "220" = false ->
         t' = [Close]
         /\ r = SmtpResult.set_message ("Bad greeting: " ++ g) (SmtpResult.initial host)).
Proof.
  unfold run_of. probe_cases w; intros g t' H Hg;
    try discriminate H; inversion H; subst;
    first [ congruence | split; reflexivity ].
Qed.

(** Property X1 ([smtp_check]).  Whatever the server does, the fields of the
    dictionary [smtp_check] returns agree with one another: [success] comes
    with the code 250, 251 or 252; [definitive_failure] comes with the code
    550, 551 or 553 and without [success]; [catch_all] comes with
    [success]; [success] without [catch_all] comes with 250 or 251; and
    [mx_host] is the host that was asked. *)
Theorem outcome_flags_and_code host email domain w r w' :
  probe host email domain w = (inr r, w') ->
  (SmtpResult.success r = true ->
   In (SmtpResult.smtp_code r) [Some "250"; Some "251"; Some "252"])
  /\ (SmtpResult.definitive_failure r = true ->
      In (SmtpResult.smtp_code r) [Some "550"; Some "551"; Some "553"])
  /\ (SmtpResult.catch_all r = true -> SmtpResult.success r = true)
  /\ (SmtpResult.success r = true -> SmtpResult.catch_all r = false ->
      In (SmtpResult.smtp_code r) [Some "250"; Some "251"])
  /\ (SmtpResult.definitive_failure r = true -> SmtpResult.success r = false)
  /\ SmtpResult.mx_host r = host.
Proof.
  intros E.
  destruct (run_of_inv _ _ _ _ _ _ _ (probe_codes host email domain w) E)
    as [t [_ [H1 [H2 [H3 [H4 H5]]]]]].
  repeat split; try assumption.
  apply (probe_definitive _ _ _ _ _ _ E).
Qed.

Lemma outcome_flags_and_code_witness :
  let r := outcome (probe "b" "user@example.com" "example.com" scenario_C) in
  (SmtpResult.success r = true ->
   In (SmtpResult.smtp_code r) [Some "250"; Some "251"; Some "252"])
  /\ (SmtpResult.definitive_failure r = true ->
      In (SmtpResult.smtp_code r) [Some "550"; Some "551"; Some "553"])
  /\ (SmtpResult.catch_all r = true -> SmtpResult.success r = true)
  /\ (SmtpResult.success r = true -> SmtpResult.catch_all r = false ->
      In (SmtpResult.smtp_code r) [Some "250"; Some "251"])
  /\ (SmtpResult.definitive_failure r = true -> SmtpResult.success r = false)
  /\ SmtpResult.mx_host r = "b".
Proof.
  apply (outcome_flags_and_code "b" "user@example.com" "example.com" scenario_C
           (outcome (probe "b" "user@example.com" "example.com" scenario_C))
           (snd (probe "b" "user@example.com" "example.com" scenario_C))).
  vm_compute. reflexivity.
Defined.

(** Property X2 ([smtp_check]).  The commands one conversation sends are, in
    this order, the start of EHLO, HELO (optional), MAIL FROM, RCPT TO for
    the address, RCPT TO for the random address, QUIT, or the start of
    EHLO, HELO (optional), MAIL FROM, QUIT.  Nothing else is ever sent. *)
Theorem commands_in_order host email domain w r w' t :
  probe host email domain w = (inr r, w') ->
  history w' = (history w ++ t)%list ->
  exists helo rest,
    (sent t ++ rest)%list
    = commands helo email (random_lower w (draws w) ++ "@" ++ domain)
    \/ (sent t ++ rest)%list = commands_rejected helo.
Proof.
  intros E Ht.
  exact (run_of_events _ _ _ _ _ _ _ _ (probe_commands host email domain w) E Ht).
Qed.

Lemma commands_in_order_witness :
  exists helo rest,
    (sent (history (snd (probe "b" "user@example.com" "example.com" ehlo_reply_timeout)))
       ++ rest)%list
    = commands helo "user@example.com" ("qwertyuiopasdfghjklz" ++ "@" ++ "example.com")
    \/ (sent (history (snd (probe "b" "user@example.com" "example.com" ehlo_reply_timeout)))
          ++ rest)%list
       = commands_rejected helo.
Proof.
  apply (commands_in_order "b" "user@example.com" "example.com" ehlo_reply_timeout
           (outcome (probe "b" "user@example.com" "example.com" ehlo_reply_timeout))
           (snd (probe "b" "user@example.com" "example.com" ehlo_reply_timeout)));
    vm_compute; reflexivity.
Defined.

(** Property X3 ([smtp_check]).  One call makes at most 14 socket calls
    (connect, send, recv, close), sets up at most one connection, for the
    host it was given and for no other, and never calls the MX resolver
    [dns.resolver.resolve]. *)
Theorem conversation_is_bounded host email domain w r w' t :
  probe host email domain w = (inr r, w') ->
  history w' = (history w ++ t)%list ->
  (List.length t <= 14)%nat
  /\ (List.length (contacted t) <= 1)%nat
  /\ (forall h, In h (contacted t) -> h = host)
  /\ resolved t = [].
Proof.
  intros E Ht.
  destruct (run_of_events _ _ _ _ _ _ _ _ (probe_bounded host email domain w) E Ht) as [Hl Hr].
  destruct (run_of_events _ _ _ _ _ _ _ _ (probe_first_event host email domain w) E Ht)
    as [ok [t' [-> Hc]]].
  split; [exact Hl|]. cbn [contacted]. rewrite Hc.
  split; [simpl; lia|]. split; [|exact Hr].
  intros h [H | []]. symmetry. exact H.
Qed.

Lemma conversation_is_bounded_witness :
  (List.length (history (snd (probe "b" "user@example.com" "example.com" scenario_D)))
   <= 14)%nat
  /\ (List.length
        (contacted (history (snd (probe "b" "user@example.com" "example.com" scenario_D))))
      <= 1)%nat
  /\ (forall h,
         In h (contacted
                 (history (snd (probe "b" "user@example.com" "example.com" scenario_D)))) ->
         h = "b")
  /\ resolved (history (snd (probe "b" "user@example.com" "example.com" scenario_D))) = [].
Proof.
  apply (conversation_is_bounded "b" "user@example.com" "example.com" scenario_D
           (outcome (probe "b" "user@example.com" "example.com" scenario_D))
           (snd (probe "b" "user@example.com" "example.com" scenario_D)));
    vm_compute; reflexivity.
Defined.

(** Property X4 ([smtp_check]).  When the greeting read after a successful
    connect does not start with 220, the only operation that follows is
    the close of the socket: nothing is sent, not even QUIT.  The result is
    the initial one with the message "Bad greeting: " and the greeting. *)
Theorem bad_greeting_ends_conversation host email domain w r w' g t :
  probe host email domain w = (inr r, w') ->
  history w' = (history w ++ Connect host true :: Recv (Some g) :: t)%list ->
  startswith g "220" = false ->
  t = [Close]
  /\ r = SmtpResult.set_message ("Bad greeting: " ++ g) (SmtpResult.initial host).
Proof.
  intros E Ht Hg.
  exact (run_of_events _ _ _ _ _ _ _ _ (probe_bad_greeting host email domain w) E Ht
           g t eq_refl Hg).
Qed.

Lemma bad_greeting_ends_conversation_witness :
  outcome (probe "b" "user@example.com" "example.com" bad_greeting)
  = SmtpResult.set_message ("Bad greeting: " ++ "554 no service") (SmtpResult.initial "b").
Proof.
  refine (proj2 (bad_greeting_ends_conversation
                   "b" "user@example.com" "example.com" bad_greeting
                   (outcome (probe "b" "user@example.com" "example.com" bad_greeting))
                   (snd (probe "b" "user@example.com" "example.com" bad_greeting))
                   "554 no service" [Close] _ _ _));
    vm_compute; reflexivity.
Defined.

Lemma probe_close host email domain w :
  run_of host email domain w
    (fun t r => (In Close t <-> existsb raised t = false)
                /\ (In Close t -> exists t', t = (t' ++ [Close])%list /\ ~ In Close t')).
Proof.
  unfold run_of. probe_cases w.
  all: split;
    [ split; intros H;
      [ first [ reflexivity | exfalso; simpl in H; solve [intuition discriminate] ]
      | first [ discriminate H | simpl; solve [intuition] ] ]
    | intros H;
      first [ exfalso; simpl in H; solve [intuition discriminate]
            | match goal with
              | |- exists t', ?t = _ /\ _ => exists (removelast t)
              end;
              split; [reflexivity | simpl; solve [intuition discriminate]] ] ].
Qed.

(** Property X5 ([smtp_check]).  The probe calls [sock.close()] exactly
    when none of its socket calls raised: the normal exits close the
    socket as their last operation, once, and the [except] handlers never
    do. *)
Theorem close_exactly_without_exception host email domain w r w' t :
  probe host email domain w = (inr r, w') ->
  history w' = (history w ++ t)%list ->
  (In Close t <-> existsb raised t = false)
  /\ (In Close t -> exists t', t = (t' ++ [Close])%list /\ ~ In Close t').
Proof.
  intros E Ht.
  exact (run_of_events _ _ _ _ _ _ _ _ (probe_close host email domain w) E Ht).
Qed.

Lemma close_exactly_without_exception_witness :
  (In Close (history (snd (probe "b" "user@example.com" "example.com" scenario_D)))
   <-> existsb raised
         (history (snd (probe "b" "user@example.com" "example.com" scenario_D)))
       = false)
  /\ (In Close
        (history (snd (probe "b" "user@example.com" "example.com" scenario_D))) ->
      exists t',
        history (snd (probe "b" "user@example.com" "example.com" scenario_D))
        = (t' ++ [Close])%list
        /\ ~ In Close t').
Proof.
  apply (close_exactly_without_exception "b" "user@example.com" "example.com"
           scenario_D
           (outcome (probe "b" "user@example.com" "example.com" scenario_D))
           (snd (probe "b" "user@example.com" "example.com" scenario_D)));
    vm_compute; reflexivity.
Defined.

(* ================================================================== *)
(** * Further properties of [verify_email] *)

Lemma resolved_app a b : resolved (a ++ b)%list = (resolved a ++ resolved b)%list.
Proof.
  induction a as [|ev a IH]; [reflexivity|].
  destruct ev; simpl; rewrite IH; reflexivity.
Qed.

(** How the loop can end, and what it logs. *)
Lemma for_mx_hosts_cases email domain hosts : forall resp w l,
  exists x w' l' t,
    for_mx_hosts email domain hosts resp (w, l) = (inr x, (w', l'))
    /\ history w' = (history w ++ t)%list
    /\ resolved t = []
    /\ match x with
       | Returned =>
           exists r, l' = rejected r l /\ probed email r
                     /\ SmtpResult.definitive_failure r = true
                     /\ SmtpResult.success r = false
       | Finished true resp' c =>
           l' = l /\ exists r, resp' = RespResult r /\ probed email r
                               /\ SmtpResult.success r = true
                               /\ c = SmtpResult.catch_all r
       | Finished false resp' c =>
           l' = l /\ c = false
           /\ ((hosts = [] /\ resp' = resp)
               \/ exists r, resp' = RespResult r /\ probed email r /\ inconclusive r)
       end.
Proof.
  induction hosts as [|[p h] hosts IH]; intros resp w l.
  - exists (Finished false resp false), w, l, []. simpl. rewrite app_nil_r.
    repeat split. left. split; reflexivity.
  - destruct (probe_returns h email domain w) as [r [w1 E]].
    assert (Hp : probed email r) by (exists h, domain, w, w1; exact E).
    destruct (run_of_inv _ _ _ _ _ _ _ (probe_bounded h email domain w) E)
      as [t1 [Ht1 [_ Hr1]]].
    simpl. unfold bind at 1. rewrite (try_host_run _ _ _ _ _ _ _ E).
    destruct (SmtpResult.success r) eqn:Hs;
      [| destruct (SmtpResult.definitive_failure r) eqn:Hd ].
    + exists (Finished true (RespResult r) (SmtpResult.catch_all r)), w1, l, t1.
      repeat split; try assumption. exists r. repeat split; assumption.
    + exists Returned, w1, (rejected r l), t1.
      repeat split; try assumption. exists r. repeat split; assumption.
    + destruct (IH (RespResult r) w1 l) as [x [w' [l' [t2 [E' [Ht2 [Hr2 Hx]]]]]]].
      exists x, w', l', (t1 ++ t2)%list.
      split; [exact E'|]. split; [rewrite Ht2, Ht1, app_assoc; reflexivity|].
      split; [rewrite resolved_app, Hr1, Hr2; reflexivity|].
      destruct x as [|[|] resp' c]; try exact Hx.
      destruct Hx as [Hl [Hc [[Hh Hresp] | Hx]]].
      * subst. split; [reflexivity|]. split; [reflexivity|]. right.
        exists r. split; [reflexivity | split; [assumption | split; assumption]].
      * split; [assumption|]. split; [assumption|]. right. exact Hx.
Qed.

Lemma history_record ev w : history (record ev w) = (history w ++ [ev])%list.
Proof. reflexivity. Qed.

(** Every call of [verify_email] is one of the runs. *)
Lemma verify_email_run email w :
  exists res w' t,
    verify_email email w = (inr res, w')
    /\ history w' = (history w ++ t)%list
    /\ VerifyResult.email res = email
    /\ run email w res t.
Proof.
  destruct (Re.re_match Re.email_regex email) eqn:Hm.
  - destruct (domain_exists email Hm) as [domain Hd].
    destruct (resolve_mx w domain) as [e | answer] eqn:Hr.
    + unfold verify_email, verify_email_body. rewrite Hm.
      cbn [negb]. unfold bind, modify, index. rewrite Hd.
      unfold lookup_mx, try_except, bind, dns_resolve, ret, modify, get.
      cbn [fst snd]. rewrite Hr.
      destruct (cls e); cbn [fst snd]; eexists; eexists; exists [Resolve domain];
        (split; [reflexivity|]); (split; [apply history_record|]);
        (split; [reflexivity|]);
        apply (lookup_failed _ _ _ _ domain e); try reflexivity; auto.
    + rewrite (verify_email_hosts email domain answer w Hm Hd Hr).
      unfold verify_hosts.
      destruct (sorted (map mx_tuple answer)) as [|h hosts] eqn:Hs.
      * assert (answer = []) as ->.
        { destruct answer as [|a answer]; [reflexivity|].
          exfalso. apply (Permutation_nil_cons (l := map mx_tuple answer) (x := mx_tuple a)).
          rewrite <- Hs. apply Permutation_sym, (sorted_perm (map mx_tuple (a :: answer))). }
        eexists; eexists; exists [Resolve domain]. split; [reflexivity|].
        split; [apply history_record|]. split; [reflexivity|].
        apply (no_hosts _ _ _ _ domain); try reflexivity; assumption.
      * destruct (for_mx_hosts_cases email domain (h :: hosts) RespNone
                    (looked_up domain w) (after_lookup email (h :: hosts)))
          as [x [w' [l' [t [E [Ht [Hrt Hx]]]]]]].
        unfold looked_up in Ht. rewrite history_record, <- app_assoc in Ht.
        unfold bind at 1. rewrite E. destruct x as [|v resp c].
        -- destruct Hx as [r [-> [Hp [Hdef Hsu]]]].
           eexists; eexists; exists ([Resolve domain] ++ t)%list.
           split; [reflexivity|]. split; [exact Ht|]. split; [reflexivity|].
           apply (hosts_tried _ _ _ _ domain answer t r); try reflexivity; try assumption.
           ++ rewrite Hs. reflexivity.
           ++ right; left. repeat split; assumption.
        -- destruct (conclude_run v resp c w' l') as [res [Ec _]].
           rewrite Ec. exists res, w', ([Resolve domain] ++ t)%list.
           split; [reflexivity|]. split; [exact Ht|].
           unfold conclude, bind, modify, get in Ec. cbn [fst snd] in Ec.
           destruct v.
           ++ destruct Hx as [-> [r [-> [Hp [Hsu ->]]]]].
              destruct (SmtpResult.catch_all r) eqn:Hc; cbn [fst snd] in Ec;
                inversion Ec; subst res; clear Ec; (split; [reflexivity|]);
                apply (hosts_tried _ _ _ _ domain answer t r);
                try reflexivity; try assumption;
                try (rewrite Hs; reflexivity);
                right; right; rewrite Hc; repeat split; assumption.
           ++ destruct Hx as [-> [-> [[Hh _] | [r [-> [Hp Hi]]]]]]; [discriminate Hh|].
              cbn [fst snd] in Ec. inversion Ec; subst res; clear Ec.
              split; [reflexivity|].
              apply (hosts_tried _ _ _ _ domain answer t r);
                try reflexivity; try assumption;
                try (rewrite Hs; reflexivity).
              left. repeat split; try reflexivity; apply Hi.
  - exists (VerifyResult.set_status invalid
              (VerifyResult.set_message "Invalid email syntax" (VerifyResult.initial email))),
      w, [].
    split; [unfold verify_email, verify_email_body; rewrite Hm; reflexivity|].
    split; [now rewrite app_nil_r|]. split; [reflexivity|].
    apply bad_syntax; [assumption | reflexivity | reflexivity].
Qed.

(* ================================================================== *)
(** * The meaning of the patterns *)

Lemma append_nil_r s : s ++ "" = s.
Proof. induction s as [|c s IH]; simpl; [reflexivity | now rewrite IH]. Qed.

Lemma append_assoc s1 s2 s3 : (s1 ++ s2) ++ s3 = s1 ++ (s2 ++ s3).
Proof. induction s1 as [|c s1 IH]; simpl; [reflexivity | now rewrite IH]. Qed.

Lemma append_eq_nil s1 s2 : s1 ++ s2 = "" -> s1 = "" /\ s2 = "".
Proof. destruct s1; simpl; [auto | discriminate]. Qed.

Lemma length_append s1 s2 :
  String.length (s1 ++ s2) = (String.length s1 + String.length s2)%nat.
Proof. induction s1 as [|c s1 IH]; simpl; [reflexivity | now rewrite IH]. Qed.

Lemma nullable_lang r : Re.nullable r = true <-> lang r "".
Proof.
  split.
  - induction r; simpl; intros H; try discriminate.
    + constructor.
    + apply andb_true_iff in H. destruct H as [H1 H2].
      change "" with ("" ++ ""). constructor; auto.
    + apply orb_true_iff in H. destruct H as [H | H];
        [apply lang_alt_l | apply lang_alt_r]; auto.
    + constructor.
  - intros H. remember "" as s eqn:Es.
    induction H; simpl; try discriminate Es; try reflexivity.
    + apply append_eq_nil in Es. destruct Es as [E1 E2].
      rewrite IHlang1, IHlang2 by assumption. reflexivity.
    + rewrite IHlang by assumption. reflexivity.
    + rewrite IHlang by assumption. apply orb_true_r.
Qed.

Lemma deriv_sound c r : forall s, lang (Re.deriv c r) s -> lang r (String c s).
Proof.
  induction r; simpl; intros s H.
  - inversion H.
  - inversion H.
  - destruct (Ascii.eqb c c0) eqn:E; inversion H; subst.
    apply Ascii.eqb_eq in E. subst. constructor.
  - destruct (p c) eqn:E; inversion H; subst. constructor. exact E.
  - inversion H; subst.
    + match goal with H' : lang (Re.Cat _ _) _ |- _ => inversion H'; subst end.
      change (String c (s1 ++ s2)) with (String c s1 ++ s2).
      constructor; auto.
    + destruct (Re.nullable r1) eqn:E.
      * change (String c s) with ("" ++ String c s).
        constructor; [apply nullable_lang; exact E | auto].
      * match goal with H' : lang Re.Void _ |- _ => inversion H' end.
  - inversion H; subst; [apply lang_alt_l | apply lang_alt_r]; auto.
  - inversion H; subst.
    change (String c (s1 ++ s2)) with (String c s1 ++ s2).
    constructor; auto.
Qed.

Lemma deriv_complete r s0 :
  lang r s0 -> forall a u, s0 = String a u -> lang (Re.deriv a r) u.
Proof.
  induction 1 as [ | c | p c Hp | r1 r2 s1 s2 H1 IH1 H2 IH2 | r1 r2 s H IH
                 | r1 r2 s H IH | r | r s1 s2 H1 IH1 H2 IH2 ];
    intros a u Es; simpl.
  - discriminate Es.
  - inversion Es; subst. rewrite Ascii.eqb_refl. constructor.
  - inversion Es; subst. rewrite Hp. constructor.
  - destruct s1 as [|b s1]; simpl in Es.
    + apply lang_alt_r. rewrite (proj2 (nullable_lang r1) H1). auto.
    + inversion Es; subst. apply lang_alt_l. constructor; auto.
  - apply lang_alt_l. auto.
  - apply lang_alt_r. auto.
  - discriminate Es.
  - destruct s1 as [|b s1]; simpl in Es.
    + apply IH2 in Es. simpl in Es. exact Es.
    + inversion Es; subst. constructor; auto.
Qed.

(** The matcher decides [lang]. *)
Lemma fullmatch_lang s : forall r, Re.fullmatch r s = true <-> lang r s.
Proof.
  induction s as [|c s IH]; intros r; simpl.
  - apply nullable_lang.
  - rewrite IH. split; [apply deriv_sound | intros H; exact (deriv_complete _ _ H c s eq_refl)].
Qed.

Lemma lang_star_class p s : lang (Re.Star (Re.Class p)) s <-> all_in p s = true.
Proof.
  split.
  - intros H. remember (Re.Star (Re.Class p)) as r eqn:Er.
    induction H; inversion Er; subst; [reflexivity|].
    inversion H; subst. simpl.
    rewrite IHlang2 by reflexivity.
    match goal with H' : p _ = true |- _ => rewrite H' end. reflexivity.
  - induction s as [|c s IH]; simpl; intros H; [constructor|].
    apply andb_true_iff in H. destruct H as [H1 H2].
    change (String c s) with (String c "" ++ s).
    constructor; [constructor; exact H1 | auto].
Qed.

Lemma lang_plus_class p s :
  lang (Re.Plus (Re.Class p)) s <-> s <> "" /\ all_in p s = true.
Proof.
  unfold Re.Plus. split.
  - intros H. inversion H; subst.
    match goal with H' : lang (Re.Class _) _ |- _ => inversion H'; subst end.
    simpl. split; [discriminate|].
    match goal with H' : p _ = true |- _ => rewrite H' end.
    apply lang_star_class. assumption.
  - intros [Hn H]. destruct s as [|c s]; [contradiction|].
    simpl in H. apply andb_true_iff in H. destruct H as [H1 H2].
    change (String c s) with (String c "" ++ s).
    constructor; [constructor; exact H1 | apply lang_star_class; exact H2].
Qed.

Lemma lang_atleast2_class p s :
  lang (Re.AtLeast2 (Re.Class p)) s <-> (2 <= String.length s)%nat /\ all_in p s = true.
Proof.
  unfold Re.AtLeast2. split.
  - intros H. inversion H; subst.
    match goal with H' : lang (Re.Class _) _ |- _ => inversion H'; subst end.
    match goal with H' : lang (Re.Cat _ _) _ |- _ =>
      apply (lang_plus_class p) in H'; destruct H' as [Hn Ha] end.
    simpl. match goal with H' : p _ = true |- _ => rewrite H' end.
    split; [|exact Ha]. destruct s2; [contradiction | simpl; lia].
  - intros [Hl H]. destruct s as [|c s]; [simpl in Hl; lia|].
    simpl in H. apply andb_true_iff in H. destruct H as [H1 H2].
    change (String c s) with (String c "" ++ s).
    constructor; [constructor; exact H1|].
    apply (lang_plus_class p). split; [|exact H2].
    destruct s; [simpl in Hl; lia | discriminate].
Qed.

Lemma lang_chr_inv c s : lang (Re.Chr c) s -> s = String c "".
Proof. intros H. inversion H. reflexivity. Qed.

Lemma fullmatch_email_shape s :
  Re.fullmatch Re.email_regex s = true <-> email_shape s.
Proof.
  rewrite fullmatch_lang. unfold Re.email_regex, email_shape. split.
  - intros H. inversion H as [| | |? ? l s1 Hl H1| | | |]; subst; clear H.
    inversion H1 as [| | |? ? a s2 Ha H2| | | |]; subst; clear H1.
    inversion H2 as [| | |? ? d s3 Hd H3| | | |]; subst; clear H2.
    inversion H3 as [| | |? ? b t Hb Ht| | | |]; subst; clear H3.
    apply lang_chr_inv in Ha, Hb. subst.
    apply lang_plus_class in Hl, Hd. apply lang_atleast2_class in Ht.
    exists l, d, t. tauto.
  - intros [l [d [t [-> [Hl [Hla [Hd [Hda [Ht Hta]]]]]]]]].
    constructor; [apply lang_plus_class; auto|].
    constructor; [constructor|].
    constructor; [apply lang_plus_class; auto|].
    constructor; [constructor|].
    apply lang_atleast2_class; auto.
Qed.

Lemma chop_newline_append s : Re.chop_newline (s ++ NL) = Some s.
Proof.
  induction s as [|c s IH]; [reflexivity|].
  simpl. simpl in IH. rewrite IH. destruct (s ++ NL) eqn:E; [|reflexivity].
  destruct s; discriminate E.
Qed.

Lemma chop_newline_inv s : forall s', Re.chop_newline s = Some s' -> s = s' ++ NL.
Proof.
  induction s as [|c s IH]; intros s' H; simpl in H; [discriminate|].
  destruct s as [|d s].
  - destruct (Ascii.eqb c Re.newline) eqn:E; inversion H; subst.
    apply Ascii.eqb_eq in E. subst c. reflexivity.
  - destruct (Re.chop_newline (String d s)) as [u|] eqn:Eu; inversion H; subst.
    simpl. rewrite <- (IH u eq_refl). reflexivity.
Qed.

Lemma chop_newline_spec s s' : Re.chop_newline s = Some s' <-> s = s' ++ NL.
Proof.
  split; [apply chop_newline_inv | intros ->; apply chop_newline_append].
Qed.

(** What the syntax gate accepts. *)
Lemma re_match_email_shape s :
  Re.re_match Re.email_regex s = true
  <-> email_shape s \/ exists s', s = s' ++ NL /\ email_shape s'.
Proof.
  unfold Re.re_match. rewrite orb_true_iff, fullmatch_email_shape. split.
  - intros [H | H]; [left; exact H | right].
    destruct (Re.chop_newline s) as [s'|] eqn:E; [|discriminate].
    exists s'. split; [apply chop_newline_spec; exact E | apply fullmatch_email_shape; exact H].
  - intros [H | [s' [Hs H]]]; [left; exact H | right].
    apply chop_newline_spec in Hs. rewrite Hs. apply fullmatch_email_shape. exact H.
Qed.

(** Property X6 ([verify_email], the syntax check).  [re.match] with the
    pattern of [verify_email] accepts exactly the strings
    local@domain.tld, with a non-empty local part over [a-zA-Z0-9._%+-], a
    non-empty domain over [a-zA-Z0-9.-] and a final label of two letters
    or more, and these strings followed by one newline. *)
Theorem syntax_gate_accepts_exactly s :
  Re.re_match Re.email_regex s = true
  <-> email_shape s \/ exists s', s = s' ++ NL /\ email_shape s'.
Proof. apply re_match_email_shape. Qed.

Lemma mem_append a s1 s2 : Str.mem a (s1 ++ s2) = Str.mem a s1 || Str.mem a s2.
Proof.
  induction s1 as [|c s1 IH]; simpl; [reflexivity|].
  rewrite IH. apply orb_assoc.
Qed.

Lemma all_in_mem p a s : all_in p s = true -> p a = false -> Str.mem a s = false.
Proof.
  intros H Ha. induction s as [|c s IH]; simpl in *; [reflexivity|].
  apply andb_true_iff in H. destruct H as [Hc Hs].
  rewrite (IH Hs), orb_false_r.
  destruct (Ascii.eqb c a) eqn:E; [|reflexivity].
  apply Ascii.eqb_eq in E. congruence.
Qed.

Lemma split_without sep s : Str.mem sep s = false -> Str.split sep s = [s].
Proof.
  induction s as [|c s IH]; simpl; intros H; [reflexivity|].
  apply orb_false_iff in H. destruct H as [Hc Hs].
  rewrite Hc, (IH Hs). reflexivity.
Qed.

Lemma split_append sep l r :
  Str.mem sep l = false ->
  Str.split sep (l ++ String sep r) = l :: Str.split sep r.
Proof.
  induction l as [|c l IH]; simpl; intros H.
  - rewrite Ascii.eqb_refl. reflexivity.
  - apply orb_false_iff in H. destruct H as [Hc Hl].
    rewrite Hc, (IH Hl). reflexivity.
Qed.

(** The two parts of a string of the shape [local@domain.tld], with
    [tail] after it. *)
Lemma email_shape_split s tail :
  email_shape s -> Str.mem "@" tail = false ->
  exists l dom,
    Str.split "@" (s ++ tail) = [l; dom ++ tail]
    /\ Str.split "@" s = [l; dom]
    /\ l <> "" /\ Str.mem "@" dom = false /\ Str.mem "." dom = true.
Proof.
  intros [l [d [t [-> [Hl [Hla [Hd [Hda [Ht Hta]]]]]]]]] Htail.
  assert (Hl0 : Str.mem "@" l = false) by (apply (all_in_mem _ _ _ Hla); reflexivity).
  assert (Hd0 : Str.mem "@" d = false) by (apply (all_in_mem _ _ _ Hda); reflexivity).
  assert (Ht0 : Str.mem "@" t = false) by (apply (all_in_mem _ _ _ Hta); reflexivity).
  assert (Hdom : Str.mem "@" (d ++ "." ++ t) = false).
  { rewrite mem_append, Hd0. simpl. exact Ht0. }
  exists l, (d ++ "." ++ t).
  split; [|split; [|split; [exact Hl | split; [exact Hdom|]]]].
  - rewrite append_assoc. change ("@" ++ (d ++ "." ++ t)) with (String "@" (d ++ "." ++ t)).
    change (String "@" (d ++ "." ++ t) ++ tail) with (String "@" ((d ++ "." ++ t) ++ tail)).
    rewrite (split_append _ _ _ Hl0), split_without; [reflexivity|].
    rewrite mem_append, Hdom. exact Htail.
  - change ("@" ++ (d ++ "." ++ t)) with (String "@" (d ++ "." ++ t)).
    rewrite (split_append _ _ _ Hl0), (split_without _ _ Hdom). reflexivity.
  - rewrite mem_append. simpl. apply orb_true_r.
Qed.

(** Property X7 ([verify_email], the domain).  An address that passes the
    syntax check has exactly one at sign: [email.split('@')] has two
    pieces, so [email.split('@')[1]] raises nothing and is all of what
    follows the local part; the local part is not empty and the domain
    holds a dot. *)
Theorem accepted_address_has_one_at email :
  Re.re_match Re.email_regex email = true ->
  exists l dom,
    Str.split "@" email = [l; dom]
    /\ l <> "" /\ Str.mem "@" dom = false /\ Str.mem "." dom = true.
Proof.
  intros H. apply re_match_email_shape in H. destruct H as [H | [s' [-> H]]].
  - destruct (email_shape_split email "" H eq_refl) as [l [dom [_ [E R]]]].
    exists l, dom. split; assumption.
  - destruct (email_shape_split s' NL H eq_refl) as [l [dom [E [_ [Hl [Ha Hd]]]]]].
    exists l, (dom ++ NL). split; [exact E|]. split; [exact Hl|].
    rewrite !mem_append, Ha, Hd. split; reflexivity.
Qed.

Lemma accepted_address_has_one_at_witness :
  exists l dom,
    Str.split "@" "user@example.com" = [l; dom]
    /\ l <> "" /\ Str.mem "@" dom = false /\ Str.mem "." dom = true.
Proof. apply (accepted_address_has_one_at "user@example.com"). vm_compute. reflexivity. Defined.

(* ================================================================== *)
(** * Invariants of the result of [verify_email] *)

Lemma verify_email_inv email w x w' :
  verify_email email w = (x, w') ->
  exists res t,
    x = inr res
    /\ history w' = (history w ++ t)%list
    /\ VerifyResult.email res = email
    /\ run email w res t.
Proof.
  intros E. destruct (verify_email_run email w) as [res [w1 [t [E1 [Ht [He Hr]]]]]].
  rewrite E1 in E. inversion E; subst. exists res, t. auto.
Qed.

Lemma probed_codes email r :
  probed email r ->
  (SmtpResult.success r = true ->
   In (SmtpResult.smtp_code r) [Some "250"; Some "251"; Some "252"])
  /\ (SmtpResult.definitive_failure r = true ->
      In (SmtpResult.smtp_code r) [Some "550"; Some "551"; Some "553"])
  /\ (SmtpResult.catch_all r = true -> SmtpResult.success r = true)
  /\ (SmtpResult.success r = true -> SmtpResult.catch_all r = false ->
      In (SmtpResult.smtp_code r) [Some "250"; Some "251"]).
Proof.
  intros [h [domain [w0 [w1 E]]]].
  destruct (run_of_inv _ _ _ _ _ _ _ (probe_codes h email domain w0) E)
    as [t [_ [H1 [H2 [H3 [H4 _]]]]]].
  auto.
Qed.

(** Property X12 ([verify_email], status valid).  The status [valid] comes
    only with [syntax_valid], [mx_found] and [smtp_check] all true, the
    score 100 and a server reply that accepted the address (code 250 or
    251) without being a catch-all. *)
Theorem valid_means_accepted email w res w' :
  verify_email email w = (inr res, w') ->
  VerifyResult.status res = valid ->
  VerifyResult.syntax_valid res = true
  /\ VerifyResult.mx_found res = true
  /\ VerifyResult.smtp_check res = true
  /\ VerifyResult.score res = 100%Z
  /\ exists r,
       VerifyResult.smtp_response res = RespResult r
       /\ SmtpResult.success r = true
       /\ SmtpResult.catch_all r = false
       /\ In (SmtpResult.smtp_code r) [Some "250"; Some "251"].
Proof.
  intros E Hst. destruct (verify_email_inv _ _ _ _ E) as [res' [t [Hx [_ [_ Hr]]]]].
  inversion Hx; subst res'; clear Hx.
  destruct Hr as [Hm -> _ | d e _ _ _ _ _ _ _ _ [H | H] _ | d _ _ _ _ _ _ _ _ H _
                 | d answer t' r _ _ _ _ Hsy Hmx _ Hresp Hp Hc ];
    try (rewrite Hst in H; discriminate H); try discriminate Hst.
  destruct Hc as [[_ [_ [H _]]] | [[_ [_ [_ [H _]]]] | [Hs [Hck [H Hsc]]]]];
    try (rewrite Hst in H; discriminate H).
  destruct (SmtpResult.catch_all r) eqn:Hcat; [rewrite Hst in H; discriminate H|].
  repeat split; try assumption.
  exists r. repeat split; try assumption.
  apply (probed_codes email r Hp); assumption.
Qed.

Lemma valid_means_accepted_witness :
  let res := returned (verify_email "user@example.com" scenario_B) in
  VerifyResult.syntax_valid res = true
  /\ VerifyResult.mx_found res = true
  /\ VerifyResult.smtp_check res = true
  /\ VerifyResult.score res = 100%Z
  /\ exists r,
       VerifyResult.smtp_response res = RespResult r
       /\ SmtpResult.success r = true
       /\ SmtpResult.catch_all r = false
       /\ In (SmtpResult.smtp_code r) [Some "250"; Some "251"].
Proof.
  apply (valid_means_accepted "user@example.com" scenario_B
           (returned (verify_email "user@example.com" scenario_B))
           (snd (verify_email "user@example.com" scenario_B)));
    vm_compute; reflexivity.
Defined.

(** Property X13 ([verify_email], status risky).  The status [risky] comes
    only with [smtp_check] true, the score 80 and a server reply with
    [success] and [catch_all] both true (code 250, 251 or 252). *)
Theorem risky_means_catch_all email w res w' :
  verify_email email w = (inr res, w') ->
  VerifyResult.status res = risky ->
  VerifyResult.smtp_check res = true
  /\ VerifyResult.score res = 80%Z
  /\ exists r,
       VerifyResult.smtp_response res = RespResult r
       /\ SmtpResult.success r = true
       /\ SmtpResult.catch_all r = true
       /\ In (SmtpResult.smtp_code r) [Some "250"; Some "251"; Some "252"].
Proof.
  intros E Hst. destruct (verify_email_inv _ _ _ _ E) as [res' [t [Hx [_ [_ Hr]]]]].
  inversion Hx; subst res'; clear Hx.
  destruct Hr as [Hm -> _ | d e _ _ _ _ _ _ _ _ [H | H] _ | d _ _ _ _ _ _ _ _ H _
                 | d answer t' r _ _ _ _ Hsy Hmx _ Hresp Hp Hc ];
    try (rewrite Hst in H; discriminate H); try discriminate Hst.
  destruct Hc as [[_ [_ [H _]]] | [[_ [_ [_ [H _]]]] | [Hs [Hck [H Hsc]]]]];
    try (rewrite Hst in H; discriminate H).
  destruct (SmtpResult.catch_all r) eqn:Hcat; [|rewrite Hst in H; discriminate H].
  repeat split; try assumption.
  exists r. repeat split; try assumption.
  apply (probed_codes email r Hp); assumption.
Qed.

Lemma risky_means_catch_all_witness :
  let res := returned (verify_email "user@example.com" scenario_C) in
  VerifyResult.smtp_check res = true
  /\ VerifyResult.score res = 80%Z
  /\ exists r,
       VerifyResult.smtp_response res = RespResult r
       /\ SmtpResult.success r = true
       /\ SmtpResult.catch_all r = true
       /\ In (SmtpResult.smtp_code r) [Some "250"; Some "251"; Some "252"].
Proof.
  apply (risky_means_catch_all "user@example.com" scenario_C
           (returned (verify_email "user@example.com" scenario_C))
           (snd (verify_email "user@example.com" scenario_C)));
    vm_compute; reflexivity.
Defined.

(** Property X14 ([verify_email], status invalid).  The status [invalid] has
    one of three causes: the syntax check failed (score 0); the MX lookup
    failed (score 20); or a server rejected the address for good (score
    50, a reply with [definitive_failure] and the code 550, 551 or 553). *)
Theorem invalid_has_a_cause email w res w' :
  verify_email email w = (inr res, w') ->
  VerifyResult.status res = invalid ->
  (VerifyResult.syntax_valid res = false /\ VerifyResult.score res = 0%Z)
  \/ (VerifyResult.syntax_valid res = true /\ VerifyResult.mx_found res = false
      /\ VerifyResult.score res = 20%Z)
  \/ (VerifyResult.mx_found res = true /\ VerifyResult.score res = 50%Z
      /\ exists r,
           VerifyResult.smtp_response res = RespResult r
           /\ SmtpResult.definitive_failure r = true
           /\ In (SmtpResult.smtp_code r) [Some "550"; Some "551"; Some "553"]).
Proof.
  intros E Hst. destruct (verify_email_inv _ _ _ _ E) as [res' [t [Hx [_ [_ Hr]]]]].
  inversion Hx; subst res'; clear Hx.
  destruct Hr as [Hm -> _ | d e _ _ _ Hsy Hmx _ _ _ _ Hsc | d _ _ _ _ _ _ _ _ H _
                 | d answer t' r _ _ _ _ Hsy Hmx _ Hresp Hp Hc ].
  - left. split; reflexivity.
  - right; left. auto.
  - rewrite Hst in H. discriminate H.
  - destruct Hc as [[_ [_ [H _]]] | [[Hd [_ [_ [_ Hsc]]]] | [_ [_ [H _]]]]].
    + rewrite Hst in H. discriminate H.
    + right; right. repeat split; try assumption.
      exists r. repeat split; try assumption.
      apply (probed_codes email r Hp); assumption.
    + rewrite Hst in H. destruct (SmtpResult.catch_all r); discriminate H.
Qed.

Lemma invalid_has_a_cause_witness :
  let res := returned (verify_email "user@example.com" scenario_D) in
  (VerifyResult.syntax_valid res = false /\ VerifyResult.score res = 0%Z)
  \/ (VerifyResult.syntax_valid res = true /\ VerifyResult.mx_found res = false
      /\ VerifyResult.score res = 20%Z)
  \/ (VerifyResult.mx_found res = true /\ VerifyResult.score res = 50%Z
      /\ exists r,
           VerifyResult.smtp_response res = RespResult r
           /\ SmtpResult.definitive_failure r = true
           /\ In (SmtpResult.smtp_code r) [Some "550"; Some "551"; Some "553"]).
Proof.
  apply (invalid_has_a_cause "user@example.com" scenario_D
           (returned (verify_email "user@example.com" scenario_D))
           (snd (verify_email "user@example.com" scenario_D)));
    vm_compute; reflexivity.
Defined.

(** Property X15 ([verify_email], the score).  The score is 20 for a valid
    syntax, plus 30 for MX records found, plus 50 for a passed SMTP check,
    minus 20 when the status is [risky]; it lies between 0 and 100. *)
Theorem score_is_sum_of_contributions email w res w' :
  verify_email email w = (inr res, w') ->
  VerifyResult.score res
  = ((if VerifyResult.syntax_valid res then 20 else 0)
     + (if VerifyResult.mx_found res then 30 else 0)
     + (if VerifyResult.smtp_check res then 50 else 0)
     - (match VerifyResult.status res with risky => 20 | _ => 0 end))%Z
  /\ (0 <= VerifyResult.score res <= 100)%Z.
Proof.
  intros E. destruct (verify_email_inv _ _ _ _ E) as [res' [t [Hx [_ [_ Hr]]]]].
  inversion Hx; subst res'; clear Hx.
  destruct Hr as [Hm -> _ | d e _ _ _ Hsy Hmx _ Hck _ Hst Hsc
                 | d _ _ _ Hsy Hmx _ Hck _ Hst Hsc
                 | d answer t' r _ _ _ _ Hsy Hmx _ Hresp Hp Hc ].
  - split; [reflexivity | simpl; lia].
  - rewrite Hsy, Hmx, Hck, Hsc. destruct Hst as [-> | ->]; split; [reflexivity | lia | reflexivity | lia].
  - rewrite Hsy, Hmx, Hck, Hsc, Hst. split; [reflexivity | lia].
  - rewrite Hsy, Hmx.
    destruct Hc as [[_ [-> [-> ->]]] | [[_ [_ [-> [-> ->]]]] | [_ [-> [-> ->]]]]];
      try (split; [reflexivity | lia]).
    destruct (SmtpResult.catch_all r); split; try reflexivity; lia.
Qed.

Lemma score_is_sum_of_contributions_witness :
  let res := returned (verify_email "user@example.com" scenario_C) in
  VerifyResult.score res
  = ((if VerifyResult.syntax_valid res then 20 else 0)
     + (if VerifyResult.mx_found res then 30 else 0)
     + (if VerifyResult.smtp_check res then 50 else 0)
     - (match VerifyResult.status res with risky => 20 | _ => 0 end))%Z
  /\ (0 <= VerifyResult.score res <= 100)%Z.
Proof.
  apply (score_is_sum_of_contributions "user@example.com" scenario_C
           (returned (verify_email "user@example.com" scenario_C))
           (snd (verify_email "user@example.com" scenario_C)));
    vm_compute; reflexivity.
Defined.

(** Property X16 ([verify_email], the flags).  In every result [email] is
    the argument, [mx_found] implies [syntax_valid], [smtp_check] implies
    [mx_found], [smtp_check] is true exactly when the status is [valid] or
    [risky], and [smtp_response] is never the dictionary with the key
    "error": [smtp_check] catches every exception itself. *)
Theorem checks_are_cumulative email w res w' :
  verify_email email w = (inr res, w') ->
  VerifyResult.email res = email
  /\ (VerifyResult.mx_found res = true -> VerifyResult.syntax_valid res = true)
  /\ (VerifyResult.smtp_check res = true -> VerifyResult.mx_found res = true)
  /\ (VerifyResult.smtp_check res = true <->
      VerifyResult.status res = valid \/ VerifyResult.status res = risky)
  /\ (forall error, VerifyResult.smtp_response res <> RespError error).
Proof.
  intros E. destruct (verify_email_inv _ _ _ _ E) as [res' [t [Hx [_ [He Hr]]]]].
  inversion Hx; subst res'; clear Hx. split; [exact He|].
  destruct Hr as [Hm -> _ | d e _ _ _ Hsy Hmx _ Hck Hresp Hst Hsc
                 | d _ _ _ Hsy Hmx _ Hck Hresp Hst Hsc
                 | d answer t' r _ _ _ _ Hsy Hmx _ Hresp Hp Hc ].
  - simpl. repeat split; try discriminate. intros [H | H]; discriminate H.
  - rewrite Hsy, Hmx, Hck, Hresp. repeat split; try discriminate.
    destruct Hst as [-> | ->]; intros [H | H]; discriminate H.
  - rewrite Hsy, Hmx, Hck, Hresp, Hst. repeat split; try discriminate.
    intros [H | H]; discriminate H.
  - rewrite Hsy, Hmx, Hresp.
    destruct Hc as [[_ [-> [-> _]]] | [[_ [_ [-> [-> _]]]] | [_ [-> [-> _]]]]];
      repeat split; try discriminate; try reflexivity;
      try (intros [H | H]; discriminate H).
    intros _. destruct (SmtpResult.catch_all r); [right | left]; reflexivity.
Qed.

Lemma checks_are_cumulative_witness :
  let res := returned (verify_email "user@example.com" all_hosts_down) in
  VerifyResult.email res = "user@example.com"
  /\ (VerifyResult.mx_found res = true -> VerifyResult.syntax_valid res = true)
  /\ (VerifyResult.smtp_check res = true -> VerifyResult.mx_found res = true)
  /\ (VerifyResult.smtp_check res = true <->
      VerifyResult.status res = valid \/ VerifyResult.status res = risky)
  /\ (forall error, VerifyResult.smtp_response res <> RespError error).
Proof.
  apply (checks_are_cumulative "user@example.com" all_hosts_down
           (returned (verify_email "user@example.com" all_hosts_down))
           (snd (verify_email "user@example.com" all_hosts_down)));
    vm_compute; reflexivity.
Defined.

(** Property X9 ([verify_email], an empty answer).  When the resolver
    returns no record for the domain of a well-formed address, the result
    has status [unknown], [mx_found] true, no [mx_records], [smtp_check]
    false and score 50, and the MX query is all that was done. *)
Theorem empty_answer_is_unknown email domain w :
  Re.re_match Re.email_regex email = true ->
  nth_error (split "@" email) 1 = Some domain ->
  resolve_mx w domain = inr [] ->
  exists res,
    verify_email email w = (inr res, looked_up domain w)
    /\ VerifyResult.status res = unknown
    /\ VerifyResult.mx_found res = true
    /\ VerifyResult.mx_records res = []
    /\ VerifyResult.smtp_check res = false
    /\ VerifyResult.score res = 50%Z.
Proof.
  intros Hm Hd Hr. rewrite (verify_email_hosts email domain [] w Hm Hd Hr).
  eexists. split; [reflexivity|]. repeat split.
Qed.

Lemma empty_answer_is_unknown_witness :
  exists res,
    verify_email "user@example.com" empty_answer
    = (inr res, looked_up "example.com" empty_answer)
    /\ VerifyResult.status res = unknown
    /\ VerifyResult.mx_found res = true
    /\ VerifyResult.mx_records res = []
    /\ VerifyResult.smtp_check res = false
    /\ VerifyResult.score res = 50%Z.
Proof.
  apply (empty_answer_is_unknown "user@example.com" "example.com" empty_answer);
    vm_compute; reflexivity.
Defined.

Lemma drop_while_head p l :
  match Str.drop_while p l with
  | c :: _ => p c = false
  | [] => True
  end.
Proof.
  induction l as [|c l IH]; simpl; [exact I|].
  destruct (p c) eqn:E; [exact IH | exact E].
Qed.

Lemma rstrip_dot_no_dot s : ends_with_dot (rstrip_dot s) = false.
Proof.
  unfold ends_with_dot, rstrip_dot, Str.rstrip_by.
  rewrite list_ascii_of_string_of_list_ascii, rev_involutive.
  pose proof (drop_while_head (Ascii.eqb ".") (rev (list_ascii_of_string s))) as H.
  destruct (Str.drop_while _ _); [reflexivity | exact H].
Qed.

(** Property X10 ([verify_email], [mx_records]).  When the address passes
    the syntax check and the resolver answers, [mx_records] is the list of
    the exchange names of the answer sorted by preference and name: one
    entry per record, none ending with a dot. *)
Theorem mx_records_are_the_sorted_hosts email domain answer w res w' :
  verify_email email w = (inr res, w') ->
  VerifyResult.syntax_valid res = true ->
  nth_error (split "@" email) 1 = Some domain ->
  resolve_mx w domain = inr answer ->
  VerifyResult.mx_records res = map snd (sorted (map mx_tuple answer))
  /\ Sorted mx_le (sorted (map mx_tuple answer))
  /\ List.length (VerifyResult.mx_records res) = List.length answer
  /\ Forall (fun h => ends_with_dot h = false) (VerifyResult.mx_records res).
Proof.
  intros E Hsy Hd Hr.
  assert (Hrec : VerifyResult.mx_records res = map snd (sorted (map mx_tuple answer))).
  { destruct (verify_email_inv _ _ _ _ E) as [res' [t [Hx [_ [_ Hrun]]]]].
    inversion Hx; subst res'; clear Hx.
    destruct Hrun as [Hm -> _ | d e Hd' Hr' _ _ _ _ _ _ _ _ | d Hd' Hr' _ _ _ Hrec _ _ _ _
                     | d a t' r Hd' Hr' _ _ _ _ Hrec _ _ _ ].
    - discriminate Hsy.
    - congruence.
    - rewrite Hd in Hd'. inversion Hd'; subst d. rewrite Hr in Hr'.
      inversion Hr'; subst answer. exact Hrec.
    - rewrite Hd in Hd'. inversion Hd'; subst d. rewrite Hr in Hr'.
      inversion Hr'; subst a. exact Hrec. }
  rewrite Hrec. split; [reflexivity|]. split; [apply sorted_sorted|]. split.
  - rewrite length_map, <- (Permutation_length (sorted_perm (map mx_tuple answer))).
    apply length_map.
  - apply Forall_map.
    apply (Permutation_Forall (sorted_perm (map mx_tuple answer))).
    apply Forall_map. apply Forall_forall. intros x _. apply rstrip_dot_no_dot.
Qed.

Lemma mx_records_are_the_sorted_hosts_witness :
  let res := returned (verify_email "user@example.com" scenario_B) in
  VerifyResult.mx_records res = map snd (sorted (map mx_tuple [ {| preference := 10; exchange := "a." |};
        {| preference := 5; exchange := "b." |} ]))
  /\ Sorted mx_le (sorted (map mx_tuple [ {| preference := 10; exchange := "a." |};
        {| preference := 5; exchange := "b." |} ]))
  /\ List.length (VerifyResult.mx_records res) = 2%nat
  /\ Forall (fun h => ends_with_dot h = false) (VerifyResult.mx_records res).
Proof.
  apply (mx_records_are_the_sorted_hosts "user@example.com" "example.com"
           [ {| preference := 10; exchange := "a." |};
             {| preference := 5; exchange := "b." |} ]
           scenario_B
           (returned (verify_email "user@example.com" scenario_B))
           (snd (verify_email "user@example.com" scenario_B)));
    vm_compute; reflexivity.
Defined.

(** Property X11 ([verify_email], the MX lookup).  A call makes no network
    operation when the syntax check fails; otherwise its first operation
    is the call of [dns.resolver.resolve] for what follows the at sign,
    and it calls the resolver once only.  (The resolution of a host name
    inside [connect] is part of the connection, not a call of the
    resolver.) *)
Theorem resolver_is_queried_once email w res w' t :
  verify_email email w = (inr res, w') ->
  history w' = (history w ++ t)%list ->
  (VerifyResult.syntax_valid res = false /\ t = [])
  \/ (exists domain t',
        VerifyResult.syntax_valid res = true
        /\ nth_error (split "@" email) 1 = Some domain
        /\ t = Resolve domain :: t'
        /\ resolved t' = []).
Proof.
  intros E Ht. destruct (verify_email_inv _ _ _ _ E) as [res' [t0 [Hx [Ht0 [_ Hrun]]]]].
  inversion Hx; subst res'; clear Hx.
  rewrite Ht0 in Ht. apply app_inv_head in Ht. subst t0.
  destruct Hrun as [Hm -> -> | d e Hd _ -> Hsy _ _ _ _ _ _ | d Hd _ -> Hsy _ _ _ _ _ _
                   | d a t' r Hd _ -> Hres Hsy _ _ _ _ _ ].
  - left. split; reflexivity.
  - right. exists d, []. auto.
  - right. exists d, []. auto.
  - right. exists d, t'. auto.
Qed.

Lemma resolver_is_queried_once_witness :
  let res := returned (verify_email "user@example.com" scenario_D) in
  let t := history (snd (verify_email "user@example.com" scenario_D)) in
  (VerifyResult.syntax_valid res = false /\ t = [])
  \/ (exists domain t',
        VerifyResult.syntax_valid res = true
        /\ nth_error (split "@" "user@example.com") 1 = Some domain
        /\ t = Resolve domain :: t'
        /\ resolved t' = []).
Proof.
  apply (resolver_is_queried_once "user@example.com" scenario_D
           (returned (verify_email "user@example.com" scenario_D))
           (snd (verify_email "user@example.com" scenario_D)));
    vm_compute; reflexivity.
Defined.

(** Property X8 ([verify_email], a final newline).  When [s] matches the
    pattern in full, [s] followed by a newline passes the syntax check too
    ([$] matches before a final newline), and the MX query is made for the
    domain with the newline still at its end. *)
Theorem trailing_newline_passes_the_gate s w :
  Re.fullmatch Re.email_regex s = true ->
  exists res w' dom t,
    verify_email (s ++ NL) w = (inr res, w')
    /\ VerifyResult.syntax_valid res = true
    /\ nth_error (split "@" s) 1 = Some dom
    /\ history w' = (history w ++ Resolve (dom ++ NL) :: t)%list.
Proof.
  intros Hs. apply fullmatch_email_shape in Hs.
  assert (Hm : Re.re_match Re.email_regex (s ++ NL) = true).
  { apply re_match_email_shape. right. exists s. auto. }
  destruct (email_shape_split s NL Hs eq_refl) as [l [dom [E1 [E2 _]]]].
  destruct (verify_email_run (s ++ NL) w) as [res [w' [t [E [Ht [_ Hrun]]]]]].
  assert (Hd : forall d, nth_error (split "@" (s ++ NL)) 1 = Some d -> d = dom ++ NL).
  { intros d H. rewrite E1 in H. inversion H. reflexivity. }
  destruct Hrun as [Hm' _ _ | d e Hd' _ -> Hsy _ _ _ _ _ _ | d Hd' _ -> Hsy _ _ _ _ _ _
                   | d a t' r Hd' _ -> _ Hsy _ _ _ _ _ ].
  - congruence.
  - apply Hd in Hd'. subst d. exists res, w', dom, [].
    rewrite E2. auto.
  - apply Hd in Hd'. subst d. exists res, w', dom, [].
    rewrite E2. auto.
  - apply Hd in Hd'. subst d. exists res, w', dom, t'.
    rewrite E2. auto.
Qed.

Lemma trailing_newline_passes_the_gate_witness :
  exists res w' dom t,
    verify_email ("user@example.com" ++ NL) scenario_B = (inr res, w')
    /\ VerifyResult.syntax_valid res = true
    /\ nth_error (split "@" "user@example.com") 1 = Some dom
    /\ history w' = (history scenario_B ++ Resolve (dom ++ NL) :: t)%list.
Proof.
  apply (trailing_newline_passes_the_gate "user@example.com" scenario_B).
  vm_compute. reflexivity.
Defined.

(* ================================================================== *)
(** * The handlers *)

Lemma verify_email_any_cases email w :
  (exists s res w',
      email = PStr s
      /\ verify_email s w = (inr res, w')
      /\ verify_email_any email w = (inr res, w'))
  \/ ((forall s, email <> PStr s) /\ verify_email_any email w = (inl TypeError, w)).
Proof.
  destruct email; try (right; split; [discriminate | reflexivity]).
  left. destruct (verify_email_run s w) as [res [w' [t [E _]]]].
  exists s, res, w'. auto.
Qed.

(** Property X17 ([lambda_handler]).  The handler either does nothing on the
    network, and then it raises or answers 400 with the error body; or it
    found a non-empty string as email in the event, ran [verify_email] on
    it and answers 200 with the JSON text of the result. *)
Theorem lambda_handler_answers (json_loads : string -> exn + pyval) (json_dumps : pyval -> string)
  event w x w' :
  lambda_handler json_loads json_dumps event w = (x, w') ->
  (w' = w /\ ((exists e, x = inl e) \/ x = inr (bad_request json_dumps)))
  \/ (exists s res,
        s <> ""
        /\ event_email json_loads event = inr (PStr s)
        /\ verify_email s w = (inr res, w')
        /\ x = inr (ok_response json_dumps res)).
Proof.
  unfold lambda_handler. intros H.
  destruct (event_email json_loads event) as [e | email] eqn:Ee.
  - inversion H; subst. left. split; [reflexivity | left; eauto].
  - destruct (truthy email) eqn:Ht; simpl in H.
    + destruct (verify_email_any_cases email w) as [[s [res [w1 [-> [Ev Ea]]]]] | [_ Ea]];
        rewrite Ea in H; inversion H; subst.
      * right. exists s, res. repeat split; try assumption.
        intros ->. discriminate Ht.
      * left. split; [reflexivity | left; eauto].
    + inversion H; subst. left. split; [reflexivity | right; reflexivity].
Qed.

Lemma lambda_handler_answers_witness :
  let loads := fun _ : string => inr (PDict [("email", PStr "user@example.com")]) in
  let dumps := fun _ : pyval => "{}" in
  let event := [("body", PStr "{}")] in
  let x := fst (lambda_handler loads dumps event scenario_B) in
  let w' := snd (lambda_handler loads dumps event scenario_B) in
  (w' = scenario_B /\ ((exists e, x = inl e) \/ x = inr (bad_request dumps)))
  \/ (exists s res,
        s <> ""
        /\ event_email loads event = inr (PStr s)
        /\ verify_email s scenario_B = (inr res, w')
        /\ x = inr (ok_response dumps res)).
Proof.
  apply (lambda_handler_answers
           (fun _ => inr (PDict [("email", PStr "user@example.com")]))
           (fun _ => "{}")
           [("body", PStr "{}")] scenario_B).
  vm_compute. reflexivity.
Defined.

(** Property X18 ([lambda_handler], precedence).  When
    [queryStringParameters] is a non-empty dictionary, the body and the
    top-level email of the event are ignored: the handler answers as for
    the event that holds [queryStringParameters] alone. *)
Theorem query_string_shadows_the_rest (json_loads : string -> exn + pyval) (json_dumps : pyval -> string)
  event q w :
  lookup "queryStringParameters" event = Some (PDict q) ->
  q <> [] ->
  lambda_handler json_loads json_dumps event w
  = lambda_handler json_loads json_dumps [("queryStringParameters", PDict q)] w.
Proof.
  intros Hq Hn. unfold lambda_handler, event_email, dict_get.
  rewrite Hq. simpl. destruct q; [contradiction | reflexivity].
Qed.

Lemma query_string_shadows_the_rest_witness :
  let loads := fun _ : string => inr (PDict [("email", PStr "other@example.org")]) in
  let dumps := fun _ : pyval => "{}" in
  lambda_handler loads dumps
    [ ("body", PStr "{}"); ("email", PStr "third@example.net");
      ("queryStringParameters", PDict [("email", PStr "user@example.com")]) ]
    scenario_B
  = lambda_handler loads dumps
      [ ("queryStringParameters", PDict [("email", PStr "user@example.com")]) ]
      scenario_B.
Proof.
  apply (query_string_shadows_the_rest
           (fun _ => inr (PDict [("email", PStr "other@example.org")]))
           (fun _ => "{}")
           [ ("body", PStr "{}"); ("email", PStr "third@example.net");
             ("queryStringParameters", PDict [("email", PStr "user@example.com")]) ]
           [("email", PStr "user@example.com")] scenario_B).
  - vm_compute. reflexivity.
  - discriminate.
Defined.

(** Property X19 ([lambda_handler], malformed events).  Without usable
    [queryStringParameters], the handler raises instead of answering 400:
    the exception of [json.loads] when the body is a non-empty string it
    rejects; [AttributeError] when the body parses to something that is
    not a dictionary; [TypeError] when the body dictionary holds a truthy
    email that is not a string.  In each case the network is untouched. *)
Theorem malformed_event_raises (json_loads : string -> exn + pyval) (json_dumps : pyval -> string)
  event w :
  (forall v, lookup "queryStringParameters" event = Some v -> truthy v = false) ->
  (forall b e,
      lookup "body" event = Some (PStr b) -> b <> "" -> json_loads b = inl e ->
      lambda_handler json_loads json_dumps event w = (inl e, w))
  /\ (forall b v,
         lookup "body" event = Some (PStr b) -> b <> "" -> json_loads b = inr v ->
         (forall d, v <> PDict d) ->
         lambda_handler json_loads json_dumps event w = (inl (AttributeError v), w))
  /\ (forall d v,
         lookup "body" event = Some (PDict d) -> d <> [] ->
         lookup "email" d = Some v -> truthy v = true -> (forall s, v <> PStr s) ->
         lambda_handler json_loads json_dumps event w = (inl TypeError, w)).
Proof.
  intros Hq.
  assert (Hq' : match lookup "queryStringParameters" event with
                | Some v => truthy v
                | None => false
                end = false).
  { destruct (lookup "queryStringParameters" event) eqn:E; [apply Hq; reflexivity | reflexivity]. }
  repeat split.
  - intros b e Hb Hn He. unfold lambda_handler, event_email, dict_get.
    rewrite Hq', Hb. simpl. rewrite He.
    destruct (String.eqb b "") eqn:Eb; [apply String.eqb_eq in Eb; contradiction|].
    reflexivity.
  - intros b v Hb Hn Hv Hd. unfold lambda_handler, event_email, dict_get.
    rewrite Hq', Hb. simpl. rewrite Hv.
    destruct (String.eqb b "") eqn:Eb; [apply String.eqb_eq in Eb; contradiction|].
    simpl. destruct v; try reflexivity. exfalso. apply (Hd d). reflexivity.
  - intros d v Hb Hn Hv Ht Hs. unfold lambda_handler, event_email, dict_get.
    rewrite Hq', Hb. simpl. destruct d as [|x d]; [contradiction|].
    unfold dict_get. rewrite Hv, Ht. simpl.
    destruct v; try reflexivity. exfalso. apply (Hs s). reflexivity.
Qed.

Lemma malformed_event_raises_witness :
  let loads := fun _ : string => inr (PList []) in
  let dumps := fun _ : pyval => "{}" in
  lambda_handler loads dumps [("body", PStr "[]")] scenario_B
  = (inl (AttributeError (PList [])), scenario_B).
Proof.
  refine (proj1 (proj2 (malformed_event_raises
                          (fun _ => inr (PList [])) (fun _ => "{}")
                          [("body", PStr "[]")] scenario_B _))
            "[]" (PList []) _ _ _ _).
  - intros v H. vm_compute in H. discriminate H.
  - vm_compute. reflexivity.
  - discriminate.
  - vm_compute. reflexivity.
  - discriminate.
Defined.

(** Property X20 ([verify_email_gcf], the query argument).  With a non-empty
    [email] query argument the function verifies that address and returns
    the JSON text of the result, the status 200 and the JSON content type,
    whatever the body of the request is. *)
Theorem args_email_is_verified (json_dumps : pyval -> string) req s w :
  lookup "email" (args req) = Some s ->
  s <> "" ->
  exists res w',
    verify_email s w = (inr res, w')
    /\ verify_email_gcf json_dumps req w
       = (inr (json_dumps (result_dict res), 200%Z, Some json_headers), w').
Proof.
  intros Ha Hn. destruct (verify_email_run s w) as [res [w' [t [E _]]]].
  exists res, w'. split; [exact E|].
  unfold verify_email_gcf, request_email. rewrite Ha.
  destruct (String.eqb s "") eqn:Es; [apply String.eqb_eq in Es; contradiction|].
  simpl. rewrite Es. simpl. rewrite E. reflexivity.
Qed.

Lemma args_email_is_verified_witness :
  let dumps := fun _ : pyval => "{}" in
  let req := {| args := [("email", "user@example.com")];
                get_json := inr PNone |} in
  exists res w',
    verify_email "user@example.com" scenario_B = (inr res, w')
    /\ verify_email_gcf dumps req scenario_B
       = (inr (dumps (result_dict res), 200%Z, Some json_headers), w').
Proof.
  apply (args_email_is_verified (fun _ => "{}")
           {| args := [("email", "user@example.com")]; get_json := inr PNone |}
           "user@example.com" scenario_B).
  - vm_compute. reflexivity.
  - discriminate.
Defined.

(** Property X21 ([verify_email_gcf], the JSON body).  When the query has no
    [email] argument, or an empty one, the function raises
    [AttributeError] if [get_json()] returns [None], passes on the
    exception [get_json()] raises, and answers 400 when the JSON
    dictionary has no email. *)
Theorem missing_json_body_raises (json_dumps : pyval -> string) req w :
  lookup "email" (args req) = None \/ lookup "email" (args req) = Some "" ->
  (get_json req = inr PNone ->
   verify_email_gcf json_dumps req w = (inl (AttributeError PNone), w))
  /\ (forall e, get_json req = inl e ->
                verify_email_gcf json_dumps req w = (inl e, w))
  /\ (forall d, get_json req = inr (PDict d) -> lookup "email" d = None ->
                verify_email_gcf json_dumps req w
                = (inr (json_dumps error_body, 400%Z, None), w)).
Proof.
  intros Ha. unfold verify_email_gcf, request_email.
  repeat split.
  - intros Hj. destruct Ha as [-> | ->]; simpl; rewrite Hj; reflexivity.
  - intros e Hj. destruct Ha as [-> | ->]; simpl; rewrite Hj; reflexivity.
  - intros d Hj Hd. destruct Ha as [-> | ->]; simpl; rewrite Hj; simpl;
      unfold dict_get; rewrite Hd; reflexivity.
Qed.

Lemma missing_json_body_raises_witness :
  let dumps := fun _ : pyval => "{}" in
  verify_email_gcf dumps {| args := []; get_json := inr PNone |} scenario_B
  = (inl (AttributeError PNone), scenario_B).
Proof.
  refine (proj1 (missing_json_body_raises (fun _ => "{}")
                   {| args := []; get_json := inr PNone |} scenario_B _) _).
  - left. vm_compute. reflexivity.
  - vm_compute. reflexivity.
Defined.

(* ================================================================== *)
(** * The pattern heuristic *)

Lemma all_in_append p s1 s2 : all_in p (s1 ++ s2) = all_in p s1 && all_in p s2.
Proof.
  induction s1 as [|c s1 IH]; simpl; [reflexivity|].
  rewrite IH. apply andb_assoc.
Qed.

Lemma lang_class_inv p s : lang (Re.Class p) s -> exists c, s = String c "" /\ p c = true.
Proof. intros H. inversion H; subst. eauto. Qed.

Lemma lang_times_class p n : forall s,
  lang (times n (Re.Class p)) s <-> String.length s = n /\ all_in p s = true.
Proof.
  induction n as [|n IH]; intros s; simpl.
  - split.
    + intros H. inversion H. split; reflexivity.
    + intros [Hl _]. destruct s; [constructor | discriminate].
  - split.
    + intros H. inversion H; subst.
      match goal with H' : lang (Re.Class _) _ |- _ =>
        apply lang_class_inv in H'; destruct H' as [c [-> Hc]] end.
      match goal with H' : lang (times _ _) _ |- _ => apply IH in H'; destruct H' as [Hl Ha] end.
      simpl. rewrite Hc, Ha, Hl. split; reflexivity.
    + intros [Hl Ha]. destruct s as [|c s]; [discriminate|].
      simpl in *. apply andb_true_iff in Ha. destruct Ha as [Hc Ha].
      change (String c s) with (String c "" ++ s).
      constructor; [constructor; exact Hc | apply IH; split; [lia | exact Ha]].
Qed.

Lemma lang_upto_class p n : forall s,
  lang (upto n (Re.Class p)) s <-> (String.length s <= n)%nat /\ all_in p s = true.
Proof.
  induction n as [|n IH]; intros s; simpl.
  - split.
    + intros H. inversion H. split; [simpl; lia | reflexivity].
    + intros [Hl _]. destruct s; [constructor | simpl in Hl; lia].
  - split.
    + intros H. inversion H; subst.
      * match goal with H' : lang Re.Eps _ |- _ => inversion H' end.
        split; [simpl; lia | reflexivity].
      * match goal with H' : lang (Re.Cat _ _) _ |- _ => inversion H'; subst end.
        match goal with H' : lang (Re.Class _) _ |- _ =>
          apply lang_class_inv in H'; destruct H' as [c [-> Hc]] end.
        match goal with H' : lang (upto _ _) _ |- _ => apply IH in H'; destruct H' as [Hl Ha] end.
        simpl. rewrite Hc, Ha. split; [lia | reflexivity].
    + intros [Hl Ha]. destruct s as [|c s]; [apply lang_alt_l; constructor|].
      simpl in *. apply andb_true_iff in Ha. destruct Ha as [Hc Ha].
      apply lang_alt_r. change (String c s) with (String c "" ++ s).
      constructor; [constructor; exact Hc | apply IH; split; [lia | exact Ha]].
Qed.

(** A string of at least [n] characters is made of [n] characters and a rest. *)
Lemma cut_at n : forall s,
  (n <= String.length s)%nat ->
  exists s1 s2, s = s1 ++ s2 /\ String.length s1 = n.
Proof.
  induction n as [|n IH]; intros s H.
  - exists "", s. split; reflexivity.
  - destruct s as [|c s]; [simpl in H; lia|].
    destruct (IH s) as [s1 [s2 [-> Hl]]]; [simpl in H; lia|].
    exists (String c s1), s2. simpl. split; [reflexivity | now rewrite Hl].
Qed.

Lemma lang_at_least p n s :
  lang (Re.Cat (times n (Re.Class p)) (Re.Star (Re.Class p))) s
  <-> (n <= String.length s)%nat /\ all_in p s = true.
Proof.
  split.
  - intros H. inversion H; subst.
    match goal with H' : lang (times _ _) _ |- _ =>
      apply lang_times_class in H'; destruct H' as [Hl Ha] end.
    match goal with H' : lang (Re.Star _) _ |- _ => apply lang_star_class in H' end.
    rewrite length_append, all_in_append, Ha. split; [lia | assumption].
  - intros [Hl Ha]. destruct (cut_at n s Hl) as [s1 [s2 [-> Hl1]]].
    rewrite all_in_append in Ha. apply andb_true_iff in Ha. destruct Ha as [H1 H2].
    constructor; [apply lang_times_class; auto | apply lang_star_class; exact H2].
Qed.

Lemma lang_between p n m s :
  lang (Re.Cat (times n (Re.Class p)) (upto m (Re.Class p))) s
  <-> (n <= String.length s <= n + m)%nat /\ all_in p s = true.
Proof.
  split.
  - intros H. inversion H; subst.
    match goal with H' : lang (times _ _) _ |- _ =>
      apply lang_times_class in H'; destruct H' as [Hl Ha] end.
    match goal with H' : lang (upto _ _) _ |- _ =>
      apply lang_upto_class in H'; destruct H' as [Hl2 Ha2] end.
    rewrite length_append, all_in_append, Ha, Ha2. split; [lia | reflexivity].
  - intros [[Hl Hu] Ha]. destruct (cut_at n s Hl) as [s1 [s2 [-> Hl1]]].
    rewrite all_in_append in Ha. apply andb_true_iff in Ha. destruct Ha as [H1 H2].
    rewrite length_append in Hu.
    constructor; [apply lang_times_class; auto | apply lang_upto_class; split; [lia | exact H2]].
Qed.

(** [re.match] through the words of the pattern: the whole string, or
    the string without the newline that ends it. *)
Lemma re_match_lang r s :
  Re.re_match r s = true <-> lang r s \/ exists s', s = s' ++ NL /\ lang r s'.
Proof.
  unfold Re.re_match. rewrite orb_true_iff, fullmatch_lang. split.
  - intros [H | H]; [left; exact H | right].
    destruct (Re.chop_newline s) as [s'|] eqn:E; [|discriminate].
    exists s'. split; [apply chop_newline_spec; exact E | apply fullmatch_lang; exact H].
  - intros [H | [s' [Hs H]]]; [left; exact H | right].
    apply chop_newline_spec in Hs. rewrite Hs. apply fullmatch_lang. exact H.
Qed.

Lemma re_match_incl r1 r2 r3 s :
  (forall u, lang r1 u -> lang r2 u \/ lang r3 u) ->
  Re.re_match r1 s = true ->
  Re.re_match r2 s = true \/ Re.re_match r3 s = true.
Proof.
  intros Hi H. apply re_match_lang in H. destruct H as [H | [s' [Hs H]]].
  - destruct (Hi _ H); [left | right]; apply re_match_lang; left; assumption.
  - destruct (Hi _ H); [left | right]; apply re_match_lang; right; eauto.
Qed.

Lemma first_match_patterns s :
  first_match patterns s <> Some "f.lastname"
  /\ first_match patterns s <> Some "flastname"
  /\ (first_match patterns s = Some "firstname" ->
      exists u, (s = u \/ s = u ++ NL)
                /\ all_in (Str.between "a" "z") u = true
                /\ (String.length u = 2 \/ String.length u = 3)%nat).
Proof.
  unfold first_match, patterns.
  destruct (Re.re_match (Re.Cat (Re.Plus az) (Re.Cat (Re.Chr ".") (Re.Plus az))) s) eqn:E1.
  { repeat split; discriminate. }
  destruct (Re.re_match (Re.Cat (times 4 az) (Re.Star az)) s) eqn:E2.
  { repeat split; discriminate. }
  destruct (Re.re_match (Re.Cat az (Re.Cat (Re.Chr ".") (Re.Plus az))) s) eqn:E3.
  { exfalso.
    assert (Hi : forall u, lang (Re.Cat az (Re.Cat (Re.Chr ".") (Re.Plus az))) u ->
                           lang (Re.Cat (Re.Plus az) (Re.Cat (Re.Chr ".") (Re.Plus az))) u
                           \/ lang Re.Void u).
    { intros u Hu. left. inversion Hu; subst.
      constructor; [|assumption].
      match goal with H' : lang az _ |- _ =>
        apply lang_class_inv in H'; destruct H' as [c [-> Hc]] end.
      apply lang_plus_class. simpl. rewrite Hc. split; [discriminate | reflexivity]. }
    destruct (re_match_incl _ _ _ s Hi E3) as [H | H]; [congruence|].
    apply re_match_lang in H. destruct H as [H | [? [_ H]]]; inversion H. }
  destruct (Re.re_match (Re.Cat (Re.Plus az) (Re.Cat (Re.Chr "_") (Re.Plus az))) s) eqn:E4.
  { repeat split; discriminate. }
  destruct (Re.re_match (Re.Cat (times 2 az) (upto 13 az)) s) eqn:E5.
  { split; [discriminate|]. split; [discriminate|]. intros _.
    assert (Hshort : forall u, lang (Re.Cat (times 2 az) (upto 13 az)) u ->
                               Re.re_match (Re.Cat (times 4 az) (Re.Star az)) s = false ->
                               (s = u \/ s = u ++ NL) ->
                               all_in (Str.between "a" "z") u = true
                               /\ (String.length u = 2 \/ String.length u = 3)%nat).
    { intros u Hu Hno Hs. apply lang_between in Hu. destruct Hu as [[Hl Hu] Ha].
      split; [exact Ha|].
      destruct (Nat.le_gt_cases 4 (String.length u)) as [H4 | H4]; [|lia].
      exfalso. assert (Re.re_match (Re.Cat (times 4 az) (Re.Star az)) s = true) as C;
        [|congruence].
      apply re_match_lang. destruct Hs as [-> | ->]; [left | right; exists u; split; [reflexivity|]];
        apply lang_at_least; auto. }
    apply re_match_lang in E5. destruct E5 as [H | [u [Hs H]]].
    - exists s. destruct (Hshort s H E2 (or_introl eq_refl)). auto.
    - exists u. destruct (Hshort u H E2 (or_intror Hs)). auto. }
  destruct (Re.re_match (Re.Cat az (Re.Plus az)) s) eqn:E6.
  { exfalso.
    assert (Hi : forall u, lang (Re.Cat az (Re.Plus az)) u ->
                           lang (Re.Cat (times 4 az) (Re.Star az)) u
                           \/ lang (Re.Cat (times 2 az) (upto 13 az)) u).
    { intros u Hu. apply (lang_atleast2_class (Str.between "a" "z")) in Hu.
      destruct Hu as [Hl Ha].
      destruct (Nat.le_gt_cases 4 (String.length u)) as [H4 | H4].
      - left. apply lang_at_least. auto.
      - right. apply lang_between. split; [lia | exact Ha]. }
    destruct (re_match_incl _ _ _ s Hi E6) as [H | H]; congruence. }
  repeat split; discriminate.
Qed.

Lemma lower_char_at c : Ascii.eqb (lower_char c) "@" = Ascii.eqb c "@".
Proof.
  destruct c as [[] [] [] [] [] [] [] []]; reflexivity.
Qed.

Lemma split_lower s : split "@" (lower s) = map lower (split "@" s).
Proof.
  induction s as [|c s IH]; [reflexivity|].
  simpl. rewrite lower_char_at, IH.
  destruct (Ascii.eqb c "@"); [reflexivity|].
  destruct (split "@" s); reflexivity.
Qed.

Lemma split_lower_length s :
  List.length (split "@" (lower s)) = List.length (split "@" s).
Proof. rewrite split_lower. apply length_map. Qed.

Lemma unpack2_spec l :
  (List.length l = 2%nat -> exists a b, l = [a; b] /\ unpack2 l = inr (a, b))
  /\ (List.length l <> 2%nat -> unpack2 l = inl ValueError).
Proof.
  destruct l as [|a [|b [|c l]]]; simpl; split; intros H;
    try discriminate H; try reflexivity; try (exfalso; apply H; reflexivity).
  exists a, b. auto.
Qed.

Lemma split_at_least_two sep s :
  Str.mem sep s = true -> (2 <= List.length (split sep s))%nat.
Proof.
  intros H. destruct (split_second sep s H) as [d Hd].
  destruct (split sep s) as [|x [|y l]]; simpl in *; try discriminate Hd; lia.
Qed.

(** What [check_email_pattern] returns when it returns. *)
Lemma check_email_pattern_inv email known res :
  check_email_pattern email known = inr res ->
  res = PatternResult.initial
  \/ exists local_part domain,
       split "@" (lower email) = [local_part; domain]
       /\ PatternResult.pattern_detected res = first_match patterns local_part
       /\ (PatternResult.matches_known_pattern res = true ->
           PatternResult.pattern_detected res <> None
           /\ exists ke rest, known = Some (ke :: rest))
       /\ PatternResult.confidence_boost res
          = ((if PatternResult.matches_known_pattern res then 20 else 0)
             + (match PatternResult.pattern_detected res with
                | Some name =>
                    if in_list name ["firstname.lastname"; "f.lastname"; "firstname_lastname"]
                    then 5 else 0
                | None => 0
                end))%Z.
Proof.
  unfold check_email_pattern.
  destruct (String.eqb email "" || negb (Str.mem "@" email)).
  { intros H. inversion H. left. reflexivity. }
  destruct (split "@" (lower email)) as [|lp [|dom [|x l]]] eqn:Es;
    unfold unpack2; cbv beta iota zeta; try discriminate.
  remember (first_match patterns lp) as detected eqn:Ed.
  intros H. right. exists lp, dom. split; [reflexivity|].
  assert (Hres : exists matches,
             res = {| PatternResult.pattern_detected := detected;
                      PatternResult.matches_known_pattern := matches;
                      PatternResult.confidence_boost :=
                        if match detected with
                           | Some name =>
                               in_list name
                                 ["firstname.lastname"; "f.lastname"; "firstname_lastname"]
                           | None => false
                           end
                        then ((if matches then 20 else 0) + 5)%Z
                        else if matches then 20%Z else 0%Z |}
             /\ (matches = true ->
                 detected <> None /\ exists ke rest, known = Some (ke :: rest))).
  { destruct known as [[|ke rest]|].
    - exists false. inversion H. split; [reflexivity | discriminate].
    - destruct (known_patterns_of (ke :: rest)) as [e | kp]; [discriminate H|].
      inversion H. eexists. split; [reflexivity|].
      intros Hm. split; [|eauto]. destruct detected; [discriminate | discriminate Hm].
    - exists false. inversion H. split; [reflexivity | discriminate]. }
  destruct Hres as [matches [-> Hm]].
  cbn [PatternResult.pattern_detected PatternResult.matches_known_pattern
       PatternResult.confidence_boost].
  split; [exact Ed|]. split; [exact Hm|].
  destruct detected as [name|]; [|destruct matches; reflexivity].
  destruct (in_list name _), matches; reflexivity.
Qed.

(** Property X22 ([check_email_pattern], shadowed patterns).  On ASCII input
    the patterns "f.lastname" and "flastname" are never reported: an
    earlier entry of the dictionary matches every local part they
    match. *)
Theorem shadowed_patterns_are_never_detected email known res :
  ascii_string email -> ascii_strings known ->
  check_email_pattern email known = inr res ->
  PatternResult.pattern_detected res <> Some "f.lastname"
  /\ PatternResult.pattern_detected res <> Some "flastname".
Proof.
  intros _ _ H. destruct (check_email_pattern_inv _ _ _ H) as [-> | [lp [dom [_ [-> _]]]]].
  - split; discriminate.
  - destruct (first_match_patterns lp) as [H1 [H2 _]]. auto.
Qed.

Lemma shadowed_patterns_are_never_detected_witness :
  let res := checked (check_email_pattern "j.doe@example.com" None) in
  PatternResult.pattern_detected res <> Some "f.lastname"
  /\ PatternResult.pattern_detected res <> Some "flastname".
Proof.
  apply (shadowed_patterns_are_never_detected "j.doe@example.com" None
           (checked (check_email_pattern "j.doe@example.com" None)));
    vm_compute; [reflexivity | exact I | reflexivity].
Defined.

(** Property X23 ([check_email_pattern], "firstname").  On ASCII input the
    pattern "firstname" is reported only for a local part of two or three
    letters (with or without a final newline): from four letters on,
    "firstnamelastname" comes first. *)
Theorem firstname_means_two_or_three_letters email known res :
  ascii_string email -> ascii_strings known ->
  check_email_pattern email known = inr res ->
  PatternResult.pattern_detected res = Some "firstname" ->
  exists local_part domain u,
    split "@" (lower email) = [local_part; domain]
    /\ (local_part = u \/ local_part = u ++ NL)
    /\ all_in (Str.between "a" "z") u = true
    /\ (String.length u = 2 \/ String.length u = 3)%nat.
Proof.
  intros _ _ H Hp. destruct (check_email_pattern_inv _ _ _ H) as [-> | [lp [dom [Es [Hd _]]]]].
  - discriminate Hp.
  - rewrite Hd in Hp. destruct (first_match_patterns lp) as [_ [_ H3]].
    destruct (H3 Hp) as [u Hu]. exists lp, dom, u. tauto.
Qed.

Lemma firstname_means_two_or_three_letters_witness :
  exists local_part domain u,
    split "@" (lower "Jo@Example.com") = [local_part; domain]
    /\ (local_part = u \/ local_part = u ++ NL)
    /\ all_in (Str.between "a" "z") u = true
    /\ (String.length u = 2 \/ String.length u = 3)%nat.
Proof.
  apply (firstname_means_two_or_three_letters "Jo@Example.com" None
           (checked (check_email_pattern "Jo@Example.com" None)));
    vm_compute; [reflexivity | exact I | reflexivity | reflexivity].
Defined.

(** Property X24 ([check_email_pattern], the boost).  On ASCII input
    [confidence_boost] is 0, 5, 20 or 25: 20 when the pattern is one of
    the known ones, plus 5 when it is "firstname.lastname" or
    "firstname_lastname".  [matches_known_pattern] needs a detected
    pattern and a non-empty [known_emails]. *)
Theorem pattern_boost_values email known res :
  ascii_string email -> ascii_strings known ->
  check_email_pattern email known = inr res ->
  In (PatternResult.confidence_boost res) [0; 5; 20; 25]%Z
  /\ (PatternResult.confidence_boost res
      = (if PatternResult.matches_known_pattern res then 20 else 0)
        + (match PatternResult.pattern_detected res with
           | Some "firstname.lastname" | Some "firstname_lastname" => 5
           | _ => 0
           end))%Z
  /\ (PatternResult.matches_known_pattern res = true ->
      PatternResult.pattern_detected res <> None
      /\ exists ke rest, known = Some (ke :: rest)).
Proof.
  intros _ _ H. destruct (check_email_pattern_inv _ _ _ H) as [-> | [lp [dom [_ [Hd [Hm Hb]]]]]].
  - cbn. repeat split; try discriminate. tauto.
  - destruct (first_match_patterns lp) as [H1 [H2 _]]. rewrite <- Hd in H1, H2.
    assert (Hpat : PatternResult.pattern_detected res = None
                   \/ exists name, PatternResult.pattern_detected res = Some name
                                   /\ In name (map fst patterns)).
    { rewrite Hd. unfold first_match, patterns.
      repeat match goal with
             | |- context [if ?b then _ else _] =>
                 destruct b; [right; eexists; split; [reflexivity | simpl; tauto]|]
             end.
      left. reflexivity. }
    split; [|split; [|exact Hm]].
    + rewrite Hb. destruct (PatternResult.matches_known_pattern res);
        destruct (PatternResult.pattern_detected res) as [name|];
        try destruct (in_list name _); simpl; tauto.
    + rewrite Hb. f_equal.
      destruct Hpat as [-> | [name [Hn Hin]]]; [reflexivity|].
      rewrite Hn in *. simpl in Hin.
      destruct Hin as [<- | [<- | [<- | [<- | [<- | [<- | []]]]]]];
        try reflexivity; congruence.
Qed.

Lemma pattern_boost_values_witness :
  let known := Some ["Jane.Roe@example.com"; "no-at-sign"] in
  let res := checked (check_email_pattern "john.doe@example.com" known) in
  In (PatternResult.confidence_boost res) [0; 5; 20; 25]%Z
  /\ (PatternResult.confidence_boost res
      = (if PatternResult.matches_known_pattern res then 20 else 0)
        + (match PatternResult.pattern_detected res with
           | Some "firstname.lastname" | Some "firstname_lastname" => 5
           | _ => 0
           end))%Z
  /\ (PatternResult.matches_known_pattern res = true ->
      PatternResult.pattern_detected res <> None
      /\ exists ke rest, known = Some (ke :: rest)).
Proof.
  apply (pattern_boost_values "john.doe@example.com"
           (Some ["Jane.Roe@example.com"; "no-at-sign"])
           (checked (check_email_pattern "john.doe@example.com"
                       (Some ["Jane.Roe@example.com"; "no-at-sign"])))).
  - vm_compute. reflexivity.
  - repeat constructor.
  - vm_compute. reflexivity.
Defined.

(** Property X25 ([check_email_pattern], at signs).  On ASCII input the
    function returns the initial result for an empty address and for one
    without at sign; it raises [ValueError] for an address with two at
    signs or more; with exactly one it returns a result when there are no
    known emails, and raises [ValueError] when the first known email has
    two at signs or more. *)
Theorem pattern_check_raises_on_two_ats email known :
  ascii_string email -> ascii_strings known ->
  (email = "" \/ Str.mem "@" email = false ->
   check_email_pattern email known = inr PatternResult.initial)
  /\ ((3 <= List.length (split "@" email))%nat ->
      check_email_pattern email known = inl ValueError)
  /\ (List.length (split "@" email) = 2%nat ->
      known = None \/ known = Some [] ->
      exists res, check_email_pattern email known = inr res)
  /\ (forall ke rest,
         List.length (split "@" email) = 2%nat ->
         known = Some (ke :: rest) ->
         (3 <= List.length (split "@" ke))%nat ->
         check_email_pattern email known = inl ValueError).
Proof.
  intros _ _. unfold check_email_pattern. repeat split.
  - intros [-> | H]; [reflexivity|]. rewrite H. now rewrite orb_true_r.
  - intros H.
    assert (Hm : Str.mem "@" email = true).
    { destruct (Str.mem "@" email) eqn:E; [reflexivity|].
      rewrite (split_without _ _ E) in H. simpl in H. lia. }
    assert (He : String.eqb email "" = false).
    { destruct email; [discriminate Hm | reflexivity]. }
    rewrite He, Hm. simpl.
    destruct (unpack2_spec (split "@" (lower email))) as [_ Hu].
    rewrite Hu; [reflexivity|]. rewrite split_lower_length. lia.
  - intros H Hk.
    assert (Hm : Str.mem "@" email = true).
    { destruct (Str.mem "@" email) eqn:E; [reflexivity|].
      rewrite (split_without _ _ E) in H. discriminate H. }
    assert (He : String.eqb email "" = false).
    { destruct email; [discriminate Hm | reflexivity]. }
    rewrite He, Hm. simpl.
    destruct (unpack2_spec (split "@" (lower email))) as [Hu _].
    destruct Hu as [a [b [_ ->]]]; [rewrite split_lower_length; exact H|].
    destruct Hk as [-> | ->]; eexists; reflexivity.
  - intros ke rest H -> Hke.
    assert (Hm : Str.mem "@" email = true).
    { destruct (Str.mem "@" email) eqn:E; [reflexivity|].
      rewrite (split_without _ _ E) in H. discriminate H. }
    assert (He : String.eqb email "" = false).
    { destruct email; [discriminate Hm | reflexivity]. }
    rewrite He, Hm. simpl.
    destruct (unpack2_spec (split "@" (lower email))) as [Hu _].
    destruct Hu as [a [b [_ ->]]]; [rewrite split_lower_length; exact H|].
    assert (Hmk : Str.mem "@" ke = true).
    { destruct (Str.mem "@" ke) eqn:E; [reflexivity|].
      rewrite (split_without _ _ E) in Hke. simpl in Hke. lia. }
    simpl. rewrite Hmk.
    destruct (unpack2_spec (split "@" (lower ke))) as [_ Hu].
    rewrite Hu; [reflexivity|]. rewrite split_lower_length. lia.
Qed.

Lemma pattern_check_raises_on_two_ats_witness :
  check_email_pattern "a@b@c" None = inl ValueError.
Proof.
  refine (proj1 (proj2 (pattern_check_raises_on_two_ats "a@b@c" None _ _)) _).
  - vm_compute. reflexivity.
  - exact I.
  - vm_compute. lia.
Defined.

(* ================================================================== *)
(** * The name heuristic *)

Lemma split_two_mem sep s a b : split sep s = [a; b] -> Str.mem sep s = true.
Proof.
  intros H. destruct (Str.mem sep s) eqn:E; [reflexivity|].
  rewrite (split_without _ _ E) in H. discriminate H.
Qed.

(** Property X26 ([extract_name_from_email]).  On ASCII input the function
    never raises.  It guesses a name exactly when the lowered local part
    splits in exactly two pieces at the dot, or has no dot and splits in
    exactly two pieces at the underscore; the guess is the two pieces in
    title case and their join with a space. *)
Theorem name_guess_needs_two_pieces email :
  ascii_string email ->
  exists res,
    extract_name_from_email email = inr res
    /\ (res = NameGuess.initial
        \/ exists local_part sep first last,
             nth_error (split "@" (lower email)) 0 = Some local_part
             /\ (sep = "."%char \/ (sep = "_"%char /\ Str.mem "." local_part = false))
             /\ split sep local_part = [first; last]
             /\ res = NameGuess.of_parts first last)
    /\ (forall local_part sep first last,
          Str.mem "@" email = true ->
          nth_error (split "@" (lower email)) 0 = Some local_part ->
          sep = "."%char \/ (sep = "_"%char /\ Str.mem "." local_part = false) ->
          split sep local_part = [first; last] ->
          res = NameGuess.of_parts first last).
Proof.
  intros _. unfold extract_name_from_email.
  destruct (String.eqb email "") eqn:E0.
  { apply String.eqb_eq in E0. subst email.
    exists NameGuess.initial. split; [reflexivity|]. split; [left; reflexivity|].
    intros lp sep a b H. discriminate H. }
  destruct (Str.mem "@" email) eqn:E1; simpl.
  2:{ exists NameGuess.initial. split; [reflexivity|]. split; [left; reflexivity|].
      intros lp sep a b H. discriminate H. }
  destruct (split "@" (lower email)) as [|lp l] eqn:Es.
  { exfalso. exact (split_nonempty _ _ Es). }
  cbn [nth_error].
  destruct (Str.mem "." lp) eqn:Ed.
  - destruct (split "." lp) as [|a [|b [|c rest]]] eqn:Ep;
      eexists; (split; [reflexivity|]); (split; [try (left; reflexivity)|]);
      try (intros lp' sep a' b' _ H1 [-> | [-> Hm]] H2; inversion H1; subst lp';
           congruence).
    right. exists lp, "."%char, a, b. repeat split; auto.
  - assert (Hone : split "." lp = [lp]) by (apply split_without; exact Ed).
    destruct (Str.mem "_" lp) eqn:Eu.
    + destruct (split "_" lp) as [|a [|b [|c rest]]] eqn:Ep;
        eexists; (split; [reflexivity|]); (split; [try (left; reflexivity)|]);
        try (intros lp' sep a' b' _ H1 [-> | [-> Hm]] H2; inversion H1; subst lp';
             congruence).
      right. exists lp, "_"%char, a, b. repeat split; auto.
    + eexists. split; [reflexivity|]. split; [left; reflexivity|].
      intros lp' sep a' b' _ H1 [-> | [-> Hm]] H2; inversion H1; subst lp'.
      * congruence.
      * apply split_two_mem in H2. congruence.
Qed.

Lemma name_guess_needs_two_pieces_witness :
  exists res,
    extract_name_from_email "John.Doe@example.com" = inr res
    /\ (res = NameGuess.initial
        \/ exists local_part sep first last,
             nth_error (split "@" (lower "John.Doe@example.com")) 0 = Some local_part
             /\ (sep = "."%char \/ (sep = "_"%char /\ Str.mem "." local_part = false))
             /\ split sep local_part = [first; last]
             /\ res = NameGuess.of_parts first last)
    /\ (forall local_part sep first last,
          Str.mem "@" "John.Doe@example.com" = true ->
          nth_error (split "@" (lower "John.Doe@example.com")) 0 = Some local_part ->
          sep = "."%char \/ (sep = "_"%char /\ Str.mem "." local_part = false) ->
          split sep local_part = [first; last] ->
          res = NameGuess.of_parts first last).
Proof.
  apply (name_guess_needs_two_pieces "John.Doe@example.com"). vm_compute. reflexivity.
Defined.

(* ================================================================== *)
(** * The signals from the web *)

Ltac gsimpl :=
  cbn [GravatarResult.has_gravatar GravatarResult.confidence_boost
       GravatarResult.error GravatarResult.profile_url GravatarResult.initial].

(** Property X27 ([check_gravatar]).  On ASCII input [has_gravatar] is true
    exactly when the digest was computed and the HEAD request for the
    avatar of the lowered and stripped address was answered with the
    status 200.  Then the boost is 15, [profile_url] is the URL of the
    profile and no error is recorded; otherwise the boost is 0 and there is
    no [profile_url].  An [HTTPError] of any code, not of 404 alone, leaves
    the initial result with no error; another exception of the request is
    recorded under "error". *)
Theorem gravatar_needs_status_200 md5_hexdigest urlopen_head email :
  ascii_string email ->
  let r := check_gravatar md5_hexdigest urlopen_head email in
  (GravatarResult.has_gravatar r = true <->
   exists h body,
     md5_hexdigest (strip (lower email)) = inr h
     /\ urlopen_head ("https://www.gravatar.com/avatar/" ++ h ++ "?d=404")
        = Response 200 body)
  /\ (GravatarResult.has_gravatar r = true ->
      GravatarResult.confidence_boost r = 15%Z
      /\ GravatarResult.error r = None
      /\ exists h, md5_hexdigest (strip (lower email)) = inr h
                   /\ GravatarResult.profile_url r
                      = Some ("https://www.gravatar.com/" ++ h))
  /\ (GravatarResult.has_gravatar r = false ->
      GravatarResult.confidence_boost r = 0%Z /\ GravatarResult.profile_url r = None)
  /\ (forall h code text,
         md5_hexdigest (strip (lower email)) = inr h ->
         urlopen_head ("https://www.gravatar.com/avatar/" ++ h ++ "?d=404")
         = HTTPError code text ->
         r = GravatarResult.initial)
  /\ (forall h e,
         md5_hexdigest (strip (lower email)) = inr h ->
         urlopen_head ("https://www.gravatar.com/avatar/" ++ h ++ "?d=404") = Failure e ->
         GravatarResult.error r = Some (str e)).
Proof.
  intros _ r. subst r. unfold check_gravatar.
  destruct (md5_hexdigest (strip (lower email))) as [e | h] eqn:Eh.
  { gsimpl. repeat split; try discriminate; try (intros; discriminate).
    intros [h [body [H _]]]. discriminate H. }
  remember ("https://www.gravatar.com/avatar/" ++ h ++ "?d=404") as url eqn:Eurl.
  assert (Hu : forall h', inr h = @inr exn string h' ->
                          "https://www.gravatar.com/avatar/" ++ h' ++ "?d=404" = url).
  { intros h' H. inversion H. subst. reflexivity. }
  destruct (urlopen_head url) as [status body | code text | e] eqn:Eu.
  - destruct (Z.eqb status 200) eqn:Es.
    + apply Z.eqb_eq in Es. subst status. gsimpl. repeat split; try discriminate.
      * intros _. exists h, body. rewrite (Hu h eq_refl). auto.
      * exists h. auto.
      * intros h' code text H. rewrite (Hu h' H), Eu. discriminate.
      * intros h' e H. rewrite (Hu h' H), Eu. discriminate.
    + apply Z.eqb_neq in Es. gsimpl. repeat split; try discriminate.
      * intros [h' [body' [H1 H2]]]. rewrite (Hu h' H1), Eu in H2.
        inversion H2. congruence.
      * intros h' e H. rewrite (Hu h' H), Eu. discriminate.
  - gsimpl. repeat split; try discriminate.
    + intros [h' [body' [H1 H2]]]. rewrite (Hu h' H1), Eu in H2. discriminate H2.
    + intros h' e H. rewrite (Hu h' H), Eu. discriminate.
  - gsimpl. repeat split; try discriminate.
    + intros [h' [body' [H1 H2]]]. rewrite (Hu h' H1), Eu in H2. discriminate H2.
    + intros h' code text H. rewrite (Hu h' H), Eu. discriminate.
    + intros h' e' H. rewrite (Hu h' H), Eu. intros H'. inversion H'. reflexivity.
Qed.

Lemma gravatar_needs_status_200_witness :
  GravatarResult.has_gravatar (check_gravatar md5_fixed head_found " John.Doe@Example.com ")
  = true
  <-> exists h body,
        md5_fixed (strip (lower " John.Doe@Example.com ")) = inr h
        /\ head_found ("https://www.gravatar.com/avatar/" ++ h ++ "?d=404")
           = Response 200 body.
Proof.
  refine (proj1 (gravatar_needs_status_200 md5_fixed head_found " John.Doe@Example.com " _)).
  vm_compute. reflexivity.
Defined.

Lemma sound_initial : sound_search SearchResult.initial.
Proof.
  split; [exists false; split; reflexivity|]. split; intros _; repeat split.
Qed.

Lemma sound_error text : sound_search (SearchResult.set_error text SearchResult.initial).
Proof.
  split; [exists false; split; reflexivity|]. split; intros _; repeat split.
Qed.

Lemma sound_error_searched text :
  sound_search (SearchResult.set_error text (SearchResult.set_searched SearchResult.initial)).
Proof.
  split; [exists false; split; reflexivity|]. split; [discriminate|].
  intros _; repeat split.
Qed.

Lemma sound_findings py_str person_name company_name web_data :
  let r := findings py_str person_name company_name web_data
             (SearchResult.set_searched SearchResult.initial) in
  sound_search r /\ SearchResult.searched r = true /\ SearchResult.error r = None.
Proof.
  unfold findings. cbv beta zeta.
  destruct (truthy (dict_get web_data "person_exists_at_company" PNone));
    [pose (c := true) | pose (c := false)];
    destruct (truthy (dict_get web_data "linkedin_profile_found" PNone));
    destruct (truthy (dict_get web_data "email_found_publicly" PNone));
    destruct (truthy (dict_get web_data "company_page_mention" PNone));
    destruct (truthy (dict_get web_data "notes" PNone));
    (split; [|split; reflexivity]);
    (split; [exists c; split; reflexivity
            | split; [discriminate | intros H; exfalso; apply H; reflexivity]]).
Qed.

Lemma sound_findings_only py_str person_name company_name web_data :
  sound_search (findings py_str person_name company_name web_data
                  (SearchResult.set_searched SearchResult.initial)).
Proof. apply sound_findings. Qed.

Lemma sound_read_reply json_loads error_text py_str person_name company_name text :
  sound_search (read_reply json_loads error_text py_str person_name company_name text).
Proof.
  unfold read_reply.
  repeat match goal with
         | |- sound_search (match ?x with _ => _ end) => destruct x
         | |- sound_search (if ?x then _ else _) => destruct x
         end;
    first [ apply sound_initial | apply sound_error | apply sound_error_searched
          | apply sound_findings_only ].
Qed.

Lemma sound_search_web perplexity json_loads error_text py_str
    email person_name company_name job_title api_key :
  sound_search (search_web_for_validation perplexity json_loads error_text py_str
                  email person_name company_name job_title api_key).
Proof.
  unfold search_web_for_validation.
  destruct api_key as [key|]; [|apply sound_initial].
  destruct (String.eqb key ""); [apply sound_initial|].
  destruct (negb _); [apply sound_initial|].
  destruct (perplexity key email person_name company_name job_title);
    [apply sound_error | apply sound_read_reply].
Qed.

Lemma sound_search_bounds r :
  sound_search r ->
  (0 <= SearchResult.confidence_boost r <= 75)%Z
  /\ (List.length (SearchResult.evidence r) <= 4)%nat.
Proof.
  intros [[c [Hb He]] _]. rewrite Hb, He.
  destruct c, (SearchResult.linkedin_found r), (SearchResult.email_found_publicly r),
    (SearchResult.company_page_found r); cbn; lia.
Qed.

(** What the five [if]s on the parsed reply give. *)
Lemma findings_spec py_str person_name company_name d :
  let f := findings py_str person_name company_name d
             (SearchResult.set_searched SearchResult.initial) in
  let found key := truthy (dict_get d key PNone) in
  SearchResult.searched f = true
  /\ SearchResult.error f = None
  /\ SearchResult.confidence_boost f
     = ((if found "person_exists_at_company" then 20 else 0)
        + (if found "linkedin_profile_found" then 15 else 0)
        + (if found "email_found_publicly" then 25 else 0)
        + (if found "company_page_mention" then 15 else 0))%Z
  /\ SearchResult.linkedin_found f = found "linkedin_profile_found"
  /\ SearchResult.email_found_publicly f = found "email_found_publicly"
  /\ SearchResult.company_page_found f = found "company_page_mention"
  /\ SearchResult.evidence f
     = ((if found "person_exists_at_company"
         then [("Web search confirms " ++ str_of person_name ++ " works at "
                ++ str_of company_name)%string]
         else [])
        ++ (if found "linkedin_profile_found"
            then [("LinkedIn profile found: "
                   ++ py_str (dict_get d "linkedin_url" (PStr "LinkedIn")))%string]
            else [])
        ++ (if found "email_found_publicly"
            then [("Email found publicly at: "
                   ++ py_str (dict_get d "email_source_url" (PStr "web")))%string]
            else [])
        ++ (if found "company_page_mention"
            then [("Person found on company website: "
                   ++ py_str (dict_get d "company_page_url" (PStr "company website")))%string]
            else []))%list
  /\ SearchResult.notes f
     = (if found "notes" then Some (dict_get d "notes" PNone) else None).
Proof.
  unfold findings. cbv beta zeta.
  destruct (truthy (dict_get d "person_exists_at_company" PNone));
    destruct (truthy (dict_get d "linkedin_profile_found" PNone));
    destruct (truthy (dict_get d "email_found_publicly" PNone));
    destruct (truthy (dict_get d "company_page_mention" PNone));
    destruct (truthy (dict_get d "notes" PNone));
    repeat split.
Qed.

(** A search that was made and left no error went all the way through the
    reply. *)
Lemma search_web_searched perplexity json_loads error_text py_str
    email person_name company_name job_title api_key :
  let r := search_web_for_validation perplexity json_loads error_text py_str
             email person_name company_name job_title api_key in
  SearchResult.searched r = true -> SearchResult.error r = None ->
  exists key text resp_data choices choice message content start stop d,
    api_key = Some key
    /\ perplexity key email person_name company_name job_title = inr text
    /\ json_loads text = inr resp_data
    /\ py_item resp_data "choices" = inr choices
    /\ py_first choices = inr choice
    /\ py_item choice "message" = inr message
    /\ py_item message "content" = inr (PStr content)
    /\ find_char "{" content = Some start
    /\ rfind_char "}" content = Some stop
    /\ (start < stop)%nat
    /\ json_loads (substring start (stop + 1 - start) content) = inr (PDict d)
    /\ r = findings py_str person_name company_name d
             (SearchResult.set_searched SearchResult.initial).
Proof.
  unfold search_web_for_validation, read_reply.
  destruct api_key as [key|]; [|discriminate].
  destruct (String.eqb key ""); [discriminate|].
  destruct (negb _); [discriminate|].
  destruct (perplexity key email person_name company_name job_title) as [e | text] eqn:E1;
    [discriminate|].
  destruct (json_loads text) as [e | resp_data] eqn:E2; [discriminate|].
  destruct (py_in "choices" resp_data) as [err | [|]]; try discriminate.
  destruct (py_item resp_data "choices") as [err | choices] eqn:E3; [discriminate|].
  destruct (py_len choices) as [err | n]; [discriminate|].
  destruct (Nat.ltb 0 n); [|discriminate].
  destruct (py_first choices) as [err | choice] eqn:E4; [discriminate|].
  destruct (py_item choice "message") as [err | message] eqn:E5; [discriminate|].
  destruct (py_item message "content") as [err | content0] eqn:E6; [discriminate|].
  destruct content0 as [| | | |content| |]; try discriminate.
  destruct (find_char "{" content) as [start|] eqn:E7; [|discriminate].
  destruct (rfind_char "}" content) as [stop|] eqn:E8; [|discriminate].
  destruct (Nat.ltb start stop) eqn:E9; [|discriminate].
  apply Nat.ltb_lt in E9.
  destruct (json_loads (substring start (stop + 1 - start) content)) as [e | web] eqn:E10;
    [discriminate|].
  destruct web as [| | | | | |d]; try (intros _ H; discriminate H).
  intros _ _. exists key, text, resp_data, choices, choice, message, content, start, stop, d.
  repeat split; assumption.
Qed.

(** Property X28 ([search_web_for_validation]).  When a search was made and
    left no error, the content of the reply held a JSON object [d] between
    its first opening and its last closing brace, and the result is read
    off [d]: the boost is 20 when "person_exists_at_company" is truthy,
    plus 15 for "linkedin_profile_found", plus 25 for
    "email_found_publicly", plus 15 for "company_page_mention"; the three
    flags are the truth values of the last three keys; the evidence has
    one line for each of the four, in this order; the notes are those of
    [d].  The boost lies between 0 and 75.  When [searched] is false or an
    error is recorded, the boost is 0 and evidence, notes and flags are
    empty.  Without a key, or without any of name, company and job title,
    the result is the initial one whatever the web answers. *)
Theorem web_search_boost_is_sum_of_findings perplexity json_loads error_text py_str
    email person_name company_name job_title api_key :
  let r := search_web_for_validation perplexity json_loads error_text py_str
             email person_name company_name job_title api_key in
  (SearchResult.searched r = true -> SearchResult.error r = None ->
   exists key text resp_data choices choice message content start stop d,
     api_key = Some key
     /\ perplexity key email person_name company_name job_title = inr text
     /\ json_loads text = inr resp_data
     /\ py_item resp_data "choices" = inr choices
     /\ py_first choices = inr choice
     /\ py_item choice "message" = inr message
     /\ py_item message "content" = inr (PStr content)
     /\ find_char "{" content = Some start
     /\ rfind_char "}" content = Some stop
     /\ (start < stop)%nat
     /\ json_loads (substring start (stop + 1 - start) content) = inr (PDict d)
     /\ SearchResult.confidence_boost r
        = ((if truthy (dict_get d "person_exists_at_company" PNone) then 20 else 0)
           + (if truthy (dict_get d "linkedin_profile_found" PNone) then 15 else 0)
           + (if truthy (dict_get d "email_found_publicly" PNone) then 25 else 0)
           + (if truthy (dict_get d "company_page_mention" PNone) then 15 else 0))%Z
     /\ SearchResult.linkedin_found r = truthy (dict_get d "linkedin_profile_found" PNone)
     /\ SearchResult.email_found_publicly r
        = truthy (dict_get d "email_found_publicly" PNone)
     /\ SearchResult.company_page_found r
        = truthy (dict_get d "company_page_mention" PNone)
     /\ SearchResult.evidence r
        = ((if truthy (dict_get d "person_exists_at_company" PNone)
            then [("Web search confirms " ++ str_of person_name ++ " works at "
                   ++ str_of company_name)%string]
            else [])
           ++ (if truthy (dict_get d "linkedin_profile_found" PNone)
               then [("LinkedIn profile found: "
                      ++ py_str (dict_get d "linkedin_url" (PStr "LinkedIn")))%string]
               else [])
           ++ (if truthy (dict_get d "email_found_publicly" PNone)
               then [("Email found publicly at: "
                      ++ py_str (dict_get d "email_source_url" (PStr "web")))%string]
               else [])
           ++ (if truthy (dict_get d "company_page_mention" PNone)
               then [("Person found on company website: "
                      ++ py_str (dict_get d "company_page_url" (PStr "company website")))%string]
               else []))%list
     /\ SearchResult.notes r
        = (if truthy (dict_get d "notes" PNone)
           then Some (dict_get d "notes" PNone) else None))
  /\ (0 <= SearchResult.confidence_boost r <= 75)%Z
  /\ (SearchResult.searched r = false \/ SearchResult.error r <> None ->
      SearchResult.confidence_boost r = 0%Z /\ SearchResult.evidence r = []
      /\ SearchResult.notes r = None
      /\ SearchResult.linkedin_found r = false
      /\ SearchResult.email_found_publicly r = false
      /\ SearchResult.company_page_found r = false)
  /\ (given api_key = false
      \/ (given person_name = false /\ given company_name = false
          /\ given job_title = false) ->
      r = SearchResult.initial).
Proof.
  intros r.
  pose proof (sound_search_web perplexity json_loads error_text py_str
                email person_name company_name job_title api_key) as Hs.
  fold r in Hs.
  destruct (sound_search_bounds r Hs) as [Hb _].
  destruct Hs as [[c [Hsum Hlen]] [Hns Herr]].
  split; [|split; [exact Hb|split]].
  - intros H1 H2.
    destruct (search_web_searched perplexity json_loads error_text py_str
                email person_name company_name job_title api_key H1 H2)
      as [key [text [resp_data [choices [choice [message [content [start [stop [d
            [K1 [K2 [K3 [K4 [K5 [K6 [K7 [K8 [K9 [K10 [K11 K12]]]]]]]]]]]]]]]]]]]]].
    exists key, text, resp_data, choices, choice, message, content, start, stop, d.
    do 11 (split; [assumption|]).
    fold r in K12. rewrite K12.
    destruct (findings_spec py_str person_name company_name d)
      as [_ [_ [F1 [F2 [F3 [F4 [F5 F6]]]]]]].
    repeat split; assumption.
  - assert (Hflags : SearchResult.confidence_boost r = 0%Z ->
                     SearchResult.evidence r = [] ->
                     SearchResult.linkedin_found r = false
                     /\ SearchResult.email_found_publicly r = false
                     /\ SearchResult.company_page_found r = false).
    { intros H0 He. rewrite H0 in Hsum. rewrite He in Hlen. simpl in Hlen.
      destruct c, (SearchResult.linkedin_found r), (SearchResult.email_found_publicly r),
        (SearchResult.company_page_found r); simpl in Hlen; try discriminate Hlen;
        repeat split. }
    intros [H | H].
    + destruct (Hns H) as [A [B C]]. destruct (Hflags A B) as [D [F G]]. repeat split; assumption.
    + destruct (Herr H) as [A [B C]]. destruct (Hflags A B) as [D [F G]]. repeat split; assumption.
  - subst r. unfold search_web_for_validation.
    intros [H | [H1 [H2 H3]]].
    + destruct api_key as [key|]; [|reflexivity].
      simpl in H. destruct (String.eqb key ""); [reflexivity | discriminate H].
    + rewrite H1, H2, H3. simpl.
      destruct api_key as [key|]; [|reflexivity].
      destruct (String.eqb key ""); reflexivity.
Qed.

Lemma web_search_boost_is_sum_of_findings_witness :
  let r := search_web_for_validation search_answers loads_confirmed
             (fun _ => "") (fun _ => "")
             "john.doe@example.com" (Some "John Doe") None None (Some "key") in
  exists key text resp_data choices choice message content start stop d,
    Some "key" = Some key
    /\ search_answers key "john.doe@example.com" (Some "John Doe") None None = inr text
    /\ loads_confirmed text = inr resp_data
    /\ py_item resp_data "choices" = inr choices
    /\ py_first choices = inr choice
    /\ py_item choice "message" = inr message
    /\ py_item message "content" = inr (PStr content)
    /\ find_char "{" content = Some start
    /\ rfind_char "}" content = Some stop
    /\ (start < stop)%nat
    /\ loads_confirmed (substring start (stop + 1 - start) content) = inr (PDict d)
    /\ SearchResult.confidence_boost r
       = ((if truthy (dict_get d "person_exists_at_company" PNone) then 20 else 0)
          + (if truthy (dict_get d "linkedin_profile_found" PNone) then 15 else 0)
          + (if truthy (dict_get d "email_found_publicly" PNone) then 25 else 0)
          + (if truthy (dict_get d "company_page_mention" PNone) then 15 else 0))%Z
    /\ SearchResult.confidence_boost r = 75%Z.
Proof.
  intros r.
  destruct (proj1 (web_search_boost_is_sum_of_findings search_answers loads_confirmed
                     (fun _ => "") (fun _ => "")
                     "john.doe@example.com" (Some "John Doe") None None (Some "key"))
              ltac:(vm_compute; reflexivity) ltac:(vm_compute; reflexivity))
    as [key [text [resp_data [choices [choice [message [content [start [stop [d
          [K1 [K2 [K3 [K4 [K5 [K6 [K7 [K8 [K9 [K10 [K11 [K12 _]]]]]]]]]]]]]]]]]]]]]].
  exists key, text, resp_data, choices, choice, message, content, start, stop, d.
  do 11 (split; [assumption|]). split; [exact K12 | vm_compute; reflexivity].
Defined.

(* ================================================================== *)
(** * The signals put together *)

Lemma split_length_list sep l :
  List.length (split sep (string_of_list_ascii l))
  = S (List.length (filter (fun a => Ascii.eqb a sep) l)).
Proof.
  induction l as [|a l IH]; [reflexivity|].
  simpl. destruct (Ascii.eqb a sep); simpl.
  - rewrite IH. reflexivity.
  - destruct (split sep (string_of_list_ascii l)); simpl in *; [discriminate IH | exact IH].
Qed.

Lemma filter_drop_while (p q : ascii -> bool) l :
  (forall a, p a = true -> q a = false) ->
  filter q (Str.drop_while p l) = filter q l.
Proof.
  intros H. induction l as [|a l IH]; [reflexivity|].
  simpl. destruct (p a) eqn:E; [|reflexivity].
  rewrite (H a E). exact IH.
Qed.

Lemma filter_rev_length (q : ascii -> bool) l :
  List.length (filter q (rev l)) = List.length (filter q l).
Proof.
  induction l as [|a l IH]; [reflexivity|].
  simpl. rewrite filter_app, length_app, IH. simpl.
  destruct (q a); simpl; lia.
Qed.

Lemma space_is_not_at a : Str.is_space a = true -> Ascii.eqb a "@" = false.
Proof.
  destruct a as [[] [] [] [] [] [] [] []]; intros H; first [reflexivity | discriminate H].
Qed.

Lemma split_strip_length s :
  List.length (split "@" (strip s)) = List.length (split "@" s).
Proof.
  unfold strip, Str.lstrip_by, Str.rstrip_by.
  rewrite list_ascii_of_string_of_list_ascii, split_length_list.
  rewrite (filter_drop_while _ _ _ space_is_not_at), filter_rev_length.
  rewrite (filter_drop_while _ _ _ space_is_not_at), filter_rev_length.
  rewrite <- split_length_list, string_of_list_ascii_of_string. reflexivity.
Qed.

Lemma first_match_given s : given (first_match patterns s) = true \/ first_match patterns s = None.
Proof.
  unfold first_match, patterns.
  repeat match goal with
         | |- context [if ?b then _ else _] => destruct b; [left; reflexivity|]
         end.
  right. reflexivity.
Qed.

Lemma pattern_contribution email known p :
  check_email_pattern email known = inr p ->
  (0 <= (if given (PatternResult.pattern_detected p)
         then PatternResult.confidence_boost p else 0) <= 25)%Z.
Proof.
  intros H. destruct (check_email_pattern_inv _ _ _ H) as [-> | [lp [dom [_ [_ [_ Hb]]]]]].
  - cbn. lia.
  - destruct (given (PatternResult.pattern_detected p)); [|lia].
    rewrite Hb. destruct (PatternResult.matches_known_pattern p);
      destruct (PatternResult.pattern_detected p) as [name|];
      try destruct (in_list name _); lia.
Qed.

Lemma name_signal_values person_name n :
  In (fst (name_signal person_name n)) [0; 15; 25]%Z
  /\ (given person_name = false -> fst (name_signal person_name n) = 0%Z).
Proof.
  unfold name_signal. destruct person_name as [provided|]; [|simpl; tauto].
  destruct (given (Some provided)) eqn:Eg; simpl andb; cbv iota.
  - destruct (given (NameGuess.full_name_guess n)); [|simpl; split; [tauto | discriminate]].
    destruct (String.eqb _ _); [simpl; split; [tauto | discriminate]|].
    destruct (_ && _); simpl; split; try tauto; discriminate.
  - simpl. tauto.
Qed.

Lemma gravatar_contribution md5_hexdigest urlopen_head email :
  let g := check_gravatar md5_hexdigest urlopen_head email in
  (0 <= (if GravatarResult.has_gravatar g then GravatarResult.confidence_boost g else 0)
   <= 15)%Z.
Proof.
  unfold check_gravatar.
  destruct (md5_hexdigest _); [cbn; lia|].
  destruct (urlopen_head _); try (cbn; lia).
  destruct (Z.eqb status 200); cbn; lia.
Qed.

Lemma level_of_spec score :
  (fst (level_of score) = high <-> (70 <= score)%Z)
  /\ (fst (level_of score) = medium <-> (40 <= score < 70)%Z)
  /\ (fst (level_of score) = low <-> (score < 40)%Z).
Proof.
  unfold level_of.
  destruct (70 <=? score)%Z eqn:E1; [apply Z.leb_le in E1 | apply Z.leb_gt in E1].
  - simpl. repeat split; intros; try discriminate; try lia.
  - destruct (40 <=? score)%Z eqn:E2; [apply Z.leb_le in E2 | apply Z.leb_gt in E2];
      simpl; repeat split; intros; try discriminate; try lia.
Qed.

Ltac vsimpl :=
  cbv beta iota delta
      [ValidationResult.email ValidationResult.is_valid_syntax
       ValidationResult.confidence_score ValidationResult.confidence_level
       ValidationResult.gravatar ValidationResult.pattern
       ValidationResult.name_extraction ValidationResult.web_search
       ValidationResult.evidence ValidationResult.recommendation
       ValidationResult.rejected].

(** What [validate_email_multi_signal] returns when it returns. *)
Lemma validate_inv md5_hexdigest urlopen_head perplexity json_loads error_text py_str
    email person_name company_name job_title known api_key res :
  validate_email_multi_signal md5_hexdigest urlopen_head perplexity json_loads
    error_text py_str email person_name company_name job_title known api_key = inr res ->
  (res = ValidationResult.rejected email "Invalid email format"
   \/ res = ValidationResult.rejected email "Invalid email syntax")
  \/ exists p n,
       check_email_pattern (strip (lower email)) known = inr p
       /\ extract_name_from_email (strip (lower email)) = inr n
       /\ Re.re_match Re.email_regex (strip (lower email)) = true
       /\ ValidationResult.email res = email
       /\ ValidationResult.is_valid_syntax res = true
       /\ ValidationResult.gravatar res
          = Some (check_gravatar md5_hexdigest urlopen_head (strip (lower email)))
       /\ ValidationResult.pattern res = Some p
       /\ ValidationResult.name_extraction res = Some n
       /\ ValidationResult.web_search res
          = (if given api_key && (given person_name || given company_name)
             then Some (search_web_for_validation perplexity json_loads error_text py_str
                          (strip (lower email)) person_name company_name job_title api_key)
             else None)
       /\ ValidationResult.confidence_score res
          = (10
             + (if GravatarResult.has_gravatar
                     (check_gravatar md5_hexdigest urlopen_head (strip (lower email)))
                then GravatarResult.confidence_boost
                       (check_gravatar md5_hexdigest urlopen_head (strip (lower email)))
                else 0)
             + (if given (PatternResult.pattern_detected p)
                then PatternResult.confidence_boost p else 0)
             + fst (name_signal person_name n)
             + (if given api_key && (given person_name || given company_name)
                then SearchResult.confidence_boost
                       (search_web_for_validation perplexity json_loads error_text py_str
                          (strip (lower email)) person_name company_name job_title api_key)
                else 0))%Z
       /\ ValidationResult.confidence_level res
          = fst (level_of (ValidationResult.confidence_score res))
       /\ ValidationResult.recommendation res
          = snd (level_of (ValidationResult.confidence_score res)).
Proof.
  unfold validate_email_multi_signal. intros H.
  destruct (String.eqb email "" || negb (Str.mem "@" email)).
  { inversion H. left. left. reflexivity. }
  cbv zeta in H.
  destruct (unpack2 (split "@" (strip (lower email)))) as [e | [lp dom]]; [discriminate H|].
  destruct (Re.re_match Re.email_regex (strip (lower email))) eqn:Em;
    simpl negb in H; cbv iota in H.
  2:{ inversion H. left. right. reflexivity. }
  destruct (check_email_pattern (strip (lower email)) known) as [e | p] eqn:Ep;
    [discriminate H|].
  destruct (extract_name_from_email (strip (lower email))) as [e | n] eqn:En;
    [discriminate H|].
  destruct (name_signal person_name n) as [nb ne] eqn:Ens.
  apply (f_equal (fun x => match x with inr r => r | inl _ => res end)) in H.
  cbv beta iota in H. subst res. right. exists p, n.
  do 9 (split; [reflexivity|]).
  split; [|split; reflexivity].
  vsimpl. rewrite Ens. change (fst (nb, ne)) with nb.
  generalize (SearchResult.confidence_boost
                (search_web_for_validation perplexity json_loads error_text py_str
                   (strip (lower email)) person_name company_name job_title api_key)).
  generalize (given api_key && (given person_name || given company_name)).
  generalize (PatternResult.confidence_boost p).
  generalize (given (PatternResult.pattern_detected p)).
  generalize (GravatarResult.confidence_boost
                (check_gravatar md5_hexdigest urlopen_head (strip (lower email)))).
  generalize (GravatarResult.has_gravatar
                (check_gravatar md5_hexdigest urlopen_head (strip (lower email)))).
  intros hg gb dp pb asked wb. destruct hg, dp, asked; lia.
Qed.

(** The bounds of the four contributions to the score. *)
Lemma validate_score_bounds md5_hexdigest urlopen_head perplexity json_loads error_text
    py_str address person_name company_name job_title known api_key p n score :
  check_email_pattern address known = inr p ->
  score
  = (10
     + (if GravatarResult.has_gravatar (check_gravatar md5_hexdigest urlopen_head address)
        then GravatarResult.confidence_boost
               (check_gravatar md5_hexdigest urlopen_head address)
        else 0)
     + (if given (PatternResult.pattern_detected p)
        then PatternResult.confidence_boost p else 0)
     + fst (name_signal person_name n)
     + (if given api_key && (given person_name || given company_name)
        then SearchResult.confidence_boost
               (search_web_for_validation perplexity json_loads error_text py_str
                  address person_name company_name job_title api_key)
        else 0))%Z ->
  (10 <= score <= 150)%Z
  /\ (given api_key && (given person_name || given company_name) = false ->
      (score <= 75)%Z /\ (given person_name = false -> (score <= 50)%Z)).
Proof.
  intros Ep ->.
  pose proof (gravatar_contribution md5_hexdigest urlopen_head address) as G.
  pose proof (pattern_contribution _ _ _ Ep) as P.
  destruct (name_signal_values person_name n) as [N N0].
  pose proof (sound_search_bounds _
                (sound_search_web perplexity json_loads error_text py_str
                   address person_name company_name job_title api_key)) as [W _].
  cbv zeta in G. simpl in N.
  split.
  - destruct (given api_key && (given person_name || given company_name)); lia.
  - intros ->. split; [lia|]. intros Hpn. rewrite (N0 Hpn). lia.
Qed.

(** Property X29 ([validate_email_multi_signal]).  On ASCII input the
    function raises [ValueError] for an address with two at signs or more.
    When it returns, [email] is the argument as given; the level is [high]
    from 70 on, [medium] from 40 to 69 and [low] below 40; without a valid
    syntax the score is 0, there is no evidence and no signal, and the
    recommendation is one of the two messages of rejection; with a valid
    syntax the score lies between 10 and 150, the signals of the avatar,
    of the pattern and of the name are present, and the lowered and
    stripped address matches the pattern. *)
Theorem validation_score_and_level md5_hexdigest urlopen_head perplexity json_loads
    error_text py_str email person_name company_name job_title known api_key :
  ascii_string email -> ascii_strings known -> ascii_name person_name ->
  ((3 <= List.length (split "@" email))%nat ->
   validate_email_multi_signal md5_hexdigest urlopen_head perplexity json_loads
     error_text py_str email person_name company_name job_title known api_key
   = inl ValueError)
  /\ forall res,
       validate_email_multi_signal md5_hexdigest urlopen_head perplexity json_loads
         error_text py_str email person_name company_name job_title known api_key
       = inr res ->
       ValidationResult.email res = email
       /\ (ValidationResult.confidence_level res = high
           <-> (70 <= ValidationResult.confidence_score res)%Z)
       /\ (ValidationResult.confidence_level res = medium
           <-> (40 <= ValidationResult.confidence_score res < 70)%Z)
       /\ (ValidationResult.confidence_level res = low
           <-> (ValidationResult.confidence_score res < 40)%Z)
       /\ (ValidationResult.is_valid_syntax res = false ->
           ValidationResult.confidence_score res = 0%Z
           /\ ValidationResult.evidence res = []
           /\ ValidationResult.gravatar res = None
           /\ ValidationResult.pattern res = None
           /\ ValidationResult.name_extraction res = None
           /\ ValidationResult.web_search res = None
           /\ (ValidationResult.recommendation res = "Invalid email format"
               \/ ValidationResult.recommendation res = "Invalid email syntax"))
       /\ (ValidationResult.is_valid_syntax res = true ->
           (10 <= ValidationResult.confidence_score res <= 150)%Z
           /\ ValidationResult.gravatar res <> None
           /\ ValidationResult.pattern res <> None
           /\ ValidationResult.name_extraction res <> None
           /\ Re.re_match Re.email_regex (strip (lower email)) = true).
Proof.
  intros _ _ _. split.
  - intros H. unfold validate_email_multi_signal.
    assert (Hm : Str.mem "@" email = true).
    { destruct (Str.mem "@" email) eqn:E; [reflexivity|].
      rewrite (split_without _ _ E) in H. simpl in H. lia. }
    assert (He : String.eqb email "" = false).
    { destruct email; [discriminate Hm | reflexivity]. }
    rewrite He, Hm. simpl orb. cbv iota zeta.
    destruct (unpack2_spec (split "@" (strip (lower email)))) as [_ Hu].
    rewrite Hu; [reflexivity|].
    rewrite split_strip_length, split_lower_length. lia.
  - intros res H.
    destruct (validate_inv _ _ _ _ _ _ _ _ _ _ _ _ _ H)
      as [[-> | ->] | [p [n [Ep [En [Em [He [Hv [Hg [Hp [Hn [Hw [Hs [Hl Hr]]]]]]]]]]]]]].
    + vsimpl. split; [reflexivity|].
      split; [split; [discriminate | lia]|].
      split; [split; [discriminate | lia]|].
      split; [split; [lia | reflexivity]|].
      split; [intros _; repeat split; left; reflexivity | discriminate].
    + vsimpl. split; [reflexivity|].
      split; [split; [discriminate | lia]|].
      split; [split; [discriminate | lia]|].
      split; [split; [lia | reflexivity]|].
      split; [intros _; repeat split; right; reflexivity | discriminate].
    + split; [exact He|].
      destruct (level_of_spec (ValidationResult.confidence_score res)) as [L1 [L2 L3]].
      rewrite Hl. split; [exact L1|]. split; [exact L2|]. split; [exact L3|].
      split; [intros Hf; rewrite Hv in Hf; discriminate Hf|].
      intros _. rewrite Hg, Hp, Hn.
      destruct (validate_score_bounds _ _ _ _ _ _ _ _ _ _ _ _ _ _ _ Ep Hs) as [Hb _].
      split; [exact Hb|]. repeat split; try discriminate. exact Em.
Qed.

Lemma validation_score_and_level_witness :
  validate_email_multi_signal md5_fixed head_found search_times_out loads_nothing
    (fun _ => "") (fun _ => "") "a@b@example.com" None None None None None
  = inl ValueError.
Proof.
  refine (proj1 (validation_score_and_level md5_fixed head_found search_times_out
                   loads_nothing (fun _ => "") (fun _ => "")
                   "a@b@example.com" None None None None None _ _ _) _).
  - vm_compute. reflexivity.
  - exact I.
  - exact I.
  - vm_compute. lia.
Defined.

(** Property X30 ([validate_email_multi_signal], what the level needs).  On
    ASCII input, without a key, or without both the name of the person and
    that of the company, there is no web search signal, the score is at
    most 75 and the result is the same whatever the search service
    answers.  Without the name of the person, and without the key or the
    name of the company, the score is at most 50 and the level is never
    [high]. *)
Theorem high_needs_a_name_or_the_web md5_hexdigest urlopen_head perplexity json_loads
    error_text py_str email person_name company_name job_title known api_key res :
  ascii_string email -> ascii_strings known -> ascii_name person_name ->
  validate_email_multi_signal md5_hexdigest urlopen_head perplexity json_loads
    error_text py_str email person_name company_name job_title known api_key = inr res ->
  (given api_key = false \/ (given person_name = false /\ given company_name = false) ->
   ValidationResult.web_search res = None
   /\ (ValidationResult.confidence_score res <= 75)%Z
   /\ forall perplexity' json_loads' error_text' py_str',
        validate_email_multi_signal md5_hexdigest urlopen_head perplexity' json_loads'
          error_text' py_str' email person_name company_name job_title known api_key
        = inr res)
  /\ (given person_name = false ->
      given api_key = false \/ given company_name = false ->
      (ValidationResult.confidence_score res <= 50)%Z
      /\ ValidationResult.confidence_level res <> high).
Proof.
  intros _ _ _ H.
  assert (Hscore :
            given api_key && (given person_name || given company_name) = false ->
            ValidationResult.web_search res = None
            /\ (ValidationResult.confidence_score res <= 75)%Z
            /\ (given person_name = false ->
                (ValidationResult.confidence_score res <= 50)%Z
                /\ ValidationResult.confidence_level res <> high)).
  { intros Ha.
    destruct (validate_inv _ _ _ _ _ _ _ _ _ _ _ _ _ H)
      as [[-> | ->] | [p [n [Ep [En [Em [He [Hv [Hg [Hp [Hn [Hw [Hs [Hl Hr]]]]]]]]]]]]]].
    - vsimpl. split; [reflexivity|]. split; [lia|]. intros _. split; [lia | discriminate].
    - vsimpl. split; [reflexivity|]. split; [lia|]. intros _. split; [lia | discriminate].
    - destruct (validate_score_bounds _ _ _ _ _ _ _ _ _ _ _ _ _ _ _ Ep Hs) as [_ Hb].
      destruct (Hb Ha) as [H75 H50].
      rewrite Ha in Hw. split; [exact Hw|]. split; [exact H75|].
      intros Hpn. split; [exact (H50 Hpn)|].
      destruct (level_of_spec (ValidationResult.confidence_score res)) as [L1 _].
      rewrite Hl. intros Hh. apply L1 in Hh. specialize (H50 Hpn). lia. }
  split.
  - intros Hno.
    assert (Ha : given api_key && (given person_name || given company_name) = false).
    { destruct Hno as [-> | [-> ->]]; [reflexivity | apply andb_false_r]. }
    destruct (Hscore Ha) as [Hw [Hs _]]. split; [exact Hw|]. split; [exact Hs|].
    intros perplexity' json_loads' error_text' py_str'. rewrite <- H.
    unfold validate_email_multi_signal. rewrite Ha. reflexivity.
  - intros Hpn Hno.
    assert (Ha : given api_key && (given person_name || given company_name) = false).
    { rewrite Hpn. destruct Hno as [-> | ->]; [reflexivity | apply andb_false_r]. }
    destruct (Hscore Ha) as [_ [_ Hh]]. exact (Hh Hpn).
Qed.

Lemma high_needs_a_name_or_the_web_witness :
  let res :=
    validated (validate_email_multi_signal md5_fixed head_found search_times_out
                 loads_nothing (fun _ => "") (fun _ => "")
                 "John.Doe@example.com" None (Some "Example Ltd") None
                 (Some ["jane.roe@example.com"]) None) in
  (ValidationResult.confidence_score res <= 50)%Z
  /\ ValidationResult.confidence_level res <> high.
Proof.
  refine (proj2 (high_needs_a_name_or_the_web md5_fixed head_found search_times_out
                   loads_nothing (fun _ => "") (fun _ => "")
                   "John.Doe@example.com" None (Some "Example Ltd") None
                   (Some ["jane.roe@example.com"]) None
                   (validated
                      (validate_email_multi_signal md5_fixed head_found search_times_out
                         loads_nothing (fun _ => "") (fun _ => "")
                         "John.Doe@example.com" None (Some "Example Ltd") None
                         (Some ["jane.roe@example.com"]) None))
                   _ _ _ _) _ _).
  - vm_compute. reflexivity.
  - repeat constructor.
  - exact I.
  - vm_compute. reflexivity.
  - reflexivity.
  - left. reflexivity.
Defined.

(** With every signal present the score is 150: it is not capped at 100. *)
Example score_is_not_capped :
  ValidationResult.confidence_score
    (validated
       (validate_email_multi_signal md5_fixed head_found search_answers loads_confirmed
          (fun _ => "") (fun _ => "")
          "John.Doe@example.com" (Some "John Doe") None None
          (Some ["jane.roe@example.com"]) (Some "key")))
  = 150%Z.
Proof. vm_compute. reflexivity. Qed.
